(** * Helios: chunk planning, aggregation, execution strategies, job store

    A shallow embedding of [scripts/compute.py], [scripts/worker.py],
    [scripts/subprocess_parallel.py], [scripts/job_manager.py] and the
    cancel endpoint of [scripts/main.py].

    Conventions.
    - Python [int] is [Z]; Python [float] is the primitive binary64
      [float] of [PrimFloat], so additions round exactly as they do in
      CPython.
    - A Python [dict] is an association list in insertion order with
      one entry per key ([Dict]): the order is observable through
      [JobManager.list_jobs] and through [json.dump].  Two dicts are
      equal for Python's [==] when they agree at every key
      ([Dict.dict_eq]).
    - A call that may raise returns an [outcome].
    - [datetime.now()] is an explicit argument [now]; an instant and its
      [isoformat()] text are both kept as the integer number of
      microseconds since the epoch. *)

From Stdlib Require Import ZArith Floats.
From stdpp Require Import gmap strings list sorting pretty.

Open Scope Z_scope.

(** ** Exceptions and outcomes *)

Inductive pyexc : Type :=
  | FileNotFoundError (msg : string)
  | ValueError (msg : string)
  | ZeroDivisionError
  | OverflowError
  | TypeError
  | HTTPException (status_code : Z) (detail : string).

Inductive outcome (A : Type) : Type :=
  | Return (a : A)
  | Raise (e : pyexc).
Arguments Return {A} a.
Arguments Raise {A} e.

#[global] Instance outcome_ret : MRet outcome := fun A a => Return a.
#[global] Instance outcome_bind : MBind outcome := fun A B f m =>
  match m with
  | Return a => f a
  | Raise e => Raise e
  end.
#[global] Instance outcome_fmap : FMap outcome := fun A B f m =>
  match m with
  | Return a => Return (f a)
  | Raise e => Raise e
  end.

(** A closed decidable proposition is settled by evaluating its
    decision procedure. *)
Ltac decide_by_computation :=
  refine (bool_decide_unpack _ _); vm_compute; exact I.

(** ** Python dictionaries *)

Module Dict.
Section dict.
Context {K V : Type} `{EqDecision K}.

(** [d.get(k)] *)
Fixpoint dict_get (k : K) (d : list (K * V)) : option V :=
  match d with
  | [] => None
  | (k', v) :: rest => if decide (k' = k) then Some v else dict_get k rest
  end.

(** [d[k] = v]: an existing key keeps its position, a new key is
    appended. *)
Fixpoint dict_set (k : K) (v : V) (d : list (K * V)) : list (K * V) :=
  match d with
  | [] => [(k, v)]
  | (k', v') :: rest =>
      if decide (k' = k) then (k', v) :: rest
      else (k', v') :: dict_set k v rest
  end.

(** [del d[k]] for a key that is present. *)
Fixpoint dict_del (k : K) (d : list (K * V)) : list (K * V) :=
  match d with
  | [] => []
  | (k', v') :: rest =>
      if decide (k' = k) then rest else (k', v') :: dict_del k rest
  end.

(** [list(d.values())] *)
Definition dict_values (d : list (K * V)) : list V := d.*2.

(** [d1 == d2] *)
Definition dict_eq (d1 d2 : list (K * V)) : Prop :=
  forall k, dict_get k d1 = dict_get k d2.

End dict.
End Dict.
Export Dict.

(** ** Python numbers *)

(** A value that is an [int] on one path and a [float] on another
    ([avg_energy] is the literal [0] for an empty result). *)
Inductive pynum : Type :=
  | PyInt (n : Z)
  | PyFloat (x : float).

(** [float(n)] for an [int]: correctly rounded, [OverflowError] when the
    result would not be finite. *)
Definition float_of_int (n : Z) : outcome float :=
  match binary_normalize prec emax n 0 false with
  | S754_infinity _ => Raise OverflowError
  | sf => Return (SF2Prim sf)
  end.

(** [x / n] for a [float] and an [int]. *)
Definition truediv (x : float) (n : Z) : outcome float :=
  if decide (n = 0) then Raise ZeroDivisionError
  else d ← float_of_int n; Return (x / d)%float.

(** [max(a, b)] and [min(a, b)] keep the first argument unless the
    second is strictly greater (smaller). *)
Definition py_max (a b : float) : float := if PrimFloat.ltb a b then b else a.
Definition py_min (a b : float) : float := if PrimFloat.ltb b a then b else a.

(** The decimal literals that occur in the source and in the examples,
    each as the double nearest to it. *)
Definition dec_0_1 : float := 0x1.999999999999ap-4.
Definition dec_0_2 : float := 0x1.999999999999ap-3.
Definition dec_0_3 : float := 0x1.3333333333333p-2.
Definition dec_0_7 : float := 0x1.6666666666666p-1.
Definition dec_0_8 : float := 0x1.999999999999ap-1.
Definition dec_0_9 : float := 0x1.ccccccccccccdp-1.

(** [l[:n]] *)
Definition slice_to {A} (l : list A) (n : Z) : list A :=
  if decide (0 <= n) then take (Z.to_nat n) l
  else take (Z.to_nat (Z.of_nat (length l) + n)) l.

(** ** compute.py *)

Module Compute.

(** A key of [status_counts] / [sensor_counts]: the text of the CSV
    cell, or [None] where [csv.DictReader] pads a short line. *)
Definition pykey : Type := option string.

(** The [energy] cell as [float()] sees it: text that parses to a
    double, text that does not, or a missing cell. *)
Inductive energy_cell : Type :=
  | EnergyText (parsed : option float)
  | EnergyMissing.

(** [float(row['energy'])] *)
Definition float_of_cell (c : energy_cell) : outcome float :=
  match c with
  | EnergyText (Some x) => Return x
  | EnergyText None => Raise (ValueError "could not convert string to float")
  | EnergyMissing => Raise TypeError
  end.

(** One row yielded by [csv.DictReader] for a file whose header names
    the columns [status], [sensor_id] and [energy], restricted to those
    columns. *)
Record row : Type := {
  status : pykey;
  sensor_id : pykey;
  energy : energy_cell
}.

(** An input file that [csv.DictReader] reads to its end: the number of
    physical lines and the rows that the reader yields after the
    header.  A file on which the reader itself raises (a field longer
    than the reader's limit) has no counterpart here, so statements
    over a [csv_file] speak of files that the reader accepts. *)
Record csv_file : Type := {
  physical_lines : nat;
  data_rows : list row
}.

(** [counts[key] += n] on a [defaultdict(int)] *)
Definition incr (key : pykey) (n : Z) (counts : list (pykey * Z))
  : list (pykey * Z) :=
  dict_set key (default 0 (dict_get key counts) + n) counts.

Module EventProcessor.

Record t : Type := {
  total : Z;
  status_counts : list (pykey * Z);
  sensor_counts : list (pykey * Z);
  energy_sum : float;
  high_energy_events : Z
}.

Definition __init__ : t := {|
  total := 0;
  status_counts := [];
  sensor_counts := [];
  energy_sum := 0;
  high_energy_events := 0
|}.

End EventProcessor.

(** The result dictionaries that flow through the pipeline.  The first
    six keys are written by [get_results] and by [merge_results]; every
    other key is present only where some function adds it. *)
Record results : Type := {
  total : Z;
  status_counts : list (pykey * Z);
  sensor_counts : list (pykey * Z);
  energy_sum : float;
  high_energy_events : Z;
  avg_energy : pynum;
  chunk_id : option Z;
  worker_id : option Z;
  processing_time : option float;
  chunks_processed : option Z;
  total_processing_time : option float;
  method : option string;
  num_workers : option Z
}.

(** [energy_sum / total if total > 0 else 0] *)
Definition average (energy_sum : float) (total : Z) : outcome pynum :=
  if decide (0 < total) then PyFloat <$> truediv energy_sum total
  else Return (PyInt 0).

Definition process_event (self : EventProcessor.t) (r : row)
  : outcome EventProcessor.t :=
  let total := EventProcessor.total self + 1 in
  let status_counts := incr (status r) 1 (EventProcessor.status_counts self) in
  let sensor_counts :=
    incr (sensor_id r) 1 (EventProcessor.sensor_counts self) in
  energy ← float_of_cell (energy r);
  let energy_sum := (EventProcessor.energy_sum self + energy)%float in
  let high_energy_events :=
    if PrimFloat.ltb 100 energy
    then EventProcessor.high_energy_events self + 1
    else EventProcessor.high_energy_events self in
  Return {| EventProcessor.total := total;
            EventProcessor.status_counts := status_counts;
            EventProcessor.sensor_counts := sensor_counts;
            EventProcessor.energy_sum := energy_sum;
            EventProcessor.high_energy_events := high_energy_events |}.

Definition get_results (self : EventProcessor.t) : outcome results :=
  avg ← average (EventProcessor.energy_sum self) (EventProcessor.total self);
  Return {| total := EventProcessor.total self;
            status_counts := EventProcessor.status_counts self;
            sensor_counts := EventProcessor.sensor_counts self;
            energy_sum := EventProcessor.energy_sum self;
            high_energy_events := EventProcessor.high_energy_events self;
            avg_energy := avg;
            chunk_id := None; worker_id := None; processing_time := None;
            chunks_processed := None; total_processing_time := None;
            method := None; num_workers := None |}.

(** The body of [for i, row in enumerate(reader)]: rows before
    [start_row] are skipped, the first row at or past
    [start_row + num_rows] ends the loop. *)
Fixpoint process_rows (start_row num_rows i : Z) (rows : list row)
    (processor : EventProcessor.t) : outcome EventProcessor.t :=
  match rows with
  | [] => Return processor
  | r :: rest =>
      if decide (i < start_row) then
        process_rows start_row num_rows (i + 1) rest processor
      else if decide (start_row + num_rows <= i) then Return processor
      else
        processor' ← process_event processor r;
        process_rows start_row num_rows (i + 1) rest processor'
  end.

Definition with_chunk_id (r : results) (chunk_id : Z) : results :=
  {| total := total r; status_counts := status_counts r;
     sensor_counts := sensor_counts r; energy_sum := energy_sum r;
     high_energy_events := high_energy_events r;
     avg_energy := avg_energy r;
     chunk_id := Some chunk_id; worker_id := worker_id r;
     processing_time := processing_time r;
     chunks_processed := chunks_processed r;
     total_processing_time := total_processing_time r;
     method := method r; num_workers := num_workers r |}.

(** [process_chunk_worker((file_path, start_row, num_rows, chunk_id))];
    [files] maps a path to the file found there. *)
Definition process_chunk_worker (files : gmap string csv_file)
    (args : string * Z * Z * Z) : outcome results :=
  let '(file_path, start_row, num_rows, chunk_id) := args in
  match files !! file_path with
  | None => Raise (FileNotFoundError file_path)
  | Some f =>
      processor ←
        process_rows start_row num_rows 0 (data_rows f)
          EventProcessor.__init__;
      results ← get_results processor;
      Return (with_chunk_id results chunk_id)
  end.

(** The accumulator [merged] of [merge_results] while the loop runs. *)
Record merged : Type := {
  m_total : Z;
  m_status_counts : list (pykey * Z);
  m_sensor_counts : list (pykey * Z);
  m_energy_sum : float;
  m_high_energy_events : Z;
  m_chunks_processed : Z
}.

(** [for key, count in counts.items(): acc[key] += count] *)
Definition add_counts (counts acc : list (pykey * Z)) : list (pykey * Z) :=
  foldl (fun acc kc => incr kc.1 kc.2 acc) acc counts.

(** One iteration of [for result in partial_results]. *)
Definition merge_step (acc : merged) (result : results) : merged :=
  {| m_total := m_total acc + total result;
     m_energy_sum := (m_energy_sum acc + energy_sum result)%float;
     m_high_energy_events :=
       m_high_energy_events acc + high_energy_events result;
     m_status_counts :=
       add_counts (status_counts result) (m_status_counts acc);
     m_sensor_counts :=
       add_counts (sensor_counts result) (m_sensor_counts acc);
     m_chunks_processed := m_chunks_processed acc |}.

Definition merge_loop (partial_results : list results) : merged :=
  foldl merge_step
    {| m_total := 0; m_status_counts := []; m_sensor_counts := [];
       m_energy_sum := 0; m_high_energy_events := 0;
       m_chunks_processed := Z.of_nat (length partial_results) |}
    partial_results.

Definition merge_results (partial_results : list results)
  : outcome results :=
  let acc := merge_loop partial_results in
  avg ← average (m_energy_sum acc) (m_total acc);
  Return {| total := m_total acc;
            status_counts := m_status_counts acc;
            sensor_counts := m_sensor_counts acc;
            energy_sum := m_energy_sum acc;
            high_energy_events := m_high_energy_events acc;
            avg_energy := avg;
            chunk_id := None; worker_id := None; processing_time := None;
            chunks_processed := Some (m_chunks_processed acc);
            total_processing_time := None;
            method := None; num_workers := None |}.

(** What [merge_results] returns for no partial result at all. *)
Definition empty_aggregate : results :=
  {| total := 0; status_counts := []; sensor_counts := [];
     energy_sum := 0; high_energy_events := 0; avg_energy := PyInt 0;
     chunk_id := None; worker_id := None; processing_time := None;
     chunks_processed := Some 0; total_processing_time := None;
     method := None; num_workers := None |}.

(** The empty aggregate as the stand-alone launcher returns it, with a
    total processing time of 0.0. *)
Definition with_zero_processing_time (r : results) : results :=
  {| total := total r; status_counts := status_counts r;
     sensor_counts := sensor_counts r; energy_sum := energy_sum r;
     high_energy_events := high_energy_events r;
     avg_energy := avg_energy r;
     chunk_id := chunk_id r; worker_id := worker_id r;
     processing_time := processing_time r;
     chunks_processed := chunks_processed r;
     total_processing_time := Some 0%float;
     method := method r; num_workers := num_workers r |}.

(** The sum of an integer field over a list. *)
Definition sumZ {A} (f : A -> Z) (l : list A) : Z :=
  foldr (fun a acc => f a + acc) 0 l.

(** The count stored under [key]: the sum of the values of the entries
    with that key (a dict has at most one, and the count is 0 when it
    has none). *)
Definition count_in (key : pykey) (counts : list (pykey * Z)) : Z :=
  sumZ (fun kc => if decide (kc.1 = key) then kc.2 else 0) counts.

(** The per-key sum of one mapping over the partial results: no entry
    when no partial result has the key. *)
Definition merged_count (field : results -> list (pykey * Z)) (key : pykey)
    (partial_results : list results) : option Z :=
  if decide (Exists (fun p => key ∈ (field p).*1) partial_results)
  then Some (sumZ (fun p => count_in key (field p)) partial_results)
  else None.

(** Two results with the same integer content: equal totals, equal
    counts at every key, equal numbers of high-energy events. *)
Definition same_counts (r1 r2 : results) : Prop :=
  total r1 = total r2
  /\ dict_eq (status_counts r1) (status_counts r2)
  /\ dict_eq (sensor_counts r1) (sensor_counts r2)
  /\ high_energy_events r1 = high_energy_events r2.

(** Two merges that fail alike or return the same integer content. *)
Definition agree (o1 o2 : outcome results) : Prop :=
  match o1, o2 with
  | Return r1, Return r2 => same_counts r1 r2
  | Raise e1, Raise e2 => e1 = e2
  | _, _ => False
  end.

(** [sum(1 for _ in f) - 1] *)
Definition count_data_rows (f : csv_file) : Z :=
  Z.of_nat (physical_lines f) - 1.

(** A chunk is the pair [(start_row, num_rows)] appended by the loop. *)
Definition chunk : Type := Z * Z.

(** One iteration of the [for i in range(num_workers)] loop. *)
Definition chunk_at (total_rows num_workers chunk_size i : Z) : chunk :=
  let start_row := i * chunk_size in
  let num_rows :=
    if decide (i = num_workers - 1) then total_rows - start_row
    else chunk_size in
  (start_row, num_rows).

(** [split_into_chunks]: [//] is floor division and raises on a zero
    divisor; [range(n)] is empty when [n <= 0]. *)
Definition split_into_chunks (total_rows num_workers : Z)
  : outcome (list chunk) :=
  if decide (num_workers = 0) then Raise ZeroDivisionError
  else
    let chunk_size := total_rows `div` num_workers in
    Return (foldl
              (fun chunks i =>
                 chunks ++ [chunk_at total_rows num_workers chunk_size i])
              [] (seqZ 0 num_workers)).

(** [covers from upto chunks]: the chunks tile [[from, upto)] from left
    to right, each starting where the previous one ended. *)
Fixpoint covers (from upto : Z) (chunks : list chunk) : Prop :=
  match chunks with
  | [] => from = upto
  | (start_row, num_rows) :: rest =>
      start_row = from /\ 0 <= num_rows /\ covers (from + num_rows) upto rest
  end.

Definition sum_rows (chunks : list chunk) : Z :=
  foldr (fun c acc => c.2 + acc) 0 chunks.

(** What a worker of either strategy computes for one chunk, before the
    result is labelled with the chunk or worker id. *)
Definition chunk_results (rows : list row) (c : chunk) : outcome results :=
  processor ← process_rows c.1 c.2 0 rows EventProcessor.__init__;
  get_results processor.

(** A row with its status and sensor cells present and a numeric
    energy. *)
Definition well_formed (r : row) : Prop :=
  is_Some (status r) /\ is_Some (sensor_id r)
  /\ exists x, energy r = EnergyText (Some x).

(** A mapping as a worker builds it from well-formed rows: one entry per
    key, every key a text. *)
Definition text_keyed (counts : list (pykey * Z)) : Prop :=
  NoDup counts.*1 /\ Forall is_Some counts.*1.

(** The keys of a partial result that [merge_results] reads. *)
Definition same_inputs (p q : results) : Prop :=
  total p = total q
  /\ status_counts p = status_counts q
  /\ sensor_counts p = sensor_counts q
  /\ energy_sum p = energy_sum q
  /\ high_energy_events p = high_energy_events q.

(** The values of an aggregate, without its [method] and [num_workers]
    labels. *)
Definition aggregate_values (r : results)
  : Z * list (pykey * Z) * list (pykey * Z) * float * Z * pynum * option Z :=
  (total r, status_counts r, sensor_counts r, energy_sum r,
   high_energy_events r, avg_energy r, chunks_processed r).

End Compute.

(** ** Worker artifacts: what [json.dump] writes and [json.load] reads *)

Module Json.
Import Compute.

(** The JSON object in [chunk_<i>.json].  Object members are kept in the
    order written; [json.dump] turns a [None] key into the text [null],
    so two members may carry the same name. *)
Record chunk_json : Type := {
  j_total : Z;
  j_status_counts : list (string * Z);
  j_sensor_counts : list (string * Z);
  j_energy_sum : float;
  j_high_energy_events : Z;
  j_avg_energy : pynum;
  j_worker_id : Z;
  j_processing_time : float
}.

Definition json_key (k : pykey) : string :=
  match k with
  | Some s => s
  | None => "null"
  end.

Definition dump_counts (counts : list (pykey * Z)) : list (string * Z) :=
  (fun kv => (json_key kv.1, kv.2)) <$> counts.

(** Reading an object: a repeated name keeps its last value. *)
Definition load_counts (members : list (string * Z)) : list (pykey * Z) :=
  foldl (fun d kv => dict_set (Some kv.1) kv.2 d) [] members.

(** [json.dump(results, f)] in [worker.py]; a double is written with
    [repr], which [json.load] reads back to the same double. *)
Definition dump (r : results) (worker_id : Z) (processing_time : float)
  : chunk_json :=
  {| j_total := total r;
     j_status_counts := dump_counts (status_counts r);
     j_sensor_counts := dump_counts (sensor_counts r);
     j_energy_sum := energy_sum r;
     j_high_energy_events := high_energy_events r;
     j_avg_energy := avg_energy r;
     j_worker_id := worker_id;
     j_processing_time := processing_time |}.

(** [json.load(f)] *)
Definition load (j : chunk_json) : results :=
  {| total := j_total j;
     status_counts := load_counts (j_status_counts j);
     sensor_counts := load_counts (j_sensor_counts j);
     energy_sum := j_energy_sum j;
     high_energy_events := j_high_energy_events j;
     avg_energy := j_avg_energy j;
     chunk_id := None;
     worker_id := Some (j_worker_id j);
     processing_time := Some (j_processing_time j);
     chunks_processed := None; total_processing_time := None;
     method := None; num_workers := None |}.

End Json.

(** The files the code touches: input files by path, and the artifacts
    [data/processed/chunks/chunk_<i>.json] by [i].  The two are kept
    apart: an input path that names one of the artifacts, and an
    artifact that [json.load] cannot parse, have no counterpart here. *)
Record world : Type := {
  files : gmap string Compute.csv_file;
  chunks_dir : gmap Z Json.chunk_json
}.

Definition write_chunk (w : world) (i : Z) (j : Json.chunk_json) : world :=
  {| files := files w; chunks_dir := <[i := j]> (chunks_dir w) |}.

(** ** worker.py *)

Module Worker.
Import Compute.

(** [worker.py] has its own copy of the [EventProcessor] class. *)
Definition process_event (self : EventProcessor.t) (r : row)
  : outcome EventProcessor.t :=
  let total := EventProcessor.total self + 1 in
  let status_counts := incr (status r) 1 (EventProcessor.status_counts self) in
  let sensor_counts :=
    incr (sensor_id r) 1 (EventProcessor.sensor_counts self) in
  energy ← float_of_cell (energy r);
  let energy_sum := (EventProcessor.energy_sum self + energy)%float in
  let high_energy_events :=
    if PrimFloat.ltb 100 energy
    then EventProcessor.high_energy_events self + 1
    else EventProcessor.high_energy_events self in
  Return {| EventProcessor.total := total;
            EventProcessor.status_counts := status_counts;
            EventProcessor.sensor_counts := sensor_counts;
            EventProcessor.energy_sum := energy_sum;
            EventProcessor.high_energy_events := high_energy_events |}.

Definition get_results (self : EventProcessor.t) : outcome results :=
  avg ← average (EventProcessor.energy_sum self) (EventProcessor.total self);
  Return {| total := EventProcessor.total self;
            status_counts := EventProcessor.status_counts self;
            sensor_counts := EventProcessor.sensor_counts self;
            energy_sum := EventProcessor.energy_sum self;
            high_energy_events := EventProcessor.high_energy_events self;
            avg_energy := avg;
            chunk_id := None; worker_id := None; processing_time := None;
            chunks_processed := None; total_processing_time := None;
            method := None; num_workers := None |}.

Fixpoint process_rows (start_row num_rows i : Z) (rows : list row)
    (processor : EventProcessor.t) : outcome EventProcessor.t :=
  match rows with
  | [] => Return processor
  | r :: rest =>
      if decide (i < start_row) then
        process_rows start_row num_rows (i + 1) rest processor
      else if decide (start_row + num_rows <= i) then Return processor
      else
        processor' ← process_event processor r;
        process_rows start_row num_rows (i + 1) rest processor'
  end.

(** What one run of [worker.py] computes before it writes: [Raise] is an
    uncaught exception, which ends the process with nothing written. *)
Definition run (w : world) (input_file : string)
    (start_row num_rows worker_id : Z) (elapsed : float)
  : outcome Json.chunk_json :=
  match files w !! input_file with
  | None => Raise (FileNotFoundError input_file)
  | Some f =>
      processor ←
        process_rows start_row num_rows 0 (data_rows f)
          EventProcessor.__init__;
      results ← get_results processor;
      Return (Json.dump results worker_id elapsed)
  end.

(** [main()], called with
    [argv = [input_file, start_row, num_rows, worker_id, output_file]];
    [output_file] is the index [i] of [chunk_<i>.json] and [elapsed] is
    the measured processing time. *)
Definition main (w : world) (input_file : string)
    (start_row num_rows worker_id output_file : Z) (elapsed : float)
  : world :=
  match run w input_file start_row num_rows worker_id elapsed with
  | Return j => write_chunk w output_file j
  | Raise _ => w
  end.

End Worker.

(** ** compute.py: class ComputeEngine *)

Module ComputeEngine.
Import Compute.

(** The engine runs against the file system and reports progress
    through [progress_callback]; [reported] lists the values passed to
    the callback, oldest first. *)
Record engine_state : Type := {
  fs : world;
  reported : list float
}.

Definition engine (A : Type) : Type :=
  engine_state -> outcome A * engine_state.

#[global] Instance engine_ret : MRet engine := fun A a st => (Return a, st).
#[global] Instance engine_bind : MBind engine := fun A B f m st =>
  match m st with
  | (Return a, st') => f a st'
  | (Raise e, st') => (Raise e, st')
  end.

Definition raise {A} (e : pyexc) : engine A := fun st => (Raise e, st).
Definition lift {A} (o : outcome A) : engine A := fun st => (o, st).
Definition get_fs : engine world := fun st => (Return (fs st), st).
Definition put_fs (w : world) : engine unit :=
  fun st => (Return tt, {| fs := w; reported := reported st |}).

(** [if progress_callback: progress_callback(p)] *)
Definition report (progress_callback : bool) (p : float) : engine unit :=
  fun st =>
    (Return tt,
     if progress_callback
     then {| fs := fs st; reported := reported st ++ [p] |}
     else st).

Definition with_method (r : results) (method : string) (num_workers : Z)
  : results :=
  {| total := total r; status_counts := status_counts r;
     sensor_counts := sensor_counts r; energy_sum := energy_sum r;
     high_energy_events := high_energy_events r;
     avg_energy := avg_energy r;
     chunk_id := chunk_id r; worker_id := worker_id r;
     processing_time := processing_time r;
     chunks_processed := chunks_processed r;
     total_processing_time := total_processing_time r;
     method := Some method; num_workers := Some num_workers |}.

(** [pool.map(f, args)]: the results in argument order when every call
    returns, and an exception when a call fails.  When one call alone
    fails, its exception is re-raised.  When several fail, the pool
    re-raises the failure that reaches the parent first, which depends
    on timing; this function then gives the one of the first failed
    call in argument order, which is one of those the pool can
    re-raise. *)
Fixpoint pool_map {A B} (f : A -> outcome B) (args : list A)
  : outcome (list B) :=
  match args with
  | [] => Return []
  | a :: rest =>
      b ← f a;
      bs ← pool_map f rest;
      Return (b :: bs)
  end.

(** [with Pool(processes=num_workers) as pool: return pool.map(...)] *)
Definition run_pool (files : gmap string csv_file) (num_workers : Z)
    (worker_args : list (string * Z * Z * Z)) : outcome (list results) :=
  if decide (num_workers < 1)
  then Raise (ValueError "Number of processes must be at least 1")
  else pool_map (process_chunk_worker files) worker_args.

Definition _process_multiprocessing (input_file : string)
    (chunks : list chunk) (num_workers : Z) (progress_callback : bool)
  : engine results :=
  let worker_args :=
    imap (fun i c => (input_file, c.1, c.2, Z.of_nat i)) chunks in
  _ ← report progress_callback dec_0_3;
  w ← get_fs;
  partial_results ← lift (run_pool (files w) num_workers worker_args);
  _ ← report progress_callback dec_0_8;
  final_results ← lift (merge_results partial_results);
  mret (with_method final_results "multiprocessing" num_workers).

(** Launching the workers and waiting for all of them: worker [i] writes
    only [chunk_<i>.json], so the files left behind are those of running
    the workers one after the other.  [elapsed i] is the time worker [i]
    measures. *)
Definition run_workers (elapsed : Z -> float) (input_file : string)
    (chunks : list chunk) (w : world) : world :=
  foldl
    (fun w ic =>
       let i := Z.of_nat ic.1 in
       Worker.main w input_file ic.2.1 ic.2.2 i i (elapsed i))
    w (imap (fun i c => (i, c)) chunks).

(** [for _, output_file in processes: if output_file.exists(): ...];
    every artifact of a [world] is one that [json.load] reads, so the
    loop has no failure here. *)
Definition collect (w : world) (processes : list Z) : list results :=
  foldl
    (fun partial_results output_file =>
       match chunks_dir w !! output_file with
       | Some j => partial_results ++ [Json.load j]
       | None => partial_results
       end)
    [] processes.

(** The artifacts among [chunk_0.json .. chunk_<n-1>.json] that exist,
    read back, in chunk order. *)
Definition found (w : world) (n : nat) : list results :=
  omap (fun i => Json.load <$> chunks_dir w !! Z.of_nat i) (seq 0 n).

Definition _process_subprocess (elapsed : Z -> float) (input_file : string)
    (chunks : list chunk) (num_workers : Z) (progress_callback : bool)
  : engine results :=
  let processes := imap (fun i (_ : chunk) => Z.of_nat i) chunks in
  _ ← report progress_callback dec_0_3;
  w ← get_fs;
  _ ← put_fs (run_workers elapsed input_file chunks w);
  _ ← report progress_callback dec_0_7;
  w' ← get_fs;
  let partial_results := collect w' processes in
  _ ← report progress_callback dec_0_9;
  final_results ← lift (merge_results partial_results);
  mret (with_method final_results "subprocess" num_workers).

Definition process_events (elapsed : Z -> float) (input_file : string)
    (num_workers : Z) (method : string) (progress_callback : bool)
  : engine results :=
  w ← get_fs;
  match files w !! input_file with
  | None =>
      raise (FileNotFoundError ("Input file not found: " +:+ input_file))
  | Some f =>
      let total_rows := count_data_rows f in
      chunks ← lift (split_into_chunks total_rows num_workers);
      _ ← report progress_callback dec_0_1;
      results ←
        (if decide (method = "multiprocessing") then
           _process_multiprocessing input_file chunks num_workers
             progress_callback
         else if decide (method = "subprocess") then
           _process_subprocess elapsed input_file chunks num_workers
             progress_callback
         else raise (ValueError ("Unknown method: " +:+ method)));
      _ ← report progress_callback 1;
      mret results
  end.

End ComputeEngine.

(** ** subprocess_parallel.py *)

Module SubprocessParallel.
Import Compute.

Record merged : Type := {
  m_total : Z;
  m_status_counts : list (pykey * Z);
  m_sensor_counts : list (pykey * Z);
  m_energy_sum : float;
  m_high_energy_events : Z;
  m_chunks_processed : Z;
  m_total_processing_time : float;
  printed : list string
}.

(** [output_dir / f'chunk_{i}.json'], for the [output_dir] that [main]
    passes. *)
Definition result_file (i : Z) : string :=
  "data/processed/chunks/chunk_" +:+ pretty i +:+ ".json".

(** One iteration of [for i in range(num_workers)]. *)
Definition merge_step (output_dir : gmap Z Json.chunk_json) (acc : merged)
    (i : Z) : merged :=
  match output_dir !! i with
  | None =>
      {| m_total := m_total acc; m_status_counts := m_status_counts acc;
         m_sensor_counts := m_sensor_counts acc;
         m_energy_sum := m_energy_sum acc;
         m_high_energy_events := m_high_energy_events acc;
         m_chunks_processed := m_chunks_processed acc;
         m_total_processing_time := m_total_processing_time acc;
         printed :=
           printed acc ++ ["Warning: " +:+ result_file i +:+ " not found"] |}
  | Some j =>
      let result := Json.load j in
      {| m_total := m_total acc + total result;
         m_energy_sum := (m_energy_sum acc + energy_sum result)%float;
         m_high_energy_events :=
           m_high_energy_events acc + high_energy_events result;
         m_total_processing_time :=
           (m_total_processing_time acc + Json.j_processing_time j)%float;
         m_chunks_processed := m_chunks_processed acc + 1;
         m_status_counts :=
           add_counts (status_counts result) (m_status_counts acc);
         m_sensor_counts :=
           add_counts (sensor_counts result) (m_sensor_counts acc);
         printed := printed acc |}
  end.

(** [merge_results(output_dir, num_workers)], with the lines it prints. *)
Definition merge_results (output_dir : gmap Z Json.chunk_json)
    (num_workers : Z) : outcome results * list string :=
  let acc :=
    foldl (merge_step output_dir)
      {| m_total := 0; m_status_counts := []; m_sensor_counts := [];
         m_energy_sum := 0; m_high_energy_events := 0;
         m_chunks_processed := 0; m_total_processing_time := 0;
         printed := [] |}
      (seqZ 0 num_workers) in
  (avg ← average (m_energy_sum acc) (m_total acc);
   Return {| total := m_total acc;
             status_counts := m_status_counts acc;
             sensor_counts := m_sensor_counts acc;
             energy_sum := m_energy_sum acc;
             high_energy_events := m_high_energy_events acc;
             avg_energy := avg;
             chunk_id := None; worker_id := None; processing_time := None;
             chunks_processed := Some (m_chunks_processed acc);
             total_processing_time := Some (m_total_processing_time acc);
             method := None; num_workers := None |},
   printed acc).

End SubprocessParallel.

(** ** job_manager.py *)

Module JobManager.

(** [class JobStatus(str, Enum)]: each member equals its text. *)
Module JobStatus.
Definition PENDING : string := "pending".
Definition RUNNING : string := "running".
Definition COMPLETED : string := "completed".
Definition FAILED : string := "failed".
Definition CANCELLED : string := "cancelled".
End JobStatus.
Import JobStatus.

Record job : Type := {
  id : string;
  input_file : string;
  num_workers : Z;
  method : string;
  status : string;
  progress : float;
  created_at : Z;
  started_at : option Z;
  completed_at : option Z;
  results : option Compute.results;
  error : option string
}.

(** [self.jobs]: job id to job record, in insertion order. *)
Definition registry : Type := list (string * job).

Definition set_status (j : job) (status : string) : job :=
  {| id := id j; input_file := input_file j; num_workers := num_workers j;
     method := method j; status := status; progress := progress j;
     created_at := created_at j; started_at := started_at j;
     completed_at := completed_at j; results := results j;
     error := error j |}.

Definition set_progress (j : job) (progress : float) : job :=
  {| id := id j; input_file := input_file j; num_workers := num_workers j;
     method := method j; status := status j; progress := progress;
     created_at := created_at j; started_at := started_at j;
     completed_at := completed_at j; results := results j;
     error := error j |}.

Definition set_started_at (j : job) (t : Z) : job :=
  {| id := id j; input_file := input_file j; num_workers := num_workers j;
     method := method j; status := status j; progress := progress j;
     created_at := created_at j; started_at := Some t;
     completed_at := completed_at j; results := results j;
     error := error j |}.

Definition set_completed_at (j : job) (t : Z) : job :=
  {| id := id j; input_file := input_file j; num_workers := num_workers j;
     method := method j; status := status j; progress := progress j;
     created_at := created_at j; started_at := started_at j;
     completed_at := Some t; results := results j;
     error := error j |}.

Definition set_results (j : job) (r : Compute.results) : job :=
  {| id := id j; input_file := input_file j; num_workers := num_workers j;
     method := method j; status := status j; progress := progress j;
     created_at := created_at j; started_at := started_at j;
     completed_at := completed_at j; results := Some r;
     error := error j |}.

Definition set_error (j : job) (e : string) : job :=
  {| id := id j; input_file := input_file j; num_workers := num_workers j;
     method := method j; status := status j; progress := progress j;
     created_at := created_at j; started_at := started_at j;
     completed_at := completed_at j; results := results j;
     error := Some e |}.

(** [create_job]; [job_id] is the fresh [uuid4()]. *)
Definition create_job (jobs : registry) (job_id : string) (now : Z)
    (input_file : string) (num_workers : Z) (method : string)
  : registry * string :=
  (dict_set job_id
     {| id := job_id; input_file := input_file; num_workers := num_workers;
        method := method; status := PENDING; progress := 0;
        created_at := now; started_at := None; completed_at := None;
        results := None; error := None |}
     jobs,
   job_id).

Definition get_job (jobs : registry) (job_id : string) : option job :=
  dict_get job_id jobs.

Definition update_job_status (jobs : registry) (job_id : string)
    (status : string) (now : Z) : registry :=
  match dict_get job_id jobs with
  | Some j =>
      let j := set_status j status in
      let j :=
        if decide (status = RUNNING /\ started_at j = None)
        then set_started_at j now
        else if decide (status ∈ [COMPLETED; FAILED; CANCELLED])
        then set_completed_at j now
        else j in
      dict_set job_id j jobs
  | None => jobs
  end.

Definition update_progress (jobs : registry) (job_id : string)
    (progress : float) : registry :=
  match dict_get job_id jobs with
  | Some j => dict_set job_id (set_progress j (py_min (py_max progress 0) 1)) jobs
  | None => jobs
  end.

Definition complete_job (jobs : registry) (job_id : string)
    (results : Compute.results) (now : Z) : registry :=
  match dict_get job_id jobs with
  | Some j =>
      let j := set_status j COMPLETED in
      let j := set_results j results in
      let j := set_progress j 1 in
      let j := set_completed_at j now in
      dict_set job_id j jobs
  | None => jobs
  end.

Definition fail_job (jobs : registry) (job_id : string) (error : string)
    (now : Z) : registry :=
  match dict_get job_id jobs with
  | Some j =>
      let j := set_status j FAILED in
      let j := set_error j error in
      let j := set_completed_at j now in
      dict_set job_id j jobs
  | None => jobs
  end.

(** [jobs.sort(key=lambda x: x['created_at'], reverse=True)]: the sort
    is stable, so jobs created at the same instant keep their order. *)
Fixpoint insert_newest_first (j : job) (sorted : list job) : list job :=
  match sorted with
  | [] => [j]
  | j' :: rest =>
      if decide (created_at j < created_at j')
      then j' :: insert_newest_first j rest
      else j :: j' :: rest
  end.

Definition sort_newest_first (jobs : list job) : list job :=
  foldr insert_newest_first [] jobs.

(** [list_jobs(status, limit)]; a [None], empty or zero argument is
    falsy. *)
Definition list_jobs (jobs : registry) (status_filter : option string)
    (limit : option Z) : list job :=
  let jobs := dict_values jobs in
  let jobs :=
    match status_filter with
    | Some s =>
        if decide (s = "") then jobs
        else filter (fun j => status j = s) jobs
    | None => jobs
    end in
  let jobs := sort_newest_first jobs in
  match limit with
  | Some n => if decide (n = 0) then jobs else slice_to jobs n
  | None => jobs
  end.

(** The jobs [list_jobs] selects, in registry order. *)
Definition matching (jobs : registry) (status_filter : option string)
  : list job :=
  match status_filter with
  | Some s =>
      if decide (s = "") then dict_values jobs
      else filter (fun j => status j = s) (dict_values jobs)
  | None => dict_values jobs
  end.

(** [newest_first a b]: [a] may come before [b] in a listing. *)
Definition newest_first (a b : job) : Prop := created_at b <= created_at a.

Definition get_active_jobs (jobs : registry) : list job :=
  list_jobs jobs (Some RUNNING) None ++ list_jobs jobs (Some PENDING) None.

(** The test of the retention sweep on one job.  Times are compared as
    the doubles that [timestamp()] returns: [timestamp] stands for
    [datetime.fromisoformat(s).timestamp()], a function of the stored
    time that depends on the local time zone of the process. *)
Definition removable (timestamp : Z -> float) (cutoff_time : float)
    (j : job) : Prop :=
  status j ∈ [COMPLETED; FAILED]
  /\ exists completed_time,
       completed_at j = Some completed_time
       /\ PrimFloat.ltb (timestamp completed_time) cutoff_time = true.

#[global] Instance removable_dec timestamp cutoff_time j :
  Decision (removable timestamp cutoff_time j).
Proof.
  unfold removable. destruct (completed_at j) as [t|].
  - destruct (decide (status j ∈ [COMPLETED; FAILED]
                      /\ PrimFloat.ltb (timestamp t) cutoff_time = true))
      as [[]|Hn].
    + left. eauto.
    + right. intros (? & t' & [= <-] & ?). tauto.
  - right. intros (_ & t' & [=] & _).
Defined.

(** The first loop of [clear_completed_jobs];
    [datetime.fromisoformat(None)] raises [TypeError]. *)
Fixpoint jobs_to_remove (timestamp : Z -> float) (cutoff_time : float)
    (items : list (string * job)) (acc : list string)
  : outcome (list string) :=
  match items with
  | [] => Return acc
  | (job_id, j) :: rest =>
      if decide (status j ∈ [COMPLETED; FAILED]) then
        match completed_at j with
        | None => Raise TypeError
        | Some completed_at =>
            let completed_time := timestamp completed_at in
            if PrimFloat.ltb completed_time cutoff_time
            then jobs_to_remove timestamp cutoff_time rest (acc ++ [job_id])
            else jobs_to_remove timestamp cutoff_time rest acc
        end
      else jobs_to_remove timestamp cutoff_time rest acc
  end.

(** [clear_completed_jobs(older_than_hours)]: the registry left behind
    and the number returned.  [now] is the double that
    [datetime.now().timestamp()] returns; subtracting the integer
    [older_than_hours * 3600] from it converts the integer to a double,
    which raises [OverflowError] when it is too large, and the
    difference is rounded like any double. *)
Definition clear_completed_jobs (timestamp : Z -> float) (jobs : registry)
    (now : float) (older_than_hours : Z) : outcome (registry * Z) :=
  seconds ← float_of_int (older_than_hours * 3600);
  let cutoff_time := (now - seconds)%float in
  to_remove ← jobs_to_remove timestamp cutoff_time jobs [];
  Return (foldl (fun jobs job_id => dict_del job_id jobs) jobs to_remove,
          Z.of_nat (length to_remove)).

End JobManager.

(** ** main.py: the cancel endpoint *)

Module Main.
Import JobManager.

Record cancel_response : Type := {
  r_job_id : string;
  r_status : string;
  r_message : string
}.

(** [DELETE /jobs/{job_id}] *)
Definition cancel_job (jobs : registry) (job_id : string) (now : Z)
  : outcome cancel_response * registry :=
  match get_job jobs job_id with
  | None =>
      (Raise (HTTPException 404 ("Job " +:+ job_id +:+ " not found")), jobs)
  | Some j =>
      if decide (status j ∉ ["pending"; "running"]) then
        (Raise (HTTPException 400
                  ("Cannot cancel job with status " +:+ status j)),
         jobs)
      else
        (Return {| r_job_id := job_id; r_status := "cancelled";
                   r_message :=
                     "Job " +:+ job_id +:+ " cancelled successfully" |},
         update_job_status jobs job_id "cancelled" now)
  end.

End Main.

(** ** Sample inputs *)

Module Samples.
Import JobManager.

(** A job record as [create_job] builds it, then moved to [status]. *)
Definition sample_job (job_id status : string) (created_at : Z)
    (completed_at : option Z) : job :=
  {| id := job_id; input_file := "data/raw/events.csv"; num_workers := 4;
     method := "multiprocessing"; status := status; progress := 0;
     created_at := created_at; started_at := None;
     completed_at := completed_at; results := None; error := None |}.

(** A row with every cell present and a numeric energy, and a row whose
    energy cell is not a number. *)
Definition good_row (status sensor_id : string) (energy : float)
  : Compute.row :=
  {| Compute.status := Some status; Compute.sensor_id := Some sensor_id;
     Compute.energy := Compute.EnergyText (Some energy) |}.

Definition bad_row (status sensor_id : string) : Compute.row :=
  {| Compute.status := Some status; Compute.sensor_id := Some sensor_id;
     Compute.energy := Compute.EnergyText None |}.

(** A file of a header line and the given rows, one per line. *)
Definition csv_of (rows : list Compute.row) : Compute.csv_file :=
  {| Compute.physical_lines := S (length rows); Compute.data_rows := rows |}.

(** A file system holding one input file and no artifact. *)
Definition world_of (path : string) (rows : list Compute.row) : world :=
  {| files := {[ path := csv_of rows ]}; chunks_dir := ∅ |}.

Definition start_state (w : world) : ComputeEngine.engine_state :=
  {| ComputeEngine.fs := w; ComputeEngine.reported := [] |}.

Definition no_time : Z -> float := fun _ => 0%float.

(** What [get_results] returns for a chunk of one row of the given
    energy. *)
Definition one_row_result (energy : float) : Compute.results :=
  {| Compute.total := 1;
     Compute.status_counts := [(Some "ok", 1)];
     Compute.sensor_counts := [(Some "s1", 1)];
     Compute.energy_sum := energy;
     Compute.high_energy_events := 0;
     Compute.avg_energy := PyFloat energy;
     Compute.chunk_id := None; Compute.worker_id := None;
     Compute.processing_time := None; Compute.chunks_processed := None;
     Compute.total_processing_time := None;
     Compute.method := None; Compute.num_workers := None |}.

(** One hour and one day, in microseconds. *)
Definition hour : Z := 3600 * 1000000.
Definition day : Z := 24 * hour.

(** [timestamp()] of the naive time that lies [t] microseconds after
    1970-01-01T00:00:00, in a process whose local zone is UTC: the
    seconds as a double plus [microsecond / 1e6]. *)
Definition utc_timestamp (t : Z) : float :=
  (SF2Prim (binary_normalize prec emax (t `div` 1000000) 0 false)
   + SF2Prim (binary_normalize prec emax (t `mod` 1000000) 0 false)
     / 1000000)%float.

End Samples.

(** ** Rows, ranges and counts *)

Module Rows.
Import Compute.

(** Feeding rows to a processor one after the other; the first row that
    fails ends the run. *)
Fixpoint consume (rows : list row) (processor : EventProcessor.t)
  : outcome EventProcessor.t :=
  match rows with
  | [] => Return processor
  | r :: rest =>
      processor' ← process_event processor r;
      consume rest processor'
  end.

(** The rows whose index [i] satisfies
    [start_row <= i < start_row + num_rows]. *)
Definition rows_of_chunk (rows : list row) (c : chunk) : list row :=
  take (Z.to_nat (c.1 + c.2 - Z.max 0 c.1)) (drop (Z.to_nat c.1) rows).

(** A row whose energy cell [float()] accepts, and the double it gives. *)
Definition numeric (r : row) : Prop :=
  exists x, energy r = EnergyText (Some x).

#[global] Instance numeric_dec r : Decision (numeric r).
Proof.
  unfold numeric. destruct (energy r) as [[x|]|].
  - left. eauto.
  - right. intros [x [=]].
  - right. intros [x [=]].
Defined.

Definition energy_value (r : row) : float :=
  match energy r with
  | EnergyText (Some x) => x
  | _ => 0%float
  end.

(** [energy > 100] *)
Definition high_energy (r : row) : Prop :=
  PrimFloat.ltb 100 (energy_value r) = true.

(** The number of rows that satisfy [P]. *)
Definition count_where (P : row -> Prop) `{!forall r, Decision (P r)}
    (rows : list row) : Z :=
  Z.of_nat (length (filter P rows)).

(** What a [defaultdict(int)] holds for a key counted [n] times: no
    entry when [n] is 0. *)
Definition count_entry (n : Z) : option Z :=
  if decide (n = 0) then None else Some n.

(** [energy_sum] after the rows: the energies added one by one. *)
Definition sum_energy (start : float) (rows : list row) : float :=
  foldl (fun acc r => (acc + energy_value r)%float) start rows.

(** The counts of a chunk whose rows are all numeric: [tallied] is what
    [get_results] returns for them when the average is [avg]. *)
Definition tallied (slice : list row) (avg : pynum) : results :=
  {| total := Z.of_nat (length slice);
     status_counts := foldl (fun d r => incr (status r) 1 d) [] slice;
     sensor_counts := foldl (fun d r => incr (sensor_id r) 1 d) [] slice;
     energy_sum := sum_energy 0 slice;
     high_energy_events := count_where high_energy slice;
     avg_energy := avg;
     chunk_id := None; worker_id := None; processing_time := None;
     chunks_processed := None; total_processing_time := None;
     method := None; num_workers := None |}.

(** What a worker returns for a chunk of numeric rows; the average is
    the one [get_results] computes. *)
Definition chunk_tally (rows : list row) (c : chunk) : results :=
  let slice := rows_of_chunk rows c in
  tallied slice
    match average (sum_energy 0 slice) (Z.of_nat (length slice)) with
    | Return avg => avg
    | Raise _ => PyInt 0
    end.

(** [counts_of p slice]: the partial result [p] holds the counts of the
    rows [slice], in the keys that [merge_results] reads. *)
Definition counts_of (p : results) (slice : list row) : Prop :=
  total p = Z.of_nat (length slice)
  /\ high_energy_events p = count_where high_energy slice
  /\ energy_sum p = sum_energy 0 slice
  /\ NoDup (status_counts p).*1
  /\ (forall k, dict_get k (status_counts p)
                = count_entry (count_where (fun r => status r = k) slice))
  /\ NoDup (sensor_counts p).*1
  /\ (forall k, dict_get k (sensor_counts p)
                = count_entry
                    (count_where (fun r => sensor_id r = k) slice)).


End Rows.

(** ** old/process_chunk.py *)

Module OldProcessChunk.
Import Compute.

(** This [EventProcessor] only counts: [self.total += 1]. *)
Definition process_event (total : Z) (r : row) : Z := total + 1.

(** The loop of [main()] over the rows that the reader yields, with the
    same skipping and stopping tests as the workers; [total] is the
    number printed in [Processed <n> events]. *)
Fixpoint process_rows (start count i : Z) (rows : list row) (total : Z) : Z :=
  match rows with
  | [] => total
  | r :: rest =>
      if decide (i < start) then process_rows start count (i + 1) rest total
      else if decide (start + count <= i) then total
      else process_rows start count (i + 1) rest (process_event total r)
  end.

End OldProcessChunk.

(** ** main.py: the other endpoints and the background task *)

Module Endpoints.
Import JobManager.

Record JobResponse : Type := {
  jr_job_id : string;
  jr_status : string;
  jr_message : string
}.

Record JobStatusResponse : Type := {
  js_job_id : string;
  js_status : string;
  js_progress : option float;
  js_created_at : Z;
  js_started_at : option Z;
  js_completed_at : option Z;
  js_error : option string
}.

Record JobResultResponse : Type := {
  res_job_id : string;
  res_status : string;
  res_results : option Compute.results;
  res_error : option string
}.

Definition status_response (j : job) : JobStatusResponse :=
  {| js_job_id := id j; js_status := status j;
     js_progress := Some (progress j); js_created_at := created_at j;
     js_started_at := started_at j; js_completed_at := completed_at j;
     js_error := error j |}.

(** [POST /jobs/submit]: the job is created and [execute_job] is
    scheduled with the same arguments; [job_id] is the fresh [uuid4()]. *)
Definition submit_job (jobs : registry) (job_id : string) (now : Z)
    (input_file : string) (num_workers : Z) (method : string)
  : outcome JobResponse * registry :=
  let '(jobs, job_id) :=
    create_job jobs job_id now input_file num_workers method in
  (Return {| jr_job_id := job_id; jr_status := "submitted";
             jr_message := "Job " +:+ job_id +:+ " submitted successfully" |},
   jobs).

(** [GET /jobs/{job_id}/status] *)
Definition get_job_status (jobs : registry) (job_id : string)
  : outcome JobStatusResponse :=
  match get_job jobs job_id with
  | None => Raise (HTTPException 404 ("Job " +:+ job_id +:+ " not found"))
  | Some j => Return (status_response j)
  end.

(** [GET /jobs/{job_id}/result] *)
Definition get_job_result (jobs : registry) (job_id : string)
  : outcome JobResultResponse :=
  match get_job jobs job_id with
  | None => Raise (HTTPException 404 ("Job " +:+ job_id +:+ " not found"))
  | Some j =>
      if decide (status j ∉ ["completed"; "failed"]) then
        Raise (HTTPException 400
                 ("Job " +:+ job_id +:+ " is still " +:+ status j))
      else
        Return {| res_job_id := id j; res_status := status j;
                  res_results := results j; res_error := error j |}
  end.

(** [GET /jobs]; the caller that gives no limit gets the default 100. *)
Definition list_jobs (jobs : registry) (status_filter : option string)
    (limit : option Z) : list JobStatusResponse :=
  status_response <$> JobManager.list_jobs jobs status_filter limit.

Record stats : Type := {
  total_jobs : Z;
  by_status : list (string * Z);
  active_jobs : Z
}.

(** [stats['by_status'][status] = stats['by_status'].get(status, 0) + 1] *)
Definition count_status (by_status : list (string * Z)) (j : job)
  : list (string * Z) :=
  dict_set (status j) (default 0 (dict_get (status j) by_status) + 1)
    by_status.

(** [GET /stats] *)
Definition get_stats (jobs : registry) : stats :=
  let all_jobs := JobManager.list_jobs jobs None None in
  {| total_jobs := Z.of_nat (length all_jobs);
     by_status := foldl count_status [] all_jobs;
     active_jobs := Z.of_nat (length (get_active_jobs jobs)) |}.

(** [execute_job], the background task.  [str] is Python's [str] on the
    exception caught, [now_start] and [now_end] are the clock readings
    of the first and of the last update.  The callback handed to the
    engine is [update_progress] on this job, so the registry sees each
    reported value in turn. *)
Definition execute_job (str : pyexc -> string) (elapsed : Z -> float)
    (w : world) (jobs : registry) (job_id input_file : string)
    (num_workers : Z) (method : string) (now_start now_end : Z)
  : world * registry :=
  let jobs := update_job_status jobs job_id "running" now_start in
  let run :=
    ComputeEngine.process_events elapsed input_file num_workers method true
      {| ComputeEngine.fs := w; ComputeEngine.reported := [] |} in
  let jobs :=
    foldl (fun jobs p => update_progress jobs job_id p) jobs
      (ComputeEngine.reported run.2) in
  (ComputeEngine.fs run.2,
   match run.1 with
   | Return results => complete_job jobs job_id results now_end
   | Raise e => fail_job jobs job_id (str e) now_end
   end).

End Endpoints.

(** ** Sequences of calls on the job manager *)

Module Requests.
Import JobManager.

(** One call on a [JobManager], with the clock reading it sees; a
    sweep also sees the conversion of stored times to timestamps that
    the time zone of the process gives. *)
Inductive request : Type :=
  | CreateJob (job_id : string) (now : Z) (input_file : string)
      (num_workers : Z) (method : string)
  | UpdateJobStatus (job_id status : string) (now : Z)
  | UpdateProgress (job_id : string) (progress : float)
  | CompleteJob (job_id : string) (results : Compute.results) (now : Z)
  | FailJob (job_id error : string) (now : Z)
  | ClearCompletedJobs (timestamp : Z -> float) (now : float)
      (older_than_hours : Z).

(** The registry after the call; a sweep that raises has deleted
    nothing. *)
Definition apply_request (jobs : registry) (r : request) : registry :=
  match r with
  | CreateJob job_id now input_file num_workers method =>
      (create_job jobs job_id now input_file num_workers method).1
  | UpdateJobStatus job_id status now =>
      update_job_status jobs job_id status now
  | UpdateProgress job_id progress => update_progress jobs job_id progress
  | CompleteJob job_id results now => complete_job jobs job_id results now
  | FailJob job_id error now => fail_job jobs job_id error now
  | ClearCompletedJobs timestamp now older_than_hours =>
      match clear_completed_jobs timestamp jobs now older_than_hours with
      | Return (jobs', _) => jobs'
      | Raise _ => jobs
      end
  end.

(** A registry that a fresh [JobManager] can get to. *)
Definition reachable (jobs : registry) : Prop :=
  exists requests, jobs = foldl apply_request [] requests.

(** What every job record of such a registry satisfies. *)
Definition job_ok (job_id : string) (j : job) : Prop :=
  id j = job_id
  /\ (status j ∈ [JobStatus.COMPLETED; JobStatus.FAILED; JobStatus.CANCELLED]
      -> is_Some (completed_at j))
  /\ PrimFloat.ltb (progress j) 0 = false
  /\ PrimFloat.ltb 1 (progress j) = false.

Definition registry_ok (jobs : registry) : Prop :=
  NoDup jobs.*1 /\ Forall (fun kj => job_ok kj.1 kj.2) jobs.

(** The job a request writes to, for the four calls that update one
    job. *)
Definition target (r : request) : option string :=
  match r with
  | UpdateJobStatus job_id _ _ | UpdateProgress job_id _
  | CompleteJob job_id _ _ | FailJob job_id _ _ => Some job_id
  | CreateJob _ _ _ _ _ | ClearCompletedJobs _ _ _ => None
  end.


End Requests.

(** ** Chunk planner *)

Module ComputeFacts.
Import Compute.

Lemma foldl_snoc_fmap {A B} (f : A -> B) (l : list A) (acc : list B) :
  foldl (fun bs a => bs ++ [f a]) acc l = acc ++ (f <$> l).
Proof.
  revert acc. induction l as [|a l IH]; intros acc; simpl.
  - by rewrite app_nil_r.
  - rewrite IH. by rewrite <- app_assoc.
Qed.

Lemma split_into_chunks_fmap total_rows num_workers :
  num_workers <> 0 ->
  split_into_chunks total_rows num_workers =
    Return (chunk_at total_rows num_workers (total_rows `div` num_workers)
              <$> seqZ 0 num_workers).
Proof.
  intros Hn. unfold split_into_chunks.
  destruct (decide (num_workers = 0)) as [|_]; [done|].
  by rewrite foldl_snoc_fmap.
Qed.

Lemma sum_rows_covers (from upto : Z) (chunks : list chunk) :
  covers from upto chunks -> from + sum_rows chunks = upto.
Proof.
  revert from. induction chunks as [|[s n] chunks IH]; intros from; simpl.
  - lia.
  - intros (_ & _ & Hrest). apply IH in Hrest. lia.
Qed.

Section tiling.
Variables total_rows num_workers : Z.
Hypothesis rows_nonneg : 0 <= total_rows.
Hypothesis workers_pos : 1 <= num_workers.

Let chunk_size := total_rows `div` num_workers.

Lemma chunk_size_nonneg : 0 <= chunk_size.
Proof. apply Z.div_pos; lia. Qed.

Lemma chunk_size_bound : (num_workers - 1) * chunk_size <= total_rows.
Proof.
  pose proof (Z.mul_div_le total_rows num_workers ltac:(lia)) as Hle.
  pose proof chunk_size_nonneg. fold chunk_size in Hle. nia.
Qed.

Lemma covers_tail (m : nat) (k : Z) :
  0 <= k -> k + Z.of_nat (S m) = num_workers ->
  covers (k * chunk_size) total_rows
    (chunk_at total_rows num_workers chunk_size <$> seqZ k (Z.of_nat (S m))).
Proof.
  revert k. induction m as [|m IH]; intros k Hk Hkm;
    rewrite seqZ_cons by lia; rewrite fmap_cons;
    cbn [covers chunk_at]; (split; [done|]).
  - rewrite seqZ_nil by lia.
    destruct (decide (k = num_workers - 1)) as [->|]; [|lia].
    pose proof chunk_size_bound. simpl. lia.
  - destruct (decide (k = num_workers - 1)) as [|_]; [lia|].
    split; [apply chunk_size_nonneg|].
    replace (k * chunk_size + chunk_size) with (Z.succ k * chunk_size)
      by lia.
    replace (Z.pred (Z.of_nat (S (S m)))) with (Z.of_nat (S m)) by lia.
    apply IH; lia.
Qed.
End tiling.

(** C1. For [total_rows >= 0] and [num_workers >= 1] the planner returns
    exactly [num_workers] chunks; they tile [[0, total_rows)] left to
    right with no gap and no overlap (the first starts at 0 and each one
    starts where the previous one ends), the row counts add up to
    [total_rows], every chunk but the last holds
    [total_rows // num_workers] rows and the last one holds the rest. *)
Theorem split_into_chunks_partition (total_rows num_workers : Z) :
  0 <= total_rows -> 1 <= num_workers ->
  exists chunks,
    split_into_chunks total_rows num_workers = Return chunks
    /\ Z.of_nat (length chunks) = num_workers
    /\ (exists n rest, chunks = (0, n) :: rest)
    /\ covers 0 total_rows chunks
    /\ sum_rows chunks = total_rows
    /\ (forall (i : nat) c, chunks !! i = Some c ->
          c.1 = Z.of_nat i * (total_rows `div` num_workers))
    /\ (forall (i : nat) c, chunks !! i = Some c ->
          Z.of_nat i < num_workers - 1 ->
          c.2 = total_rows `div` num_workers)
    /\ (forall c, chunks !! Z.to_nat (num_workers - 1) = Some c ->
          c.2 = total_rows
                - (num_workers - 1) * (total_rows `div` num_workers))
    /\ is_Some (chunks !! Z.to_nat (num_workers - 1)).
Proof.
  intros Hrows Hworkers.
  eexists. split; [apply split_into_chunks_fmap; lia|].
  set (cs := total_rows `div` num_workers).
  set (chunks := chunk_at total_rows num_workers cs <$> seqZ 0 num_workers).
  assert (covers 0 total_rows chunks) as Hcov.
  { pose proof (covers_tail total_rows num_workers Hrows Hworkers
                  (Z.to_nat (num_workers - 1)) 0) as H.
    replace (Z.of_nat (S (Z.to_nat (num_workers - 1)))) with num_workers
      in H by lia.
    apply H; lia. }
  assert (forall (i : nat) c, chunks !! i = Some c ->
            Z.of_nat i < num_workers
            /\ c = chunk_at total_rows num_workers cs (Z.of_nat i)) as Hlk.
  { intros i c. unfold chunks. rewrite list_lookup_fmap.
    destruct (seqZ 0 num_workers !! i) as [j|] eqn:Hj; [|done].
    apply lookup_seqZ in Hj as [-> ?]. simpl. intros [= <-].
    split; [lia|]. f_equal. }
  split_and!.
  - unfold chunks. rewrite length_fmap, length_seqZ. lia.
  - unfold chunks. rewrite seqZ_cons by lia. rewrite fmap_cons.
    do 2 eexists. reflexivity.
  - done.
  - apply sum_rows_covers in Hcov. lia.
  - intros i c Hc. apply Hlk in Hc as [_ ->]. done.
  - intros i c Hc Hi. apply Hlk in Hc as [_ ->]. unfold chunk_at; cbn zeta.
    destruct (decide _); [lia|done].
  - intros c Hc. apply Hlk in Hc as [_ ->]. unfold chunk_at; cbn zeta.
    rewrite Z2Nat.id by lia. destruct (decide _); [simpl; lia|done].
  - unfold chunks. rewrite list_lookup_fmap, lookup_seqZ_lt by lia. simpl. eauto.
Qed.

Lemma split_into_chunks_partition_witness :
  exists chunks,
    split_into_chunks 10 4 = Return chunks
    /\ Z.of_nat (length chunks) = 4
    /\ (exists n rest, chunks = (0, n) :: rest)
    /\ covers 0 10 chunks
    /\ sum_rows chunks = 10
    /\ (forall (i : nat) c, chunks !! i = Some c ->
          c.1 = Z.of_nat i * (10 `div` 4))
    /\ (forall (i : nat) c, chunks !! i = Some c ->
          Z.of_nat i < 4 - 1 -> c.2 = 10 `div` 4)
    /\ (forall c, chunks !! Z.to_nat (4 - 1) = Some c ->
          c.2 = 10 - (4 - 1) * (10 `div` 4))
    /\ is_Some (chunks !! Z.to_nat (4 - 1)).
Proof. apply (split_into_chunks_partition 10 4); lia. Defined.

Example split_into_chunks_10_4 :
  split_into_chunks 10 4 = Return [(0, 2); (2, 2); (4, 2); (6, 4)].
Proof. reflexivity. Qed.

End ComputeFacts.

(** ** Dictionaries *)

Module DictFacts.
Section dict.
Context {K V : Type} `{EqDecision K}.
Implicit Types (k : K) (v : V) (d : list (K * V)).

Lemma dict_get_set_eq k v d : dict_get k (dict_set k v d) = Some v.
Proof.
  induction d as [|[k' v'] d IH]; simpl.
  - by destruct (decide (k = k)).
  - destruct (decide (k' = k)) as [->|Hne]; simpl.
    + by destruct (decide (k = k)).
    + by destruct (decide (k' = k)).
Qed.

Lemma dict_get_set_ne k k' v d :
  k <> k' -> dict_get k' (dict_set k v d) = dict_get k' d.
Proof.
  intros Hne. induction d as [|[k0 v0] d IH]; simpl.
  - by destruct (decide (k = k')).
  - destruct (decide (k0 = k)) as [->|]; simpl.
    + by destruct (decide (k = k')).
    + by rewrite IH.
Qed.

Lemma dict_get_None k d : dict_get k d = None <-> k ∉ d.*1.
Proof.
  induction d as [|[k' v'] d IH]; simpl.
  - split; [intros _; apply not_elem_of_nil|done].
  - rewrite not_elem_of_cons. destruct (decide (k' = k)) as [->|Hne].
    + split; [done|]. intros [? _]. done.
    + rewrite IH. split; [intros ?; split; [congruence|done]|tauto].
Qed.

Lemma dict_set_keys k v d :
  (dict_set k v d).*1 = if decide (k ∈ d.*1) then d.*1 else d.*1 ++ [k].
Proof.
  induction d as [|[k' v'] d IH]; cbn [dict_set fmap list_fmap fst].
  - rewrite decide_False by apply not_elem_of_nil. done.
  - destruct (decide (k' = k)) as [->|Hne]; cbn [fmap list_fmap fst].
    + rewrite decide_True by left. done.
    + fold (@fmap list _ _ _ (@fst K V) d).
      fold (@fmap list _ _ _ (@fst K V) (dict_set k v d)).
      rewrite IH. destruct (decide (k ∈ d.*1)) as [Hin|Hnin].
      * rewrite decide_True by (by right). done.
      * rewrite decide_False; [done|].
        rewrite elem_of_cons. intros [->|?]; done.
Qed.

Lemma dict_del_head_ne k k' v d :
  k <> k' -> dict_del k' ((k, v) :: d) = (k, v) :: dict_del k' d.
Proof. intros. simpl. by destruct (decide (k = k')). Qed.

Lemma foldl_dict_del_cons k v d (ks : list K) :
  k ∉ ks ->
  foldl (fun d k' => dict_del k' d) ((k, v) :: d) ks
  = (k, v) :: foldl (fun d k' => dict_del k' d) d ks.
Proof.
  revert d. induction ks as [|k' ks IH]; intros d Hk; [done|].
  apply not_elem_of_cons in Hk as [Hne Hk].
  cbn [foldl]. rewrite dict_del_head_ne by done. by apply IH.
Qed.

(** Deleting, one after the other, the keys of the entries that satisfy
    [P] leaves exactly the entries that do not. *)
Lemma foldl_dict_del_filter (P : K * V -> Prop) `{!forall x, Decision (P x)} d :
  NoDup d.*1 ->
  foldl (fun d k' => dict_del k' d) d (filter P d).*1
  = filter (fun x => ~ P x) d.
Proof.
  induction d as [|[k v] d IH]; intros Hnd; [done|].
  rewrite fmap_cons in Hnd. apply NoDup_cons in Hnd as [Hk Hnd].
  rewrite !filter_cons. destruct (decide (P (k, v))) as [HP|HP].
  - rewrite decide_False by tauto.
    rewrite fmap_cons. cbn [foldl fst dict_del].
    rewrite decide_True by done. by apply IH.
  - rewrite decide_True by done.
    assert (k ∉ (filter P d).*1) as Hnot.
    { intros Hin. apply Hk.
      apply list_elem_of_fmap in Hin as (x & -> & Hx).
      apply list_elem_of_filter in Hx as [_ Hx].
      apply list_elem_of_fmap. by exists x. }
    rewrite foldl_dict_del_cons by done. by rewrite IH.
Qed.

End dict.
End DictFacts.

(** ** Job store *)

Module JobManagerFacts.
Import JobManager JobManager.JobStatus DictFacts.

Lemma insert_newest_first_perm j sorted :
  insert_newest_first j sorted ≡ₚ j :: sorted.
Proof.
  induction sorted as [|j' sorted IH]; simpl; [done|].
  destruct (decide _); [|done].
  rewrite IH. apply Permutation_swap.
Qed.

Lemma sort_newest_first_perm jobs : sort_newest_first jobs ≡ₚ jobs.
Proof.
  induction jobs as [|j jobs IH]; simpl; [done|].
  by rewrite insert_newest_first_perm, IH.
Qed.

Lemma insert_newest_first_sorted j sorted :
  StronglySorted newest_first sorted ->
  StronglySorted newest_first (insert_newest_first j sorted).
Proof.
  induction 1 as [|j' sorted Hs IH Hall]; simpl.
  - repeat constructor.
  - destruct (decide _) as [Hlt|Hge].
    + constructor; [done|].
      rewrite insert_newest_first_perm. constructor; [|done].
      unfold newest_first. lia.
    + constructor; [by constructor|].
      constructor; [unfold newest_first; lia|].
      eapply Forall_impl; [exact Hall|].
      unfold newest_first. intros; lia.
Qed.

Lemma sort_newest_first_sorted jobs :
  StronglySorted newest_first (sort_newest_first jobs).
Proof.
  induction jobs; simpl; [constructor|by apply insert_newest_first_sorted].
Qed.

Lemma list_jobs_unlimited jobs status_filter :
  list_jobs jobs status_filter None
  = sort_newest_first (matching jobs status_filter).
Proof.
  unfold list_jobs, matching.
  destruct status_filter as [s|]; [|done]. by destruct (decide _).
Qed.

(** C10. A limit of 0 is the same as no limit: [list_jobs(status, 0)]
    returns every matching job, newest first by creation time, exactly
    as [list_jobs(status)] does; only a non-zero limit truncates. *)
Theorem list_jobs_limit_zero (jobs : registry) (status_filter : option string) :
  list_jobs jobs status_filter (Some 0) = list_jobs jobs status_filter None
  /\ list_jobs jobs status_filter (Some 0) ≡ₚ matching jobs status_filter
  /\ StronglySorted newest_first (list_jobs jobs status_filter (Some 0))
  /\ (forall n, n <> 0 ->
        list_jobs jobs status_filter (Some n)
        = slice_to (list_jobs jobs status_filter None) n).
Proof.
  assert (list_jobs jobs status_filter (Some 0)
          = list_jobs jobs status_filter None) as Heq.
  { unfold list_jobs. by rewrite decide_True. }
  rewrite Heq, list_jobs_unlimited. split_and!.
  - done.
  - apply sort_newest_first_perm.
  - apply sort_newest_first_sorted.
  - intros n Hn. rewrite <- list_jobs_unlimited.
    unfold list_jobs. by rewrite decide_False.
Qed.

(** C9. [update_job_status], [update_progress], [complete_job] and
    [fail_job] called with a job id that is not in the registry return
    normally and leave the registry exactly as it was. *)
Theorem mutations_ignore_unknown_job (jobs : registry) (job_id : string) :
  get_job jobs job_id = None ->
  (forall status now, update_job_status jobs job_id status now = jobs)
  /\ (forall progress, update_progress jobs job_id progress = jobs)
  /\ (forall results now, complete_job jobs job_id results now = jobs)
  /\ (forall error now, fail_job jobs job_id error now = jobs).
Proof.
  unfold get_job, update_job_status, update_progress, complete_job, fail_job.
  intros ->. done.
Qed.

Lemma mutations_ignore_unknown_job_witness :
  let jobs := [("a", Samples.sample_job "a" PENDING 0 None)] in
  get_job jobs "b" = None
  /\ update_job_status jobs "b" CANCELLED 7 = jobs
  /\ update_progress jobs "b" 1 = jobs.
Proof.
  pose proof
    (mutations_ignore_unknown_job
       [("a", Samples.sample_job "a" PENDING 0 None)] "b" eq_refl)
    as (Hstatus & Hprogress & _).
  split_and!; [reflexivity|apply Hstatus|apply Hprogress].
Defined.

(** *** Retention sweep *)

Lemma jobs_to_remove_filter timestamp cutoff_time (items : registry) acc :
  (forall kj, kj ∈ items -> status kj.2 ∈ [COMPLETED; FAILED] ->
     is_Some (completed_at kj.2)) ->
  jobs_to_remove timestamp cutoff_time items acc
  = Return
      (acc
       ++ (filter (fun kj => removable timestamp cutoff_time kj.2) items).*1).
Proof.
  revert acc. induction items as [|[job_id j] items IH]; intros acc Hstamped.
  - simpl. by rewrite app_nil_r.
  - assert (forall kj, kj ∈ items -> status kj.2 ∈ [COMPLETED; FAILED] ->
              is_Some (completed_at kj.2)) as Hrest
      by (intros; apply Hstamped; [by right|done]).
    cbn [jobs_to_remove].
    rewrite (filter_cons
               (fun kj : string * job =>
                  removable timestamp cutoff_time kj.2)).
    cbn [snd].
    destruct (decide (status j ∈ [COMPLETED; FAILED])) as [Hst|Hst].
    + destruct (Hstamped (job_id, j) ltac:(left) Hst) as [t Ht].
      cbn [snd] in Ht. rewrite Ht. cbn zeta.
      destruct (PrimFloat.ltb (timestamp t) cutoff_time) eqn:Hold.
      * rewrite decide_True by (split; eauto).
        rewrite IH by done. rewrite fmap_cons, <- app_assoc. done.
      * rewrite decide_False; [by apply IH|].
        intros (_ & t' & Ht' & ?). congruence.
    + rewrite decide_False by (intros [? _]; done). by apply IH.
Qed.

(** The sweep keeps whatever is not [completed] or [failed]. *)
Lemma removable_status timestamp cutoff_time j :
  removable timestamp cutoff_time j ->
  status j = COMPLETED \/ status j = FAILED.
Proof.
  intros [Hst _].
  apply elem_of_cons in Hst as [?|Hst]; [by left|].
  apply elem_of_cons in Hst as [?|Hst]; [by right|].
  by apply elem_of_nil in Hst.
Qed.

(** The sweep once the cutoff is known. *)
Lemma clear_completed_jobs_cutoff timestamp (jobs : registry) now
    older_than_hours seconds :
  NoDup jobs.*1 ->
  (forall kj, kj ∈ jobs -> status kj.2 ∈ [COMPLETED; FAILED] ->
     is_Some (completed_at kj.2)) ->
  float_of_int (older_than_hours * 3600) = Return seconds ->
  let cutoff_time := (now - seconds)%float in
  clear_completed_jobs timestamp jobs now older_than_hours
  = Return
      (filter (fun kj => ~ removable timestamp cutoff_time kj.2) jobs,
       Z.of_nat
         (length
            (filter (fun kj => removable timestamp cutoff_time kj.2) jobs))).
Proof.
  intros Hnd Hstamped Hseconds cutoff_time.
  unfold clear_completed_jobs. rewrite Hseconds.
  cbn [mbind outcome_bind]. fold cutoff_time.
  rewrite (jobs_to_remove_filter timestamp cutoff_time jobs []) by done.
  cbn [mbind outcome_bind app].
  rewrite length_fmap. do 2 f_equal.
  apply (foldl_dict_del_filter
           (fun kj => removable timestamp cutoff_time kj.2) jobs Hnd).
Qed.

Lemma float_of_int_raises_only_overflow n e :
  float_of_int n = Raise e -> e = OverflowError.
Proof.
  unfold float_of_int. by destruct (binary_normalize _ _ _ _ _); intros [= <-].
Qed.

(** C8, as the code has it.  On a registry in which every completed or
    failed job carries its completion time, the sweep computes the
    cutoff [now - older_than_hours * 3600] as a double; when the
    integer is too large for a double this raises [OverflowError] and
    nothing is removed.  Otherwise it removes exactly the jobs whose
    status is [completed] or [failed] and whose completion timestamp,
    a double, is below the cutoff, returns their number and keeps
    every other record, in order and unchanged; a cancelled job is
    never removed. *)
Theorem clear_completed_jobs_removes_completed_failed
    (timestamp : Z -> float) (jobs : registry) (now : float)
    (older_than_hours : Z) :
  NoDup jobs.*1 ->
  (forall kj, kj ∈ jobs -> status kj.2 ∈ [COMPLETED; FAILED] ->
     is_Some (completed_at kj.2)) ->
  match float_of_int (older_than_hours * 3600) with
  | Return seconds =>
      let cutoff_time := (now - seconds)%float in
      let removed :=
        filter (fun kj => removable timestamp cutoff_time kj.2) jobs in
      let kept :=
        filter (fun kj => ~ removable timestamp cutoff_time kj.2) jobs in
      clear_completed_jobs timestamp jobs now older_than_hours
      = Return (kept, Z.of_nat (length removed))
      /\ (forall kj, kj ∈ jobs -> status kj.2 = CANCELLED -> kj ∈ kept)
  | Raise e =>
      e = OverflowError
      /\ clear_completed_jobs timestamp jobs now older_than_hours
         = Raise OverflowError
  end.
Proof.
  intros Hnd Hstamped.
  destruct (float_of_int (older_than_hours * 3600)) as [seconds|e]
    eqn:Hseconds.
  - cbn zeta. split.
    + by apply clear_completed_jobs_cutoff.
    + intros kj Hin Hst. apply list_elem_of_filter. split; [|done].
      intros Hrem%removable_status. rewrite Hst in Hrem.
      by destruct Hrem.
  - apply float_of_int_raises_only_overflow in Hseconds as Hover.
    subst e. split; [done|].
    unfold clear_completed_jobs. by rewrite Hseconds.
Qed.

Lemma clear_completed_jobs_removes_completed_failed_witness :
  let jobs := [("a", Samples.sample_job "a" COMPLETED 0 (Some 1));
               ("b", Samples.sample_job "b" RUNNING 2 None);
               ("c", Samples.sample_job "c" FAILED 3
                       (Some (2 * Samples.day)))] in
  clear_completed_jobs Samples.utc_timestamp jobs
    (Samples.utc_timestamp (2 * Samples.day)) 24
  = Return ([("b", Samples.sample_job "b" RUNNING 2 None);
             ("c", Samples.sample_job "c" FAILED 3
                     (Some (2 * Samples.day)))],
            1).
Proof.
  intros jobs.
  assert (NoDup jobs.*1) as Hnd
    by (decide_by_computation).
  assert (forall kj, kj ∈ jobs -> status kj.2 ∈ [COMPLETED; FAILED] ->
            is_Some (completed_at kj.2)) as Hstamped.
  { intros kj Hin Hst. unfold jobs in Hin.
    repeat (apply elem_of_cons in Hin as [->|Hin]); simpl in *;
      [eauto| |eauto|by apply elem_of_nil in Hin].
    exfalso. revert Hst. decide_by_computation. }
  pose proof (clear_completed_jobs_removes_completed_failed
                Samples.utc_timestamp jobs
                (Samples.utc_timestamp (2 * Samples.day)) 24 Hnd Hstamped)
    as Hsweep.
  change (float_of_int (24 * 3600)) with (Return 86400%float) in Hsweep.
  destruct Hsweep as [-> _]. reflexivity.
Defined.

(** C8 as stated fails: a cancelled job whose completion time is older
    than the configured age is kept, and the sweep reports 0 removed. *)
Lemma clear_completed_jobs_keeps_cancelled :
  let j := Samples.sample_job "a" CANCELLED 0 (Some 1) in
  let now := Samples.utc_timestamp (2 * Samples.day) in
  status j = CANCELLED
  /\ completed_at j = Some 1
  /\ PrimFloat.ltb (Samples.utc_timestamp 1) (now - 24 * 3600) = true
  /\ clear_completed_jobs Samples.utc_timestamp [("a", j)] now 24
     = Return ([("a", j)], 0).
Proof. split_and!; [reflexivity|reflexivity|reflexivity|reflexivity]. Qed.

(** The comparison is one of doubles.  In a process whose zone is UTC,
    at 2038-01-20T00:00:00.000006 and with an age of 48 hours, a job
    completed at 2038-01-18T00:00:00.000006, to the microsecond 48
    hours before, is removed: past 2^31 seconds a timestamp has a
    coarser grid than before it, so the cutoff comes out above the
    job's timestamp.  An age too large for a double raises
    [OverflowError]. *)
Example clear_completed_jobs_compares_doubles :
  let completed := 2147385600 * 1000000 + 6 in
  let now := 2147558400 * 1000000 + 6 in
  let j := Samples.sample_job "a" COMPLETED 0 (Some completed) in
  completed = now - 48 * Samples.hour
  /\ clear_completed_jobs Samples.utc_timestamp [("a", j)]
       (Samples.utc_timestamp now) 48
     = Return ([], 1)
  /\ clear_completed_jobs Samples.utc_timestamp [("a", j)]
       (Samples.utc_timestamp now) (10 ^ 400)
     = Raise OverflowError.
Proof. split_and!; [reflexivity|vm_compute; reflexivity..]. Qed.

(** *** Status transitions *)

Lemma get_job_update_job_status jobs job_id j status now :
  get_job jobs job_id = Some j ->
  exists j',
    get_job (update_job_status jobs job_id status now) job_id = Some j'
    /\ JobManager.status j' = status.
Proof.
  unfold get_job, update_job_status. intros ->.
  rewrite dict_get_set_eq. eexists. split; [done|].
  repeat (destruct (decide _)); done.
Qed.

End JobManagerFacts.

(** ** Cancel endpoint *)

Module MainFacts.
Import JobManager JobManager.JobStatus DictFacts Main.

(** C4, as the code has it.  The job store checks no transition: on an
    existing job [update_job_status] sets whatever status is asked for,
    and [complete_job] and [fail_job] set theirs, from any current
    status.  The one guard is in the cancel endpoint: a job that is
    neither pending nor running is refused with HTTP 400 and the
    registry is left as it was, while a pending or running job becomes
    cancelled. *)
Theorem status_transitions_unchecked_except_cancel
    (jobs : registry) (job_id : string) (j : job) :
  get_job jobs job_id = Some j ->
  (forall status now,
     exists j',
       get_job (update_job_status jobs job_id status now) job_id = Some j'
       /\ JobManager.status j' = status)
  /\ (forall results now,
        status <$> get_job (complete_job jobs job_id results now) job_id
        = Some COMPLETED)
  /\ (forall error now,
        status <$> get_job (fail_job jobs job_id error now) job_id
        = Some FAILED)
  /\ (forall now,
        status j ∉ [PENDING; RUNNING] ->
        cancel_job jobs job_id now
        = (Raise (HTTPException 400
                    ("Cannot cancel job with status " +:+ status j)),
           jobs))
  /\ (forall now,
        status j ∈ [PENDING; RUNNING] ->
        exists response,
          cancel_job jobs job_id now
          = (Return response, update_job_status jobs job_id CANCELLED now)
          /\ status <$>
               get_job (update_job_status jobs job_id CANCELLED now) job_id
             = Some CANCELLED).
Proof.
  intros Hj. split_and!.
  - intros status now.
    by apply (JobManagerFacts.get_job_update_job_status jobs job_id j).
  - intros results now. unfold get_job, complete_job in *. rewrite Hj.
    by rewrite dict_get_set_eq.
  - intros error now. unfold get_job, fail_job in *. rewrite Hj.
    by rewrite dict_get_set_eq.
  - intros now Hst. unfold cancel_job. rewrite Hj.
    by rewrite decide_True.
  - intros now Hst. unfold cancel_job. rewrite Hj.
    rewrite decide_False by (intros Hn; by apply Hn).
    eexists. split; [done|].
    destruct (JobManagerFacts.get_job_update_job_status
                jobs job_id j CANCELLED now Hj) as (j' & -> & Hj').
    simpl. by rewrite Hj'.
Qed.

Lemma status_transitions_unchecked_except_cancel_witness :
  let j := Samples.sample_job "a" COMPLETED 0 (Some 1) in
  let jobs := [("a", j)] in
  (exists j',
     get_job (update_job_status jobs "a" PENDING 2) "a" = Some j'
     /\ status j' = PENDING)
  /\ cancel_job jobs "a" 2
     = (Raise (HTTPException 400 "Cannot cancel job with status completed"),
        jobs).
Proof.
  intros j jobs.
  destruct (status_transitions_unchecked_except_cancel jobs "a" j eq_refl)
    as (Hset & _ & _ & Hrefuse & _).
  split; [apply Hset|].
  apply (Hrefuse 2). decide_by_computation.
Defined.

(** C4 as stated fails: the job store accepts a transition out of a
    terminal state.  A completed job is set back to running; no error is
    raised and the record changes. *)
Lemma completed_job_set_running :
  let j := Samples.sample_job "a" COMPLETED 0 (Some 1) in
  let jobs' := update_job_status [("a", j)] "a" RUNNING 2 in
  status j = COMPLETED
  /\ status <$> get_job jobs' "a" = Some RUNNING
  /\ started_at <$> get_job jobs' "a" = Some (Some 2)
  /\ jobs' <> [("a", j)].
Proof. split_and!; [reflexivity..|]. vm_compute. discriminate. Qed.

End MainFacts.

(** ** Merging counts *)

Module MergeFacts.
Import Compute DictFacts.

Implicit Types (k key : pykey) (d counts acc : list (pykey * Z)).

Lemma dict_get_is_Some k d : is_Some (dict_get k d) <-> k ∈ d.*1.
Proof.
  pose proof (dict_get_None k d) as Hnone.
  destruct (dict_get k d) as [v|].
  - split; [|eauto]. intros _.
    destruct (decide (k ∈ d.*1)) as [|Hn]; [done|].
    apply Hnone in Hn. done.
  - split; [by intros [? ?]|]. intros Hin.
    destruct Hnone as [Hnone _]. by destruct (Hnone eq_refl).
Qed.

Lemma dict_set_NoDup k (v : Z) d : NoDup d.*1 -> NoDup (dict_set k v d).*1.
Proof.
  intros Hnd. rewrite dict_set_keys. destruct (decide _) as [|Hnin]; [done|].
  apply NoDup_app. split_and!; [done| |apply NoDup_singleton].
  intros k' Hin ->%list_elem_of_singleton. done.
Qed.

Lemma dict_get_incr k key n d :
  dict_get k (incr key n d)
  = if decide (key = k) then Some (default 0 (dict_get k d) + n)
    else dict_get k d.
Proof.
  unfold incr. destruct (decide (key = k)) as [->|Hne].
  - by rewrite dict_get_set_eq.
  - by rewrite dict_get_set_ne.
Qed.

Lemma count_in_absent k d : k ∉ d.*1 -> count_in k d = 0.
Proof.
  induction d as [|[k' v] d IH]; [done|].
  rewrite fmap_cons, not_elem_of_cons. intros [Hne Hnin].
  unfold count_in in *. cbn [sumZ foldr fst snd].
  rewrite decide_False by done. fold (sumZ (fun kc : pykey * Z =>
    if decide (kc.1 = k) then kc.2 else 0) d). rewrite IH by done. lia.
Qed.

Lemma count_in_cons k k' v d :
  count_in k ((k', v) :: d)
  = (if decide (k' = k) then v else 0) + count_in k d.
Proof. reflexivity. Qed.

(** In a dict, the count under a key is the value stored there. *)
Lemma count_in_get k d :
  NoDup d.*1 -> count_in k d = default 0 (dict_get k d).
Proof.
  induction d as [|[k' v] d IH]; [done|].
  rewrite fmap_cons, NoDup_cons. intros [Hnin Hnd].
  rewrite count_in_cons. cbn [dict_get].
  destruct (decide (k' = k)) as [->|Hne].
  - rewrite count_in_absent by done. simpl. lia.
  - rewrite IH by done. lia.
Qed.

Lemma add_counts_cons k v counts acc :
  add_counts ((k, v) :: counts) acc = add_counts counts (incr k v acc).
Proof. reflexivity. Qed.

Lemma add_counts_NoDup counts acc :
  NoDup acc.*1 -> NoDup (add_counts counts acc).*1.
Proof.
  revert acc. induction counts as [|[k v] counts IH]; intros acc Hnd; [done|].
  rewrite add_counts_cons. apply IH. by apply dict_set_NoDup.
Qed.

(** [acc[key] += count] for every entry of [counts]: a key of [counts]
    ends up with its old value (0 when new) plus its count, any other
    key is untouched. *)
Lemma dict_get_add_counts k counts acc :
  dict_get k (add_counts counts acc)
  = if decide (k ∈ counts.*1)
    then Some (default 0 (dict_get k acc) + count_in k counts)
    else dict_get k acc.
Proof.
  revert acc. induction counts as [|[k' v] counts IH]; intros acc.
  - rewrite decide_False by apply not_elem_of_nil. done.
  - rewrite add_counts_cons, IH, dict_get_incr, count_in_cons, fmap_cons.
    cbn [fst]. destruct (decide (k' = k)) as [->|Hne].
    + rewrite (decide_True (P := k ∈ k :: counts.*1)) by left.
      destruct (decide (k ∈ counts.*1)) as [|Hnin]; cbn [default from_option]; unfold id.
      * f_equal. lia.
      * rewrite count_in_absent by done. f_equal. lia.
    + destruct (decide (k ∈ counts.*1)) as [Hin|Hnin].
      * rewrite decide_True by (by right). by rewrite Z.add_0_l.
      * rewrite decide_False; [done|].
        rewrite not_elem_of_cons. split; [congruence|done].
Qed.

Section field.
Variable field : results -> list (pykey * Z).

Lemma sumZ_count_absent k (ps : list results) :
  ~ Exists (fun p => k ∈ (field p).*1) ps ->
  sumZ (fun p => count_in k (field p)) ps = 0.
Proof.
  induction ps as [|p ps IH]; [done|].
  rewrite Exists_cons. intros Hn. cbn [sumZ foldr].
  fold (sumZ (fun p => count_in k (field p)) ps).
  rewrite IH by tauto. rewrite count_in_absent by tauto. lia.
Qed.

(** The loop of [merge_results] on one mapping. *)
Lemma dict_get_merged k (ps : list results) acc :
  dict_get k (foldl (fun d p => add_counts (field p) d) acc ps)
  = if decide (Exists (fun p => k ∈ (field p).*1) ps)
    then Some (default 0 (dict_get k acc)
               + sumZ (fun p => count_in k (field p)) ps)
    else dict_get k acc.
Proof.
  revert acc. induction ps as [|p ps IH]; intros acc.
  - rewrite decide_False by (by intros ?%Exists_nil). done.
  - cbn [foldl sumZ foldr]. fold (sumZ (fun p => count_in k (field p)) ps).
    rewrite IH, dict_get_add_counts.
    destruct (decide (k ∈ (field p).*1)) as [Hin|Hnin].
    + rewrite (decide_True (P := Exists _ (p :: ps))) by (by left).
      destruct (decide (Exists _ ps)) as [|Hn]; cbn [default from_option]; unfold id.
      * f_equal. lia.
      * rewrite sumZ_count_absent by done. f_equal. lia.
    + rewrite count_in_absent by done.
      destruct (decide (Exists _ ps)) as [Hex|Hn].
      * rewrite decide_True by (by right). by rewrite Z.add_0_l.
      * rewrite decide_False; [done|].
        rewrite Exists_cons. tauto.
Qed.

Lemma merged_NoDup (ps : list results) acc :
  NoDup acc.*1 ->
  NoDup (foldl (fun d p => add_counts (field p) d) acc ps).*1.
Proof.
  revert acc. induction ps as [|p ps IH]; intros acc Hnd; [done|].
  cbn [foldl]. apply IH. by apply add_counts_NoDup.
Qed.

Lemma dict_get_merged_count k (ps : list results) :
  dict_get k (foldl (fun d p => add_counts (field p) d) [] ps)
  = merged_count field k ps.
Proof.
  rewrite dict_get_merged. unfold merged_count.
  destruct (decide _); [|done]. cbn. f_equal.
Qed.

Lemma merged_count_perm k (ps qs : list results) :
  ps ≡ₚ qs -> merged_count field k ps = merged_count field k qs.
Proof.
  intros Hperm. unfold merged_count.
  assert (sumZ (fun p => count_in k (field p)) ps
          = sumZ (fun p => count_in k (field p)) qs) as ->.
  { induction Hperm; cbn [sumZ foldr] in *; try lia.
    fold (sumZ (fun p => count_in k (field p)) l) in *.
    fold (sumZ (fun p => count_in k (field p)) l') in *. lia. }
  assert (Exists (fun p => k ∈ (field p).*1) ps
          <-> Exists (fun p => k ∈ (field p).*1) qs) as Hiff.
  { rewrite !Exists_exists. by setoid_rewrite Hperm. }
  destruct (decide _) as [H1|H1], (decide _) as [H2|H2]; tauto.
Qed.

End field.

Lemma sumZ_cons {A} (f : A -> Z) (a : A) (l : list A) :
  sumZ f (a :: l) = f a + sumZ f l.
Proof. reflexivity. Qed.

Lemma sumZ_perm {A} (f : A -> Z) (l l' : list A) :
  l ≡ₚ l' -> sumZ f l = sumZ f l'.
Proof.
  induction 1 as [|a l l' _ IH|a b l|l l' l'' _ IH1 _ IH2];
    rewrite ?sumZ_cons; [done|lia|lia|congruence].
Qed.

Lemma sumZ_app {A} (f : A -> Z) (l l' : list A) :
  sumZ f (l ++ l') = sumZ f l + sumZ f l'.
Proof.
  induction l as [|a l IH]; [done|].
  rewrite <- app_comm_cons, !sumZ_cons. lia.
Qed.

Lemma average_raises_only_overflow x n e :
  average x n = Raise e -> e = OverflowError.
Proof.
  unfold average, truediv. destruct (decide (0 < n)); [|done].
  rewrite decide_False by lia. unfold float_of_int.
  by destruct (binary_normalize _ _ _ _ _); intros [= <-].
Qed.

Lemma merge_step_fold (ps : list results) (acc : merged) :
  let acc' := foldl merge_step acc ps in
  m_total acc' = m_total acc + sumZ total ps
  /\ m_high_energy_events acc'
     = m_high_energy_events acc + sumZ high_energy_events ps
  /\ m_chunks_processed acc' = m_chunks_processed acc
  /\ m_energy_sum acc'
     = foldl (fun x p => (x + energy_sum p)%float) (m_energy_sum acc) ps
  /\ m_status_counts acc'
     = foldl (fun d p => add_counts (status_counts p) d)
         (m_status_counts acc) ps
  /\ m_sensor_counts acc'
     = foldl (fun d p => add_counts (sensor_counts p) d)
         (m_sensor_counts acc) ps.
Proof.
  revert acc. induction ps as [|p ps IH]; intros acc; cbn [foldl sumZ foldr].
  - split_and!; try done; lia.
  - destruct (IH (merge_step acc p)) as (-> & -> & -> & -> & -> & ->).
    cbn [merge_step m_total m_high_energy_events m_chunks_processed
         m_energy_sum m_status_counts m_sensor_counts].
    fold (sumZ total ps). fold (sumZ high_energy_events ps).
    split_and!; try done; lia.
Qed.

(** What a returned merge holds, field by field. *)
Lemma merge_results_fields (ps : list results) (r : results) :
  merge_results ps = Return r ->
  total r = sumZ total ps
  /\ high_energy_events r = sumZ high_energy_events ps
  /\ chunks_processed r = Some (Z.of_nat (length ps))
  /\ energy_sum r = foldl (fun x p => (x + energy_sum p)%float) 0%float ps
  /\ status_counts r = foldl (fun d p => add_counts (status_counts p) d) [] ps
  /\ sensor_counts r = foldl (fun d p => add_counts (sensor_counts p) d) [] ps
  /\ average (energy_sum r) (total r) = Return (avg_energy r).
Proof.
  unfold merge_results, merge_loop.
  match goal with
  | |- context [foldl merge_step ?acc ps] =>
      destruct (merge_step_fold ps acc) as (Ht & Hh & Hc & He & Hs & Hn);
      set (acc' := foldl merge_step acc ps) in *
  end.
  cbn in Ht, Hh, Hc, He, Hs, Hn.
  destruct (average (m_energy_sum acc') (m_total acc')) as [avg|e] eqn:Havg;
    [|done].
  intros [= <-]. cbn. rewrite Havg, Hc.
  split_and!; try done; lia.
Qed.

Lemma merge_results_returns_or_overflows (ps : list results) :
  (exists r, merge_results ps = Return r)
  \/ merge_results ps = Raise OverflowError.
Proof.
  unfold merge_results.
  destruct (average _ _) as [avg|e] eqn:Havg; [left; by eexists|right].
  by apply average_raises_only_overflow in Havg as ->.
Qed.

(** Whether the average can be computed depends on the total alone. *)
Lemma average_raise_total x y n e :
  average x n = Raise e -> average y n = Raise e.
Proof.
  unfold average, truediv. destruct (decide (0 < n)); [|done].
  rewrite !decide_False by lia.
  destruct (float_of_int n); cbn; [intros [=]|auto].
Qed.

Lemma merge_results_raise (ps : list results) e :
  merge_results ps = Raise e ->
  forall x, average x (sumZ total ps) = Raise e.
Proof.
  unfold merge_results, merge_loop.
  match goal with
  | |- context [foldl merge_step ?acc ps] =>
      destruct (merge_step_fold ps acc) as (Ht & _);
      set (acc' := foldl merge_step acc ps) in *
  end.
  cbn in Ht. rewrite Z.add_0_l in Ht. rewrite Ht.
  destruct (average _ _) as [avg|e'] eqn:Havg; [done|].
  intros [= ->] x. by apply (average_raise_total _ x) in Havg.
Qed.

(** Two lists of partial results with the same sums merge alike. *)
Lemma merge_results_agree (ps qs : list results) :
  sumZ total ps = sumZ total qs ->
  sumZ high_energy_events ps = sumZ high_energy_events qs ->
  (forall k, merged_count status_counts k ps
             = merged_count status_counts k qs) ->
  (forall k, merged_count sensor_counts k ps
             = merged_count sensor_counts k qs) ->
  agree (merge_results ps) (merge_results qs).
Proof.
  intros Htotal Hhigh Hstatus Hsensor. unfold agree.
  destruct (merge_results ps) as [r1|e1] eqn:H1,
           (merge_results qs) as [r2|e2] eqn:H2.
  - apply merge_results_fields in H1 as (Ht1 & Hh1 & _ & _ & Hs1 & Hn1 & _).
    apply merge_results_fields in H2 as (Ht2 & Hh2 & _ & _ & Hs2 & Hn2 & _).
    split_and!; [congruence| | |congruence].
    + intros k. by rewrite Hs1, Hs2, !dict_get_merged_count.
    + intros k. by rewrite Hn1, Hn2, !dict_get_merged_count.
  - apply merge_results_fields in H1 as (Ht1 & _ & _ & _ & _ & _ & Havg).
    apply merge_results_raise with (x := energy_sum r1) in H2.
    rewrite <- Htotal, <- Ht1 in H2. congruence.
  - apply merge_results_fields in H2 as (Ht2 & _ & _ & _ & _ & _ & Havg).
    apply merge_results_raise with (x := energy_sum r2) in H1.
    rewrite Htotal, <- Ht2 in H1. congruence.
  - pose proof (merge_results_raise _ _ H1 0%float) as H1'.
    pose proof (merge_results_raise _ _ H2 0%float) as H2'.
    rewrite Htotal in H1'. congruence.
Qed.

(** *** Merging merged results *)

Section grouping.
Variable field : results -> list (pykey * Z).

Lemma merged_count_app k (ps qs : list results) :
  merged_count field k (ps ++ qs)
  = match merged_count field k ps, merged_count field k qs with
    | Some a, Some b => Some (a + b)
    | Some a, None => Some a
    | None, Some b => Some b
    | None, None => None
    end.
Proof.
  unfold merged_count. rewrite sumZ_app.
  destruct (decide (Exists _ ps)) as [H1|H1],
           (decide (Exists _ qs)) as [H2|H2].
  - rewrite decide_True by (apply Exists_app; by left). done.
  - rewrite decide_True by (apply Exists_app; by left).
    rewrite (sumZ_count_absent field k qs) by done. f_equal. lia.
  - rewrite decide_True by (apply Exists_app; by right).
    rewrite (sumZ_count_absent field k ps) by done. f_equal.
  - rewrite decide_False; [done|]. rewrite Exists_app. tauto.
Qed.

Lemma merged_count_singleton k (m : results) :
  NoDup (field m).*1 -> merged_count field k [m] = dict_get k (field m).
Proof.
  intros Hnd. unfold merged_count. rewrite sumZ_cons.
  cbn [sumZ foldr]. rewrite Z.add_0_r, count_in_get by done.
  pose proof (dict_get_is_Some k (field m)) as Hsome.
  destruct (decide (Exists _ [m])) as [Hex|Hex].
  - apply Exists_cons in Hex as [Hin|Hex]; [|by apply Exists_nil in Hex].
    apply Hsome in Hin as [v ->]. done.
  - destruct (dict_get k (field m)) as [v|]; [|done].
    destruct Hex. left. apply Hsome. eauto.
Qed.

Lemma merged_count_groups k (groups : list (list results))
    (ms : list results) :
  Forall2 (fun g m =>
             field m = foldl (fun d p => add_counts (field p) d) [] g)
    groups ms ->
  merged_count field k ms = merged_count field k (concat groups).
Proof.
  induction 1 as [|g m groups ms Hm _ IH]; [done|].
  cbn [concat]. rewrite merged_count_app, <- IH.
  change (m :: ms) with ([m] ++ ms). rewrite merged_count_app.
  rewrite merged_count_singleton, Hm, dict_get_merged_count; [done|].
  rewrite Hm. apply merged_NoDup. constructor.
Qed.

End grouping.

Lemma sumZ_groups (f : results -> Z) (groups : list (list results))
    (ms : list results) :
  Forall2 (fun g m => f m = sumZ f g) groups ms ->
  sumZ f ms = sumZ f (concat groups).
Proof.
  induction 1 as [|g m groups ms Hm _ IH]; [done|].
  cbn [concat]. rewrite sumZ_app, sumZ_cons. lia.
Qed.

(** C2, as the code has it.  Merging the partial results in any
    permutation, or merging the merges of any grouping of them, gives
    the same total, the same count at every key of [status_counts] and
    of [sensor_counts] and the same number of high-energy events: each
    is the per-key sum over the partials.  [energy_sum] is the
    floating-point sum of the partials' energy sums taken from 0.0 in
    the order given, and [avg_energy] is that sum divided by the total
    (the integer 0 when the total is not positive). *)
Theorem merge_results_sums (ps qs : list results) :
  ps ≡ₚ qs ->
  agree (merge_results ps) (merge_results qs)
  /\ (forall groups ms,
        concat groups = ps ->
        Forall2 (fun g m => merge_results g = Return m) groups ms ->
        agree (merge_results ms) (merge_results ps))
  /\ (forall r,
        merge_results ps = Return r ->
        total r = sumZ total ps
        /\ high_energy_events r = sumZ high_energy_events ps
        /\ (forall k, dict_get k (status_counts r)
                      = merged_count status_counts k ps)
        /\ (forall k, dict_get k (sensor_counts r)
                      = merged_count sensor_counts k ps)
        /\ energy_sum r
           = foldl (fun x p => (x + energy_sum p)%float) 0%float ps
        /\ average (energy_sum r) (total r) = Return (avg_energy r)).
Proof.
  intros Hperm. split_and!.
  - apply merge_results_agree; intros;
      first [by apply sumZ_perm|by apply merged_count_perm].
  - intros groups ms <- Hms. apply merge_results_agree.
    + apply sumZ_groups. eapply Forall2_impl; [exact Hms|].
      intros g m Hm. apply merge_results_fields in Hm. tauto.
    + apply sumZ_groups. eapply Forall2_impl; [exact Hms|].
      intros g m Hm. apply merge_results_fields in Hm. tauto.
    + intros k. apply merged_count_groups.
      eapply Forall2_impl; [exact Hms|].
      intros g m Hm. apply merge_results_fields in Hm. tauto.
    + intros k. apply merged_count_groups.
      eapply Forall2_impl; [exact Hms|].
      intros g m Hm. apply merge_results_fields in Hm. tauto.
  - intros r Hr.
    apply merge_results_fields in Hr as (Ht & Hh & _ & He & Hs & Hn & Havg).
    split_and!; try done.
    + intros k. by rewrite Hs, dict_get_merged_count.
    + intros k. by rewrite Hn, dict_get_merged_count.
Qed.

Example one_row_result_is_computed :
  chunk_results [Samples.good_row "ok" "s1" dec_0_1] (0, 1)
  = Return (Samples.one_row_result dec_0_1).
Proof. vm_compute. reflexivity. Qed.

Lemma merge_results_sums_witness :
  let a := Samples.one_row_result dec_0_1 in
  let b := Samples.one_row_result dec_0_2 in
  agree (merge_results [a; b]) (merge_results [b; a]).
Proof.
  intros a b.
  apply (merge_results_sums [a; b] [b; a]). apply Permutation_swap.
Defined.

(** C2 as stated fails: three one-row partial results with energies
    0.1, 0.2 and 0.3 merged in the order given and in the reverse order
    give two different energy sums (0.6000000000000001 and 0.6) and two
    different averages. *)
Lemma merge_results_order_changes_energy_sum :
  let a := Samples.one_row_result dec_0_1 in
  let b := Samples.one_row_result dec_0_2 in
  let c := Samples.one_row_result dec_0_3 in
  [a; b; c] ≡ₚ [c; b; a]
  /\ energy_sum <$> merge_results [a; b; c]
     = Return 0x1.3333333333334p-1%float
  /\ energy_sum <$> merge_results [c; b; a]
     = Return 0x1.3333333333333p-1%float
  /\ energy_sum <$> merge_results [a; b; c]
     <> energy_sum <$> merge_results [c; b; a]
  /\ avg_energy <$> merge_results [a; b; c]
     <> avg_energy <$> merge_results [c; b; a].
Proof.
  intros a b c. split_and!.
  - symmetry. apply (reverse_Permutation [a; b; c]).
  - vm_compute. reflexivity.
  - vm_compute. reflexivity.
  - intros H.
    apply (f_equal (fun o => match o with
                             | Return x => Prim2SF x
                             | Raise _ => S754_nan
                             end)) in H.
    vm_compute in H. discriminate.
  - intros H.
    apply (f_equal (fun o => match o with
                             | Return (PyFloat x) => Prim2SF x
                             | _ => S754_nan
                             end)) in H.
    vm_compute in H. discriminate.
Qed.

End MergeFacts.

(** ** Compute engine *)

Module ComputeEngineFacts.
Import Compute ComputeEngine MergeFacts.

(** *** Dispatch on the method *)

Lemma process_events_dispatch elapsed input_file num_workers method
    (progress_callback : bool) st f chunks :
  files (fs st) !! input_file = Some f ->
  split_into_chunks (count_data_rows f) num_workers = Return chunks ->
  process_events elapsed input_file num_workers method progress_callback st
  = (results ←
       (if decide (method = "multiprocessing") then
          _process_multiprocessing input_file chunks num_workers
            progress_callback
        else if decide (method = "subprocess") then
          _process_subprocess elapsed input_file chunks num_workers
            progress_callback
        else raise (ValueError ("Unknown method: " +:+ method)));
     _ ← report progress_callback 1;
     mret results)
      (report progress_callback dec_0_1 st).2.
Proof.
  intros Hfile Hsplit.
  unfold process_events, mbind, engine_bind, get_fs, lift.
  rewrite Hfile, Hsplit. reflexivity.
Qed.

Lemma bind_report_fst (m : engine results) (progress_callback : bool) p st :
  ((results ← m; _ ← report progress_callback p; mret results) st).1
  = (m st).1.
Proof.
  unfold mbind, engine_bind, report, mret, engine_ret.
  by destruct (m st) as [[r|e] st'].
Qed.

Lemma report_fs (progress_callback : bool) p st :
  fs (report progress_callback p st).2 = fs st.
Proof. by destruct progress_callback. Qed.


(** C5.  Given an existing input file and a number of workers in the
    planner's domain (any number but zero, for which the planning step
    before the dispatch fails), [process_events] picks the strategy
    from [method]:
    [multiprocessing] runs the pool strategy, [subprocess] runs the
    worker-process strategy, and any other value raises
    [ValueError("Unknown method: ...")] after the single progress report
    [0.1], with no worker run, no artifact written and nothing
    merged. *)
Theorem process_events_selects_by_method
    (elapsed : Z -> float) (input_file : string) (num_workers : Z)
    (method : string) (progress_callback : bool) (st : engine_state)
    (f : csv_file) :
  files (fs st) !! input_file = Some f ->
  num_workers <> 0 ->
  exists chunks st1,
    split_into_chunks (count_data_rows f) num_workers = Return chunks
    /\ st1 = (report progress_callback dec_0_1 st).2
    /\ (method = "multiprocessing" ->
        process_events elapsed input_file num_workers method
          progress_callback st
        = (results ← _process_multiprocessing input_file chunks num_workers
                       progress_callback;
           _ ← report progress_callback 1;
           mret results) st1)
    /\ (method = "subprocess" ->
        process_events elapsed input_file num_workers method
          progress_callback st
        = (results ← _process_subprocess elapsed input_file chunks
                       num_workers progress_callback;
           _ ← report progress_callback 1;
           mret results) st1)
    /\ (method <> "multiprocessing" -> method <> "subprocess" ->
        process_events elapsed input_file num_workers method
          progress_callback st
        = (Raise (ValueError ("Unknown method: " +:+ method)), st1)
        /\ fs st1 = fs st
        /\ reported st1
           = reported st
             ++ (if progress_callback then [dec_0_1]
                 else [])).
Proof.
  intros Hfile Hworkers.
  destruct (split_into_chunks (count_data_rows f) num_workers)
    as [chunks|e] eqn:Hsplit.
  2: { unfold split_into_chunks in Hsplit.
       by rewrite decide_False in Hsplit. }
  exists chunks, (report progress_callback dec_0_1 st).2.
  pose proof (process_events_dispatch elapsed input_file num_workers method
                progress_callback st f chunks Hfile Hsplit) as Hrun.
  split_and!; [done..| | |].
  - intros ->. by rewrite Hrun, decide_True.
  - intros ->. rewrite Hrun.
    rewrite decide_False by done. by rewrite decide_True.
  - intros Hm Hs. rewrite Hrun.
    rewrite !decide_False by done.
    split_and!; [reflexivity| |]; destruct progress_callback;
      cbn; by rewrite ?app_nil_r.
Qed.

Lemma process_events_selects_by_method_witness :
  let st := Samples.start_state
              (Samples.world_of "events.csv"
                 [Samples.good_row "ok" "s1" 1; Samples.good_row "ok" "s2" 2]) in
  process_events Samples.no_time "events.csv" 2 "threads" true st
  = (Raise (ValueError "Unknown method: threads"),
     {| fs := fs st; reported := [dec_0_1] |}).
Proof.
  intros st.
  destruct (process_events_selects_by_method Samples.no_time "events.csv" 2
              "threads" true st
              (Samples.csv_of
                 [Samples.good_row "ok" "s1" 1; Samples.good_row "ok" "s2" 2])
              eq_refl ltac:(done))
    as (chunks & st1 & _ & -> & _ & _ & Hunknown).
  destruct (Hunknown ltac:(done) ltac:(done)) as (-> & _ & _).
  reflexivity.
Defined.

(** *** The merger *)

(** C6, as the code has it.  Given zero partial results the merger
    returns the empty aggregate (total 0, no status or sensor counts,
    energy sum 0.0, no high-energy event, 0 chunks processed, average
    the integer 0); it never looks at how many chunks the job needed,
    and for any input its only failure is the [OverflowError] of
    converting the total to a float. *)
Theorem merge_results_of_nothing :
  merge_results [] = Return empty_aggregate
  /\ forall partial_results,
       (exists r, merge_results partial_results = Return r)
       \/ merge_results partial_results = Raise OverflowError.
Proof. split; [reflexivity|apply merge_results_returns_or_overflows]. Qed.

(** C6 as stated fails: a one-chunk job whose only worker dies (the
    energy cell of its row is not a number) hands the merger zero
    partial results, and the job returns the empty aggregate. *)
Lemma empty_result_set_is_merged :
  let st := Samples.start_state
              (Samples.world_of "events.csv" [Samples.bad_row "ok" "s1"]) in
  let run := process_events Samples.no_time "events.csv" 1 "subprocess"
               false st in
  found (fs run.2) 1 = []
  /\ run.1 = Return (with_method empty_aggregate "subprocess" 1).
Proof. split; vm_compute; reflexivity. Qed.

(** *** The worker-process strategy *)

Lemma imap_index_seq {A} (l : list A) (k : nat) :
  imap (fun i (_ : A) => Z.of_nat (k + i)) l = Z.of_nat <$> seq k (length l).
Proof.
  revert k. induction l as [|a l IH]; intros k; [done|].
  rewrite imap_cons. cbn [length seq fmap list_fmap].
  f_equal; [f_equal; lia|].
  rewrite <- IH. apply imap_ext. intros; simpl. f_equal. lia.
Qed.

Lemma collect_found (w : world) (n : nat) :
  collect w (Z.of_nat <$> seq 0 n) = found w n.
Proof.
  unfold collect, found.
  assert (forall (l : list nat) acc,
            foldl (fun partial_results output_file =>
                     match chunks_dir w !! output_file with
                     | Some j => partial_results ++ [Json.load j]
                     | None => partial_results
                     end) acc (Z.of_nat <$> l)
            = acc ++ omap (fun i => Json.load <$> chunks_dir w !! Z.of_nat i) l)
    as Hgen.
  { induction l as [|i l IH]; intros acc; cbn [fmap list_fmap foldl omap list_omap].
    - by rewrite app_nil_r.
    - fold (@fmap list _ _ _ Z.of_nat l). rewrite IH.
      destruct (chunks_dir w !! Z.of_nat i); cbn; [|done].
      by rewrite <- app_assoc. }
  apply (Hgen (seq 0 n) []).
Qed.

(** The whole of [_process_subprocess]: the artifacts found after the
    workers have run are merged, whatever their number. *)
Lemma _process_subprocess_run elapsed input_file chunks num_workers
    (progress_callback : bool) st :
  let w' := run_workers elapsed input_file chunks (fs st) in
  _process_subprocess elapsed input_file chunks num_workers
    progress_callback st
  = ((fun r => with_method r "subprocess" num_workers)
       <$> merge_results (found w' (length chunks)),
     {| fs := w';
        reported :=
          reported st
          ++ (if progress_callback
              then [dec_0_3; dec_0_7;
                    dec_0_9]
              else []) |}).
Proof.
  intros w'. unfold _process_subprocess.
  pose proof (imap_index_seq chunks 0) as Hidx. cbn [Nat.add] in Hidx.
  rewrite Hidx.
  unfold mbind, engine_bind, get_fs, put_fs, lift, report, mret, engine_ret.
  destruct progress_callback; cbn [fs reported];
    rewrite collect_found; fold w';
    destruct (merge_results (found w' (length chunks))); cbn;
    rewrite <- ?app_assoc, ?app_nil_r; reflexivity.
Qed.

Lemma omap_length_le {A B} (f : A -> option B) (l : list A) :
  (length (omap f l) <= length l)%nat.
Proof.
  induction l as [|a l IH]; [done|].
  cbn [omap list_omap length]. fold (omap f l).
  destruct (f a); cbn [length]; lia.
Qed.

Lemma omap_length_lt {A B} (f : A -> option B) (l : list A) (a : A) :
  a ∈ l -> f a = None -> (length (omap f l) < length l)%nat.
Proof.
  induction l as [|a' l IH]; intros Hin Hnone; [by apply elem_of_nil in Hin|].
  cbn [omap list_omap length]. fold (omap f l).
  pose proof (omap_length_le f l).
  apply elem_of_cons in Hin as [<-|Hin].
  - rewrite Hnone. lia.
  - specialize (IH Hin Hnone). destruct (f a'); cbn [length]; lia.
Qed.

Lemma found_missing (w : world) (n i : nat) :
  (i < n)%nat -> chunks_dir w !! Z.of_nat i = None ->
  (length (found w n) < n)%nat.
Proof.
  intros Hi Hnone. unfold found.
  pose proof (omap_length_lt
                (fun i => Json.load <$> chunks_dir w !! Z.of_nat i)
                (seq 0 n) i) as Hlt.
  rewrite length_seq in Hlt. apply Hlt; [apply elem_of_seq; lia|].
  by rewrite Hnone.
Qed.

Lemma found_S w (n : nat) :
  found w (S n)
  = found w n
    ++ match chunks_dir w !! Z.of_nat n with
       | Some j => [Json.load j]
       | None => []
       end.
Proof.
  unfold found. rewrite seq_S, omap_app. cbn.
  by destruct (chunks_dir w !! Z.of_nat n).
Qed.

(** *** The stand-alone launcher, [subprocess_parallel.py] *)

Lemma sibling_merge_step_fold (dir : gmap Z Json.chunk_json) (n : nat)
    (acc0 : SubprocessParallel.merged) :
  let w := {| files := ∅; chunks_dir := dir |} in
  let acc :=
    foldl (SubprocessParallel.merge_step dir) acc0 (seqZ 0 (Z.of_nat n)) in
  SubprocessParallel.m_total acc
  = SubprocessParallel.m_total acc0 + sumZ total (found w n)
  /\ SubprocessParallel.m_high_energy_events acc
     = SubprocessParallel.m_high_energy_events acc0
       + sumZ high_energy_events (found w n)
  /\ SubprocessParallel.m_chunks_processed acc
     = SubprocessParallel.m_chunks_processed acc0
       + Z.of_nat (length (found w n))
  /\ SubprocessParallel.m_energy_sum acc
     = foldl (fun x p => (x + energy_sum p)%float)
         (SubprocessParallel.m_energy_sum acc0) (found w n)
  /\ SubprocessParallel.m_status_counts acc
     = foldl (fun d p => add_counts (status_counts p) d)
         (SubprocessParallel.m_status_counts acc0) (found w n)
  /\ SubprocessParallel.m_sensor_counts acc
     = foldl (fun d p => add_counts (sensor_counts p) d)
         (SubprocessParallel.m_sensor_counts acc0) (found w n)
  /\ (length (SubprocessParallel.printed acc) + length (found w n)
      = length (SubprocessParallel.printed acc0) + n)%nat.
Proof.
  intros w. induction n as [|n IH]; cbn zeta.
  - rewrite seqZ_nil by lia. cbn. split_and!; try done; lia.
  - rewrite seqZ_S, foldl_app, found_S, Z.add_0_l. cbn [foldl].
    cbn zeta in IH. destruct IH as (Ht & Hh & Hc & He & Hs & Hn & Hp).
    set (acc := foldl (SubprocessParallel.merge_step dir) acc0
                  (seqZ 0 (Z.of_nat n))) in *.
    unfold SubprocessParallel.merge_step. cbn [chunks_dir w].
    destruct (dir !! Z.of_nat n) as [j|]; cbn.
    + rewrite !sumZ_app, !foldl_app, length_app, Ht, Hh, Hc, He, Hs, Hn.
      cbn. split_and!; try done; lia.
    + rewrite !app_nil_r, length_app. cbn.
      split_and!; try done; lia.
Qed.

(** The launcher's own [merge_results] merges the same artifacts: it
    skips a missing file after printing a warning. *)
Lemma sibling_merge_results (dir : gmap Z Json.chunk_json) (n : nat) :
  let w := {| files := ∅; chunks_dir := dir |} in
  let run := SubprocessParallel.merge_results dir (Z.of_nat n) in
  aggregate_values <$> run.1 = aggregate_values <$> merge_results (found w n)
  /\ (length run.2 + length (found w n) = n)%nat.
Proof.
  intros w. cbn zeta. unfold SubprocessParallel.merge_results.
  match goal with
  | |- context [foldl (SubprocessParallel.merge_step dir) ?acc0 _] =>
      destruct (sibling_merge_step_fold dir n acc0)
        as (Ht & Hh & Hc & He & Hs & Hn & Hp);
      set (acc := foldl (SubprocessParallel.merge_step dir) acc0
                    (seqZ 0 (Z.of_nat n))) in *
  end.
  cbn in Ht, Hh, Hc, He, Hs, Hn, Hp. fold w in Ht, Hh, Hc, He, Hs, Hn, Hp.
  split; [|exact Hp]. cbn [fst].
  unfold merge_results, merge_loop.
  match goal with
  | |- context [foldl merge_step ?acc0 (found w n)] =>
      destruct (merge_step_fold (found w n) acc0)
        as (Ht' & Hh' & Hc' & He' & Hs' & Hn');
      set (acc' := foldl merge_step acc0 (found w n)) in *
  end.
  cbn in Ht', Hh', Hc', He', Hs', Hn'.
  rewrite Ht, Hh, Hc, He, Hs, Hn, Ht', Hh', Hc', He', Hs', Hn', !Z.add_0_l.
  by destruct (average _ _) as [avg|e].
Qed.

Example launcher_warns_about_missing_file :
  SubprocessParallel.merge_results ∅ 1
  = (Return (with_zero_processing_time empty_aggregate),
     ["Warning: data/processed/chunks/chunk_0.json not found"]).
Proof. vm_compute. reflexivity. Qed.

(** C3, as the code has it.  After every worker process has ended the
    strategy reads back the artifacts that exist, skips the ones that do
    not, and returns the merge of what it read: no error is raised for a
    missing artifact (the only failure left is the [OverflowError] of
    the average), and [chunks_processed] is the number of artifacts
    found, which is smaller than the number of chunks as soon as one is
    missing.  The stand-alone launcher merges the same way and prints a
    warning for each artifact it does not find. *)
Theorem subprocess_merges_artifacts_found
    (elapsed : Z -> float) (input_file : string) (chunks : list chunk)
    (num_workers : Z) (progress_callback : bool) (st : engine_state) :
  let w' := run_workers elapsed input_file chunks (fs st) in
  let partial_results := found w' (length chunks) in
  (_process_subprocess elapsed input_file chunks num_workers
     progress_callback st).1
  = (fun r => with_method r "subprocess" num_workers)
      <$> merge_results partial_results
  /\ ((exists r, merge_results partial_results = Return r)
      \/ merge_results partial_results = Raise OverflowError)
  /\ (forall r, merge_results partial_results = Return r ->
        chunks_processed r = Some (Z.of_nat (length partial_results))
        /\ total r = sumZ total partial_results)
  /\ (forall i : nat,
        (i < length chunks)%nat -> chunks_dir w' !! Z.of_nat i = None ->
        (length partial_results < length chunks)%nat)
  /\ (let launcher :=
        SubprocessParallel.merge_results (chunks_dir w')
          (Z.of_nat (length chunks)) in
      aggregate_values <$> launcher.1
      = aggregate_values <$> merge_results partial_results
      /\ (length launcher.2 + length partial_results
          = length chunks)%nat).
Proof.
  intros w' partial_results. split_and!.
  - by rewrite _process_subprocess_run.
  - apply merge_results_returns_or_overflows.
  - intros r Hr. apply merge_results_fields in Hr. tauto.
  - intros i. apply found_missing.
  - apply (sibling_merge_results (chunks_dir w') (length chunks)).
Qed.

Lemma subprocess_merges_artifacts_found_witness :
  let st := Samples.start_state
              (Samples.world_of "events.csv"
                 [Samples.good_row "ok" "s1" 1; Samples.bad_row "ok" "s2"]) in
  let w' := run_workers Samples.no_time "events.csv" [(0, 1); (1, 1)] (fs st) in
  (length (found w' 2) < 2)%nat.
Proof.
  intros st w'.
  destruct (subprocess_merges_artifacts_found Samples.no_time "events.csv"
              [(0, 1); (1, 1)] 2 false st) as (_ & _ & _ & Hmissing & _).
  apply (Hmissing 1%nat); [cbn; lia|vm_compute; reflexivity].
Defined.

(** C3 as stated fails: with two chunks, the worker of chunk 1 dies on a
    row whose energy is not a number and leaves no artifact; the job
    still returns, an aggregate built from chunk 0 alone. *)
Lemma missing_artifact_is_skipped :
  let st := Samples.start_state
              (Samples.world_of "events.csv"
                 [Samples.good_row "ok" "s1" 1; Samples.bad_row "ok" "s2"]) in
  let run := process_events Samples.no_time "events.csv" 2 "subprocess"
               false st in
  chunks_dir (fs run.2) !! 1 = None
  /\ (exists j, chunks_dir (fs run.2) !! 0 = Some j)
  /\ exists r,
       run.1 = Return r
       /\ total r = 1
       /\ chunks_processed r = Some 1
       /\ Compute.num_workers r = Some 2.
Proof.
  split_and!.
  - vm_compute. reflexivity.
  - eexists. vm_compute. reflexivity.
  - eexists. split_and!; [vm_compute; reflexivity|reflexivity..].
Qed.

(** Outside the planner's domain: the chunks are planned before the
    method is looked at, so with zero workers the planner's division
    raises [ZeroDivisionError], before any progress report and whatever
    the method. *)
Lemma zero_workers_fail_before_dispatch :
  let st := Samples.start_state
              (Samples.world_of "events.csv"
                 [Samples.good_row "ok" "s1" 1; Samples.good_row "ok" "s2" 2]) in
  process_events Samples.no_time "events.csv" 0 "threads" true st
  = (Raise ZeroDivisionError, st).
Proof. vm_compute. reflexivity. Qed.

End ComputeEngineFacts.

(** ** The two strategies side by side *)

Module StrategyFacts.
Import Compute ComputeEngine DictFacts MergeFacts ComputeEngineFacts.

(** *** The two copies of [EventProcessor] *)

Lemma process_event_same : Worker.process_event = Compute.process_event.
Proof. reflexivity. Qed.

Lemma get_results_same : Worker.get_results = Compute.get_results.
Proof. reflexivity. Qed.

Lemma process_rows_same start_row num_rows i rows processor :
  Worker.process_rows start_row num_rows i rows processor
  = Compute.process_rows start_row num_rows i rows processor.
Proof.
  revert i processor. induction rows as [|r rows IH]; intros i processor.
  - reflexivity.
  - cbn [Worker.process_rows Compute.process_rows].
    rewrite process_event_same.
    destruct (decide (i < start_row)); [apply IH|].
    destruct (decide (start_row + num_rows <= i)); [done|].
    destruct (process_event processor r); cbn; [apply IH|done].
Qed.

Lemma process_chunk_worker_chunk_results files input_file f c (i : Z) :
  files !! input_file = Some f ->
  process_chunk_worker files (input_file, c.1, c.2, i)
  = (fun r => with_chunk_id r i) <$> chunk_results (data_rows f) c.
Proof.
  intros Hf. unfold process_chunk_worker, chunk_results. rewrite Hf.
  destruct (process_rows _ _ _ _ _) as [p|]; cbn; [|done].
  by destruct (get_results p).
Qed.

Lemma worker_run_chunk_results w input_file f c (i : Z) t :
  files w !! input_file = Some f ->
  Worker.run w input_file c.1 c.2 i t
  = (fun r => Json.dump r i t) <$> chunk_results (data_rows f) c.
Proof.
  intros Hf. unfold Worker.run, chunk_results. rewrite Hf.
  rewrite process_rows_same, get_results_same.
  destruct (process_rows _ _ _ _ _) as [p|]; cbn; [|done].
  by destruct (get_results p).
Qed.

(** *** Well-formed rows *)

Lemma incr_text_keyed key n counts :
  is_Some key -> text_keyed counts -> text_keyed (incr key n counts).
Proof.
  intros Hkey [Hnd Hsome]. unfold incr. split.
  - by apply dict_set_NoDup.
  - rewrite dict_set_keys. destruct (decide _); [done|].
    apply Forall_app. split; [done|]. by constructor.
Qed.

Lemma process_event_well_formed processor r :
  well_formed r ->
  text_keyed (EventProcessor.status_counts processor) ->
  text_keyed (EventProcessor.sensor_counts processor) ->
  exists processor',
    process_event processor r = Return processor'
    /\ EventProcessor.total processor' = EventProcessor.total processor + 1
    /\ text_keyed (EventProcessor.status_counts processor')
    /\ text_keyed (EventProcessor.sensor_counts processor').
Proof.
  intros (Hstatus & Hsensor & x & Henergy) Hst Hse.
  unfold process_event. rewrite Henergy. cbn.
  eexists. split; [done|]. cbn.
  split_and!; [done|by apply incr_text_keyed..].
Qed.

Lemma process_rows_well_formed start_row num_rows i rows processor :
  Forall well_formed rows ->
  text_keyed (EventProcessor.status_counts processor) ->
  text_keyed (EventProcessor.sensor_counts processor) ->
  exists processor',
    process_rows start_row num_rows i rows processor = Return processor'
    /\ EventProcessor.total processor <= EventProcessor.total processor'
       <= EventProcessor.total processor + Z.of_nat (length rows)
    /\ text_keyed (EventProcessor.status_counts processor')
    /\ text_keyed (EventProcessor.sensor_counts processor').
Proof.
  intros Hrows. revert i processor.
  induction Hrows as [|r rows Hr _ IH]; intros i processor Hst Hse.
  - exists processor. cbn. split_and!; [done|lia|lia|done|done].
  - cbn [process_rows length].
    destruct (decide (i < start_row)).
    { destruct (IH (i + 1) processor Hst Hse) as (p' & -> & ? & ? & ?).
      exists p'. split_and!; [done|lia|lia|done|done]. }
    destruct (decide (start_row + num_rows <= i)).
    { exists processor. split_and!; [done|lia|lia|done|done]. }
    destruct (process_event_well_formed processor r Hr Hst Hse)
      as (p1 & -> & Htotal & Hst1 & Hse1).
    cbn. destruct (IH (i + 1) p1 Hst1 Hse1) as (p' & -> & ? & ? & ?).
    exists p'. split_and!; [done|lia|lia|done|done].
Qed.

Lemma chunk_results_well_formed rows c :
  Forall well_formed rows ->
  (forall n, 0 < n <= Z.of_nat (length rows) ->
     exists x, float_of_int n = Return x) ->
  exists r,
    chunk_results rows c = Return r
    /\ text_keyed (status_counts r) /\ text_keyed (sensor_counts r).
Proof.
  intros Hrows Hconv. unfold chunk_results.
  destruct (process_rows_well_formed c.1 c.2 0 rows EventProcessor.__init__
              Hrows)
    as (p & -> & Htotal & Hst & Hse);
    [split; cbn; constructor..|].
  cbn in Htotal. cbn. unfold get_results, average.
  destruct (decide (0 < EventProcessor.total p)) as [Hpos|Hzero].
  - unfold truediv. rewrite decide_False by lia.
    destruct (Hconv (EventProcessor.total p) ltac:(lia)) as [x ->]. cbn.
    eexists. split; [done|]. by cbn.
  - cbn. eexists. split; [done|]. by cbn.
Qed.

(** *** Writing an artifact and reading it back *)

Lemma dict_set_fresh {K V} `{EqDecision K} (k : K) (v : V) d :
  k ∉ d.*1 -> dict_set k v d = d ++ [(k, v)].
Proof.
  induction d as [|[k' v'] d IH]; [done|].
  rewrite fmap_cons, not_elem_of_cons. intros [Hne Hnin].
  cbn [dict_set]. rewrite decide_False by done.
  by rewrite IH.
Qed.

Lemma load_dump_counts_from acc counts :
  NoDup (acc ++ counts).*1 -> Forall is_Some counts.*1 ->
  foldl (fun d kv => dict_set (Some kv.1) kv.2 d) acc (Json.dump_counts counts)
  = acc ++ counts.
Proof.
  revert acc. induction counts as [|[k v] counts IH]; intros acc Hnd Hsome.
  - by rewrite app_nil_r.
  - rewrite fmap_cons in Hsome. apply Forall_cons in Hsome as [Hk Hsome].
    cbn [fst] in Hk. destruct Hk as [s ->].
    unfold Json.dump_counts. rewrite fmap_cons. cbn [foldl fst snd Json.json_key].
    fold (Json.dump_counts counts).
    rewrite fmap_app, fmap_cons in Hnd.
    rewrite dict_set_fresh.
    + rewrite IH; [by rewrite <- app_assoc| |done].
      by rewrite <- app_assoc, fmap_app.
    + apply NoDup_app in Hnd as (_ & Hdisj & _).
      intros Hin. apply (Hdisj _ Hin). left.
Qed.

Lemma load_dump_counts counts :
  text_keyed counts -> Json.load_counts (Json.dump_counts counts) = counts.
Proof.
  intros [Hnd Hsome]. unfold Json.load_counts.
  by rewrite load_dump_counts_from.
Qed.

Lemma load_dump r worker_id t :
  text_keyed (status_counts r) -> text_keyed (sensor_counts r) ->
  same_inputs (Json.load (Json.dump r worker_id t)) r.
Proof.
  intros Hst Hse. unfold same_inputs, Json.load, Json.dump. cbn.
  rewrite !load_dump_counts by done. done.
Qed.

(** *** [merge_results] reads five keys *)

Lemma merge_results_same_inputs ps qs :
  Forall2 same_inputs ps qs -> merge_results ps = merge_results qs.
Proof.
  intros Hpq. unfold merge_results, merge_loop.
  rewrite (Forall2_length _ _ _ Hpq).
  generalize ({| m_total := 0; m_status_counts := []; m_sensor_counts := [];
                 m_energy_sum := 0; m_high_energy_events := 0;
                 m_chunks_processed := Z.of_nat (length qs) |}).
  intros acc.
  assert (foldl merge_step acc ps = foldl merge_step acc qs) as ->; [|done].
  revert acc. induction Hpq as [|p q ps qs (Ht & Hs & Hn & He & Hh) _ IH];
    intros acc; [done|].
  cbn [foldl]. rewrite <- IH. f_equal.
  unfold merge_step. by rewrite Ht, Hs, Hn, He, Hh.
Qed.

(** *** The pool and the worker processes, chunk by chunk *)

Lemma pool_map_imap {A B C} (f : C -> outcome B) (mk : nat -> A -> C)
    (h : nat -> A -> B) (l : list A) :
  (forall i a, l !! i = Some a -> f (mk i a) = Return (h i a)) ->
  pool_map f (imap mk l) = Return (imap h l).
Proof.
  revert mk h. induction l as [|a l IH]; intros mk h Hf; [done|].
  rewrite !imap_cons. cbn [pool_map].
  rewrite (Hf 0%nat a eq_refl). cbn.
  rewrite (IH (mk ∘ S) (h ∘ S)); [done|].
  intros i a' Hi. apply (Hf (S i) a' Hi).
Qed.

Lemma Forall2_imap {A B} (P : B -> B -> Prop) (h1 h2 : nat -> A -> B)
    (l : list A) :
  (forall i a, l !! i = Some a -> P (h1 i a) (h2 i a)) ->
  Forall2 P (imap h1 l) (imap h2 l).
Proof.
  revert h1 h2. induction l as [|a l IH]; intros h1 h2 HP; [constructor|].
  rewrite !imap_cons. constructor; [apply (HP 0%nat a eq_refl)|].
  apply IH. intros i a' Hi. apply (HP (S i) a' Hi).
Qed.

Lemma worker_main_files w input_file start_row num_rows worker_id
    output_file t :
  files (Worker.main w input_file start_row num_rows worker_id output_file t)
  = files w.
Proof. unfold Worker.main. by destruct (Worker.run _ _ _ _ _ _). Qed.

Lemma run_workers_snoc elapsed input_file chunks c w :
  let n := Z.of_nat (length chunks) in
  run_workers elapsed input_file (chunks ++ [c]) w
  = Worker.main (run_workers elapsed input_file chunks w) input_file
      c.1 c.2 n n (elapsed n).
Proof.
  unfold run_workers. rewrite imap_app, foldl_app. cbn.
  by rewrite Nat.add_0_r.
Qed.

Lemma run_workers_files elapsed input_file chunks w :
  files (run_workers elapsed input_file chunks w) = files w.
Proof.
  induction chunks as [|c chunks IH] using rev_ind; [done|].
  by rewrite run_workers_snoc, worker_main_files.
Qed.

Lemma found_write_chunk_ge w (n : nat) (i : Z) j :
  Z.of_nat n <= i -> found (write_chunk w i j) n = found w n.
Proof.
  intros Hi. unfold found. apply list_omap_ext, Forall2_same_length_lookup.
  split; [done|]. intros k x y Hx Hy.
  rewrite Hx in Hy. injection Hy as <-.
  apply lookup_seq in Hx as [-> Hk]. cbn.
  by rewrite lookup_insert_ne by lia.
Qed.

Section chunks.
Variables (elapsed : Z -> float) (input_file : string) (f : csv_file).
Variable R : chunk -> results.
Hypothesis chunk_results_R :
  forall c, chunk_results (data_rows f) c = Return (R c).

(** Every worker process writes its artifact, over whatever was there. *)
Lemma run_workers_found chunks w :
  files w !! input_file = Some f ->
  found (run_workers elapsed input_file chunks w) (length chunks)
  = imap (fun i c => Json.load (Json.dump (R c) (Z.of_nat i)
                                  (elapsed (Z.of_nat i)))) chunks.
Proof.
  intros Hf. induction chunks as [|c chunks IH] using rev_ind; [done|].
  rewrite run_workers_snoc, imap_app, length_app. cbn [length imap].
  rewrite Nat.add_1_r, Nat.add_0_r.
  unfold Worker.main.
  rewrite (worker_run_chunk_results _ input_file f c)
    by (by rewrite run_workers_files).
  rewrite chunk_results_R. cbn [fmap outcome_fmap].
  rewrite found_S, found_write_chunk_ge by lia. rewrite IH.
  cbn [write_chunk chunks_dir]. by rewrite lookup_insert_eq.
Qed.

Lemma run_pool_results files num_workers chunks :
  files !! input_file = Some f -> 1 <= num_workers ->
  run_pool files num_workers
    (imap (fun i c => (input_file, c.1, c.2, Z.of_nat i)) chunks)
  = Return (imap (fun i c => with_chunk_id (R c) (Z.of_nat i)) chunks).
Proof.
  intros Hf Hn. unfold run_pool. rewrite decide_False by lia.
  apply pool_map_imap. intros i c _.
  rewrite (process_chunk_worker_chunk_results files input_file f c) by done.
  by rewrite chunk_results_R.
Qed.

End chunks.

Lemma _process_multiprocessing_fst input_file chunks num_workers
    (progress_callback : bool) st :
  (_process_multiprocessing input_file chunks num_workers
     progress_callback st).1
  = (fun r => with_method r "multiprocessing" num_workers)
      <$> (partial_results ←
             run_pool (files (fs st)) num_workers
               (imap (fun i c => (input_file, c.1, c.2, Z.of_nat i)) chunks);
           merge_results partial_results).
Proof.
  unfold _process_multiprocessing, mbind at 1 2 3 4 5, engine_bind,
    get_fs, lift, report, mret, engine_ret.
  destruct progress_callback; cbn [fs reported];
    destruct (run_pool _ _ _) as [ps|]; cbn; [|done| |done];
    by destruct (merge_results ps).
Qed.

Lemma with_method_values r method num_workers :
  aggregate_values (with_method r method num_workers) = aggregate_values r.
Proof. reflexivity. Qed.

(** C7, as the code has it.  On an input file whose data rows all have
    their status and sensor cells and a numeric energy (and few enough
    rows for a row count to convert to a float), with at least one
    worker, the pool strategy and the worker-process strategy give the
    same outcome up to the [method] label: the same total,
    status_counts, sensor_counts, energy_sum, high_energy_events,
    avg_energy and chunks_processed.  Both merge one partial result per
    chunk, whatever artifacts an earlier run left behind. *)
Theorem strategies_agree_on_well_formed_input
    (elapsed : Z -> float) (input_file : string) (num_workers : Z)
    (progress_callback : bool) (st : engine_state) (f : csv_file) :
  files (fs st) !! input_file = Some f ->
  1 <= num_workers ->
  Forall well_formed (data_rows f) ->
  (forall n, 0 < n <= Z.of_nat (length (data_rows f)) ->
     exists x, float_of_int n = Return x) ->
  let in_process :=
    (process_events elapsed input_file num_workers "multiprocessing"
       progress_callback st).1 in
  let out_of_process :=
    (process_events elapsed input_file num_workers "subprocess"
       progress_callback st).1 in
  aggregate_values <$> in_process = aggregate_values <$> out_of_process
  /\ ((exists r, in_process = Return r
                 /\ chunks_processed r = Some num_workers
                 /\ method r = Some "multiprocessing")
      \/ in_process = Raise OverflowError)
  /\ ((exists r, out_of_process = Return r
                 /\ chunks_processed r = Some num_workers
                 /\ method r = Some "subprocess")
      \/ out_of_process = Raise OverflowError).
Proof.
  intros Hfile Hworkers Hrows Hconv.
  pose proof (ComputeFacts.split_into_chunks_fmap (count_data_rows f)
                num_workers ltac:(lia)) as Hsplit.
  set (chunks := chunk_at (count_data_rows f) num_workers
                   (count_data_rows f `div` num_workers)
                   <$> seqZ 0 num_workers) in Hsplit.
  assert (Z.of_nat (length chunks) = num_workers) as Hlen.
  { unfold chunks. rewrite length_fmap, length_seqZ. lia. }
  set (R := fun c => match chunk_results (data_rows f) c with
                     | Return r => r
                     | Raise _ => empty_aggregate
                     end).
  assert (forall c, chunk_results (data_rows f) c = Return (R c)
                    /\ text_keyed (status_counts (R c))
                    /\ text_keyed (sensor_counts (R c))) as HR.
  { intros c. unfold R.
    by destruct (chunk_results_well_formed (data_rows f) c Hrows Hconv)
      as (r & -> & ? & ?). }
  set (in_partials :=
         imap (fun i c => with_chunk_id (R c) (Z.of_nat i)) chunks).
  set (out_partials :=
         imap (fun i c => Json.load (Json.dump (R c) (Z.of_nat i)
                                       (elapsed (Z.of_nat i)))) chunks).
  assert (merge_results out_partials = merge_results in_partials) as Hmerge.
  { apply merge_results_same_inputs, Forall2_imap. intros i c _.
    destruct (HR c) as (_ & Hst & Hse).
    apply (load_dump (R c) (Z.of_nat i) (elapsed (Z.of_nat i)) Hst Hse). }
  intros in_process out_of_process.
  assert (in_process
          = (fun r => with_method r "multiprocessing" num_workers)
              <$> merge_results in_partials) as Hin.
  { unfold in_process.
    rewrite (process_events_dispatch _ _ _ _ _ _ f chunks) by done.
    rewrite decide_True by done.
    rewrite bind_report_fst, _process_multiprocessing_fst, report_fs.
    rewrite (run_pool_results input_file f R) by (done || apply HR). done. }
  assert (out_of_process
          = (fun r => with_method r "subprocess" num_workers)
              <$> merge_results out_partials) as Hout.
  { unfold out_of_process.
    rewrite (process_events_dispatch _ _ _ _ _ _ f chunks) by done.
    rewrite decide_False by done. rewrite decide_True by done.
    rewrite bind_report_fst, _process_subprocess_run. cbn [fst].
    rewrite report_fs.
    rewrite (run_workers_found elapsed input_file f R) by (done || apply HR).
    done. }
  rewrite Hin, Hout, Hmerge.
  assert (length in_partials = length chunks) as Hlen'
    by apply length_imap.
  destruct (merge_results_returns_or_overflows in_partials)
    as [[r Hr]| ->].
  - rewrite Hr. cbn.
    apply merge_results_fields in Hr as (_ & _ & Hc & _).
    rewrite Hlen', Hlen in Hc.
    split_and!; [done|left; eauto|left; eauto].
  - cbn. split_and!; [done|by right|by right].
Qed.

Lemma strategies_agree_on_well_formed_input_witness :
  let st := Samples.start_state
              (Samples.world_of "events.csv"
                 [Samples.good_row "ok" "s1" 1;
                  Samples.good_row "error" "s2" 150]) in
  aggregate_values
    <$> (process_events Samples.no_time "events.csv" 2 "multiprocessing"
           false st).1
  = aggregate_values
      <$> (process_events Samples.no_time "events.csv" 2 "subprocess"
             false st).1.
Proof.
  intros st.
  apply (strategies_agree_on_well_formed_input Samples.no_time "events.csv" 2
           false st
           (Samples.csv_of [Samples.good_row "ok" "s1" 1;
                            Samples.good_row "error" "s2" 150])).
  - reflexivity.
  - lia.
  - repeat constructor; cbn; eauto.
  - intros n Hn. cbn in Hn.
    assert (n = 1 \/ n = 2) as [-> | ->] by lia;
      eexists; vm_compute; reflexivity.
Defined.

(** C7 as stated fails: on a two-row file whose second row has an
    energy that is not a number, with two workers, the pool strategy
    fails with the worker's exception while the worker-process strategy
    returns an aggregate of the first chunk alone.  The strategies also
    part on a well-formed file when the number of workers is negative:
    no chunk is planned, the pool refuses to start and the
    worker-process strategy returns the empty aggregate. *)
Lemma strategies_differ_on_malformed_row :
  let st := Samples.start_state
              (Samples.world_of "events.csv"
                 [Samples.good_row "ok" "s1" 1; Samples.bad_row "ok" "s2"]) in
  let st' := Samples.start_state
               (Samples.world_of "events.csv"
                  [Samples.good_row "ok" "s1" 1]) in
  (process_events Samples.no_time "events.csv" 2 "multiprocessing"
     false st).1
  = Raise (ValueError "could not convert string to float")
  /\ total
       <$> (process_events Samples.no_time "events.csv" 2 "subprocess"
              false st).1
     = Return 1
  /\ (process_events Samples.no_time "events.csv" (-1) "multiprocessing"
        false st').1
     = Raise (ValueError "Number of processes must be at least 1")
  /\ (process_events Samples.no_time "events.csv" (-1) "subprocess"
        false st').1
     = Return (with_method empty_aggregate "subprocess" (-1)).
Proof. split_and!; vm_compute; reflexivity. Qed.

End StrategyFacts.

(** ** Workers and their row ranges *)

Module RowsFacts.
Import Compute Rows DictFacts MergeFacts StrategyFacts.

Lemma process_rows_consume_from start_row num_rows rows i processor :
  process_rows start_row num_rows i rows processor
  = consume
      (take (Z.to_nat (start_row + num_rows - Z.max i start_row))
         (drop (Z.to_nat (start_row - i)) rows))
      processor.
Proof.
  revert i processor. induction rows as [|r rows IH]; intros i processor.
  - by rewrite drop_nil, take_nil.
  - cbn [process_rows]. destruct (decide (i < start_row)) as [Hlt|Hge].
    + rewrite IH.
      replace (Z.to_nat (start_row - i))
        with (S (Z.to_nat (start_row - (i + 1)))) by lia.
      cbn [drop]. do 3 f_equal. lia.
    + replace (Z.to_nat (start_row - i)) with 0%nat by lia. cbn [drop].
      replace (Z.max i start_row) with i by lia.
      destruct (decide (start_row + num_rows <= i)) as [Hend|Hin].
      * by replace (Z.to_nat (start_row + num_rows - i)) with 0%nat by lia.
      * replace (Z.to_nat (start_row + num_rows - i))
          with (S (Z.to_nat (start_row + num_rows - (i + 1)))) by lia.
        cbn [take consume].
        destruct (process_event processor r) as [p'|e]; cbn; [|done].
        rewrite IH.
        replace (Z.to_nat (start_row - (i + 1))) with 0%nat by lia.
        cbn [drop]. do 3 f_equal. lia.
Qed.

Lemma process_rows_consume start_row num_rows rows processor :
  process_rows start_row num_rows 0 rows processor
  = consume (rows_of_chunk rows (start_row, num_rows)) processor.
Proof.
  rewrite process_rows_consume_from. unfold rows_of_chunk. cbn [fst snd].
  by rewrite Z.sub_0_r.
Qed.

Lemma rows_of_chunk_nonneg rows start_row num_rows :
  0 <= start_row ->
  rows_of_chunk rows (start_row, num_rows)
  = take (Z.to_nat num_rows) (drop (Z.to_nat start_row) rows).
Proof.
  intros Hs. unfold rows_of_chunk. cbn [fst snd]. do 2 f_equal. lia.
Qed.

Lemma count_where_nonneg (P : row -> Prop) `{!forall r, Decision (P r)} rows :
  0 <= count_where P rows.
Proof. unfold count_where. lia. Qed.

Lemma count_where_cons (P : row -> Prop) `{!forall r, Decision (P r)} r rows :
  count_where P (r :: rows)
  = (if decide (P r) then 1 else 0) + count_where P rows.
Proof.
  unfold count_where. rewrite filter_cons.
  destruct (decide (P r)); cbn [length]; lia.
Qed.

Lemma count_where_app (P : row -> Prop) `{!forall r, Decision (P r)}
    rows rows' :
  count_where P (rows ++ rows') = count_where P rows + count_where P rows'.
Proof. unfold count_where. rewrite filter_app, length_app. lia. Qed.

(** Counting one key per row, as [self.status_counts[status] += 1]
    does row after row. *)
Lemma dict_get_tally (key_of : row -> pykey) (k : pykey) rows
    (counts : list (pykey * Z)) :
  dict_get k (foldl (fun d r => incr (key_of r) 1 d) counts rows)
  = if decide (count_where (fun r => key_of r = k) rows = 0)
    then dict_get k counts
    else Some (default 0 (dict_get k counts)
               + count_where (fun r => key_of r = k) rows).
Proof.
  revert counts. induction rows as [|r rows IH]; intros counts; [done|].
  cbn [foldl]. rewrite IH, dict_get_incr, count_where_cons.
  pose proof (count_where_nonneg (fun r => key_of r = k) rows) as Hpos.
  destruct (decide (key_of r = k)) as [Hk|Hk].
  - rewrite (decide_False (P := 1 + _ = 0)) by lia.
    destruct (decide (count_where _ rows = 0)) as [->|_];
      cbn [default from_option]; unfold id; f_equal; lia.
  - rewrite Z.add_0_l. done.
Qed.

Lemma tally_NoDup (key_of : row -> pykey) rows (counts : list (pykey * Z)) :
  NoDup counts.*1 ->
  NoDup (foldl (fun d r => incr (key_of r) 1 d) counts rows).*1.
Proof.
  revert counts. induction rows as [|r rows IH]; intros counts Hnd; [done|].
  cbn [foldl]. apply IH. by apply dict_set_NoDup.
Qed.

(** The processor after rows whose energies are all numeric. *)
Lemma consume_numeric rows (processor : EventProcessor.t) :
  Forall numeric rows ->
  consume rows processor
  = Return
      {| EventProcessor.total :=
           EventProcessor.total processor + Z.of_nat (length rows);
         EventProcessor.status_counts :=
           foldl (fun d r => incr (status r) 1 d)
             (EventProcessor.status_counts processor) rows;
         EventProcessor.sensor_counts :=
           foldl (fun d r => incr (sensor_id r) 1 d)
             (EventProcessor.sensor_counts processor) rows;
         EventProcessor.energy_sum :=
           sum_energy (EventProcessor.energy_sum processor) rows;
         EventProcessor.high_energy_events :=
           EventProcessor.high_energy_events processor
           + count_where high_energy rows |}.
Proof.
  intros Hrows. revert processor.
  induction Hrows as [|r rows [x Hx] _ IH]; intros processor.
  - destruct processor. cbn. unfold count_where. cbn.
    by rewrite !Z.add_0_r.
  - assert (energy_value r = x) as Hv by (unfold energy_value; by rewrite Hx).
    cbn [consume]. unfold process_event. rewrite Hx.
    cbn -[sum_energy count_where energy_value high_energy].
    rewrite IH. cbn -[sum_energy count_where energy_value high_energy].
    rewrite count_where_cons. unfold sum_energy. cbn [foldl].
    destruct (decide (high_energy r)) as [Hh|Hh];
      unfold high_energy in Hh; rewrite Hv in *.
    + rewrite Hh. f_equal. f_equal; lia.
    + apply not_true_is_false in Hh. rewrite Hh. f_equal. f_equal; lia.
Qed.

(** The first row whose energy [float()] rejects ends the run with its
    exception. *)
Lemma consume_raises pre r post e (processor : EventProcessor.t) :
  Forall numeric pre ->
  float_of_cell (energy r) = Raise e ->
  consume (pre ++ r :: post) processor = Raise e.
Proof.
  intros Hpre Hr. revert processor.
  induction Hpre as [|r' pre [x Hx] _ IH]; intros processor.
  - cbn. unfold process_event. by rewrite Hr.
  - cbn [app consume]. unfold process_event at 1. rewrite Hx. cbn.
    apply IH.
Qed.

Lemma foldl_process_event_raise rows (e : pyexc) :
  foldl (fun acc x => q ← acc; process_event q x) (Raise e) rows = Raise e.
Proof. induction rows as [|r rows IH]; [done|]. exact IH. Qed.

Lemma consume_foldl rows (processor : EventProcessor.t) :
  consume rows processor
  = foldl (fun acc x => q ← acc; process_event q x) (Return processor) rows.
Proof.
  revert processor.
  induction rows as [|r rows IH]; intros processor; [done|].
  cbn [consume foldl].
  change (q ← Return processor; process_event q r)
    with (process_event processor r).
  destruct (process_event processor r) as [p'|e].
  - apply IH.
  - cbn. symmetry. apply foldl_process_event_raise.
Qed.

(** X1. The loop of a worker, in [compute.py] and in [worker.py] alike,
    feeds its processor exactly the rows whose index lies in
    [[start_row, start_row + num_rows)], in order, and nothing else: for
    a start that is not negative these are the first [num_rows] rows
    after skipping [start_row], and a row outside the range is never
    handed to [process_event]. *)
Theorem worker_consumes_its_range
    (start_row num_rows : Z) (rows : list row)
    (processor : EventProcessor.t) :
  process_rows start_row num_rows 0 rows processor
  = consume (rows_of_chunk rows (start_row, num_rows)) processor
  /\ Worker.process_rows start_row num_rows 0 rows processor
     = consume (rows_of_chunk rows (start_row, num_rows)) processor
  /\ (0 <= start_row ->
      rows_of_chunk rows (start_row, num_rows)
      = take (Z.to_nat num_rows) (drop (Z.to_nat start_row) rows))
  /\ (num_rows <= 0 -> rows_of_chunk rows (start_row, num_rows) = [])
  /\ (Z.of_nat (length rows) <= start_row ->
      rows_of_chunk rows (start_row, num_rows) = []).
Proof.
  split_and!.
  - apply process_rows_consume.
  - rewrite process_rows_same. apply process_rows_consume.
  - apply rows_of_chunk_nonneg.
  - intros Hn. unfold rows_of_chunk. cbn [fst snd].
    by replace (Z.to_nat (start_row + num_rows - Z.max 0 start_row))
      with 0%nat by lia.
  - intros Hlen. unfold rows_of_chunk. cbn [fst snd].
    rewrite drop_ge by lia. apply take_nil.
Qed.

Lemma worker_consumes_its_range_witness :
  rows_of_chunk
    [Samples.good_row "ok" "s1" 1; Samples.bad_row "ok" "s2";
     Samples.good_row "ok" "s3" 3] (1, 1)
  = [Samples.bad_row "ok" "s2"].
Proof.
  destruct (worker_consumes_its_range 1 1
              [Samples.good_row "ok" "s1" 1; Samples.bad_row "ok" "s2";
               Samples.good_row "ok" "s3" 3] EventProcessor.__init__)
    as (_ & _ & Hslice & _).
  rewrite Hslice by lia. reflexivity.
Defined.

Lemma chunk_results_consume rows (c : chunk) :
  chunk_results rows c
  = processor ← consume (rows_of_chunk rows c) EventProcessor.__init__;
    get_results processor.
Proof.
  unfold chunk_results. destruct c as [start_row num_rows].
  by rewrite process_rows_consume.
Qed.

Lemma chunk_results_numeric rows (c : chunk) :
  Forall numeric (rows_of_chunk rows c) ->
  chunk_results rows c
  = tallied (rows_of_chunk rows c)
    <$> average (sum_energy 0 (rows_of_chunk rows c))
          (Z.of_nat (length (rows_of_chunk rows c))).
Proof.
  intros Hnum. rewrite chunk_results_consume, (consume_numeric _ _ Hnum).
  cbn -[sum_energy count_where average]. unfold get_results.
  cbn -[sum_energy count_where average].
  by destruct (average _ _).
Qed.

Lemma chunk_results_raises rows (c : chunk) pre r post e :
  rows_of_chunk rows c = pre ++ r :: post ->
  Forall numeric pre ->
  float_of_cell (energy r) = Raise e ->
  chunk_results rows c = Raise e.
Proof.
  intros Hslice Hpre Hr.
  by rewrite chunk_results_consume, Hslice, (consume_raises _ _ _ e).
Qed.

Lemma tallied_get (key_of : row -> pykey) (k : pykey) slice :
  dict_get k (foldl (fun d r => incr (key_of r) 1 d) [] slice)
  = count_entry (count_where (fun r => key_of r = k) slice).
Proof.
  rewrite dict_get_tally. unfold count_entry.
  destruct (decide (_ = 0)); [done|].
  cbn [dict_get default from_option]. unfold id. by rewrite ?Z.add_0_l.
Qed.

Lemma average_convertible x n d :
  float_of_int n = Return d ->
  average x n
  = Return (if decide (0 < n) then PyFloat (x / d)%float else PyInt 0).
Proof.
  intros Hd. unfold average, truediv.
  destruct (decide (0 < n)); [|done].
  rewrite decide_False by lia. by rewrite Hd.
Qed.

(** X2. An [EventProcessor] that is handed, one after the other, rows
    that all carry a numeric energy holds their exact counts, and
    [get_results] returns them: the number of rows, for every status
    and every sensor the number of rows carrying it (and no entry for a
    key that does not occur), the left-to-right sum of the energies,
    the number of rows with energy above 100, and the average (the
    integer 0 when no row was handed over).  The copy of the class in
    [worker.py] returns the same.  The statement is about the rows
    handed to [process_event], not about reading them from a file. *)
Theorem event_processor_counts_its_rows (rows : list row) (d : float) :
  Forall numeric rows ->
  float_of_int (Z.of_nat (length rows)) = Return d ->
  exists p r,
    consume rows EventProcessor.__init__ = Return p
    /\ foldl (fun acc x => q ← acc; Worker.process_event q x)
         (Return EventProcessor.__init__) rows = Return p
    /\ get_results p = Return r
    /\ Worker.get_results p = Return r
    /\ total r = Z.of_nat (length rows)
    /\ (forall k, dict_get k (status_counts r)
                  = count_entry (count_where (fun x => status x = k) rows))
    /\ (forall k, dict_get k (sensor_counts r)
                  = count_entry
                      (count_where (fun x => sensor_id x = k) rows))
    /\ energy_sum r = sum_energy 0 rows
    /\ high_energy_events r = count_where high_energy rows
    /\ avg_energy r
       = (if decide (rows = []) then PyInt 0
          else PyFloat (sum_energy 0 rows / d)%float).
Proof.
  intros Hnum Hd.
  pose proof (consume_numeric rows EventProcessor.__init__ Hnum) as Hp.
  cbn -[sum_energy count_where] in Hp.
  eexists. eexists. split_and!.
  - exact Hp.
  - rewrite <- Hp, process_event_same. symmetry. apply consume_foldl.
  - unfold get_results. cbn -[sum_energy count_where average].
    by rewrite (average_convertible _ _ d Hd).
  - rewrite get_results_same. unfold get_results.
    cbn -[sum_energy count_where average].
    by rewrite (average_convertible _ _ d Hd).
  - done.
  - intros k. apply tallied_get.
  - intros k. apply tallied_get.
  - done.
  - done.
  - cbn [avg_energy]. destruct rows as [|r rows'].
    + by rewrite decide_False by (cbn; lia).
    + by rewrite decide_True by (cbn [length]; lia).
Qed.

Lemma event_processor_counts_its_rows_witness :
  exists p r,
    consume
      [Samples.good_row "ok" "s1" 150; Samples.good_row "error" "s1" 50]
      EventProcessor.__init__ = Return p
    /\ Worker.get_results p = Return r
    /\ total r = 2
    /\ dict_get (Some "error") (status_counts r) = Some 1
    /\ dict_get (Some "s1") (sensor_counts r) = Some 2
    /\ dict_get (Some "s2") (sensor_counts r) = None
    /\ high_energy_events r = 1
    /\ avg_energy r = PyFloat 100.
Proof.
  destruct (event_processor_counts_its_rows
              [Samples.good_row "ok" "s1" 150;
               Samples.good_row "error" "s1" 50] 2%float)
    as (p & r & Hp & _ & _ & Hr & Htotal & _ & Hsensor & _ & Hhigh & Havg).
  - repeat constructor; [by exists 150%float | by exists 50%float].
  - reflexivity.
  - exists p, r. split_and!.
    + exact Hp.
    + exact Hr.
    + exact Htotal.
    + pose proof (f_equal (fun x : outcome results =>
                    match x with
                    | Return y => dict_get (Some "error") (status_counts y)
                    | Raise _ => None
                    end) Hr) as Hs.
      cbv beta iota in Hs. rewrite <- Hs. clear Hs.
      injection Hp as <-. reflexivity.
    + rewrite Hsensor. reflexivity.
    + rewrite Hsensor. reflexivity.
    + rewrite Hhigh. reflexivity.
    + rewrite Havg. reflexivity.
Defined.

(** X3. An [EventProcessor] stops at the first row handed to it whose
    energy [float()] rejects, with that exception: [ValueError] for text
    that is not a number, [TypeError] for a missing cell; the rows
    before it must be numeric, the rows after it are not looked at.  A
    run of [worker.py] that raises, for this or another reason, ends
    before the artifact is opened for writing, so it leaves the file
    system as it was. *)
Theorem event_processor_fails_at_first_bad_row
    (pre post : list row) (r : row) (processor : EventProcessor.t) :
  Forall numeric pre ->
  ~ numeric r ->
  exists e,
    float_of_cell (energy r) = Raise e
    /\ e = match energy r with
           | EnergyMissing => TypeError
           | EnergyText _ => ValueError "could not convert string to float"
           end
    /\ consume (pre ++ r :: post) processor = Raise e
    /\ foldl (fun acc x => q ← acc; Worker.process_event q x)
         (Return processor) (pre ++ r :: post) = Raise e
    /\ forall w input_file start_row num_rows worker_id output_file elapsed e',
         Worker.run w input_file start_row num_rows worker_id elapsed
         = Raise e' ->
         Worker.main w input_file start_row num_rows worker_id output_file
           elapsed = w.
Proof.
  intros Hpre Hr.
  assert (exists e,
    float_of_cell (energy r) = Raise e
    /\ e = match energy r with
           | EnergyMissing => TypeError
           | EnergyText _ => ValueError "could not convert string to float"
           end)
    as (e & He & Hwhich).
  { unfold numeric in Hr. destruct (energy r) as [[x|]|].
    - destruct Hr. by exists x.
    - by eexists.
    - by eexists. }
  exists e. split_and!.
  - exact He.
  - exact Hwhich.
  - by apply consume_raises.
  - rewrite process_event_same, <- consume_foldl. by apply consume_raises.
  - intros w input_file start_row num_rows worker_id output_file elapsed e'
      Hrun.
    unfold Worker.main. by rewrite Hrun.
Qed.

Lemma event_processor_fails_at_first_bad_row_witness :
  consume
    [Samples.good_row "ok" "s1" 150; Samples.bad_row "ok" "s2";
     Samples.good_row "error" "s1" 50]
    EventProcessor.__init__
  = Raise (ValueError "could not convert string to float").
Proof.
  destruct (event_processor_fails_at_first_bad_row
              [Samples.good_row "ok" "s1" 150]
              [Samples.good_row "error" "s1" 50]
              (Samples.bad_row "ok" "s2") EventProcessor.__init__)
    as (e & _ & -> & Hrun & _).
  - repeat constructor. by exists 150%float.
  - intros [x [=]].
  - exact Hrun.
Defined.

End RowsFacts.

(** ** compute.py: from the plan to the merged result *)

Module PipelineFacts.
Import Compute Rows ComputeEngine.
Import DictFacts MergeFacts ComputeFacts ComputeEngineFacts StrategyFacts.
Import RowsFacts.

Lemma covers_le from upto chunks : covers from upto chunks -> from <= upto.
Proof.
  revert from. induction chunks as [|[s n] chunks IH]; intros from;
    cbn [covers].
  - lia.
  - intros (_ & Hn & Hrest). apply IH in Hrest. lia.
Qed.

(** Chunks that tile a range hand the workers the rows of that range,
    each once and in order. *)
Lemma covers_rows rows from upto chunks :
  0 <= from -> covers from upto chunks ->
  concat (rows_of_chunk rows <$> chunks)
  = take (Z.to_nat (upto - from)) (drop (Z.to_nat from) rows).
Proof.
  revert from. induction chunks as [|[s n] chunks IH]; intros from Hfrom;
    cbn [covers].
  - intros ->. by rewrite Z.sub_diag.
  - intros (-> & Hn & Hrest). rewrite fmap_cons. cbn [concat].
    rewrite rows_of_chunk_nonneg by done. rewrite (IH (from + n) ltac:(lia) Hrest).
    pose proof (covers_le _ _ _ Hrest) as Hle.
    replace (Z.to_nat (from + n)) with (Z.to_nat from + Z.to_nat n)%nat
      by lia.
    rewrite <- drop_drop, take_take_drop. f_equal. lia.
Qed.

Lemma chunk_at_negative_total rows total_rows num_workers i :
  total_rows < 0 -> 1 <= num_workers -> 0 <= i ->
  rows_of_chunk rows
    (chunk_at total_rows num_workers (total_rows `div` num_workers) i)
  = [].
Proof.
  intros Ht Hn Hi.
  assert (total_rows `div` num_workers < 0) as Hcs
    by (apply Z.div_lt_upper_bound; lia).
  unfold rows_of_chunk, chunk_at. cbn [fst snd].
  match goal with
  | |- take (Z.to_nat ?n) _ = _ => replace (Z.to_nat n) with 0%nat; [done|]
  end.
  destruct (decide (i = num_workers - 1)); nia.
Qed.

(** The rows the planned chunks hand out, taken together, are the first
    [total_rows] rows of the file. *)
Lemma planned_rows rows total_rows num_workers chunks :
  1 <= num_workers ->
  split_into_chunks total_rows num_workers = Return chunks ->
  concat (rows_of_chunk rows <$> chunks) = take (Z.to_nat total_rows) rows.
Proof.
  intros Hn. rewrite split_into_chunks_fmap by lia. intros [= <-].
  destruct (decide (0 <= total_rows)) as [Ht|Ht].
  - pose proof (covers_tail total_rows num_workers Ht Hn
                  (Z.to_nat (num_workers - 1)) 0) as Hcov.
    replace (Z.of_nat (S (Z.to_nat (num_workers - 1)))) with num_workers
      in Hcov by lia.
    rewrite (covers_rows rows 0 total_rows) by (try apply Hcov; lia).
    by rewrite Z.sub_0_r.
  - replace (Z.to_nat total_rows) with 0%nat by lia. cbn [take].
    assert (Forall (fun i => 0 <= i) (seqZ 0 num_workers)) as Hall.
    { apply Forall_forall. intros i Hi%elem_of_seqZ. lia. }
    induction Hall as [|i l Hi _ IH]; [done|].
    rewrite !fmap_cons. cbn [concat].
    rewrite chunk_at_negative_total by lia. done.
Qed.

Lemma planned_rows_numeric rows total_rows num_workers chunks c :
  1 <= num_workers ->
  split_into_chunks total_rows num_workers = Return chunks ->
  Forall numeric (take (Z.to_nat total_rows) rows) ->
  c ∈ chunks -> Forall numeric (rows_of_chunk rows c).
Proof.
  intros Hn Hsplit Hnum Hc.
  rewrite <- (planned_rows rows _ _ _ Hn Hsplit) in Hnum.
  apply Forall_concat in Hnum. rewrite Forall_fmap, Forall_forall in Hnum.
  by apply Hnum.
Qed.

Lemma sumZ_imap {A B} (f : B -> Z) (g : A -> Z) (h : nat -> A -> B) l :
  (forall i a, f (h i a) = g a) -> sumZ f (imap h l) = sumZ g l.
Proof.
  intros Hfg. revert h Hfg. induction l as [|a l IH]; intros h Hfg; [done|].
  rewrite imap_cons, !sumZ_cons, Hfg. f_equal.
  apply (IH (h ∘ S)). intros i a'. apply Hfg.
Qed.

Lemma foldl_imap {A B C} (F : C -> B -> C) (G : C -> A -> C)
    (h : nat -> A -> B) l acc :
  (forall acc i a, F acc (h i a) = G acc a) ->
  foldl F acc (imap h l) = foldl G acc l.
Proof.
  intros HFG. revert h acc HFG.
  induction l as [|a l IH]; intros h acc HFG; [done|].
  rewrite imap_cons. cbn [foldl]. rewrite HFG.
  apply (IH (h ∘ S)). intros acc' i a'. apply HFG.
Qed.

Lemma sumZ_length_concat {A} (g : A -> list row) l :
  sumZ (fun a => Z.of_nat (length (g a))) l
  = Z.of_nat (length (concat (g <$> l))).
Proof.
  induction l as [|a l IH]; [done|].
  rewrite sumZ_cons, IH, fmap_cons. cbn [concat]. rewrite length_app. lia.
Qed.

Lemma sumZ_count_where_concat {A} (P : row -> Prop)
    `{!forall r, Decision (P r)} (g : A -> list row) l :
  sumZ (fun a => count_where P (g a)) l = count_where P (concat (g <$> l)).
Proof.
  induction l as [|a l IH]; [done|].
  rewrite sumZ_cons, IH, fmap_cons. cbn [concat].
  by rewrite count_where_app.
Qed.

(** Merging partial results that hold the counts of several slices gives
    the counts of the slices put end to end. *)
Lemma dict_get_merged_slices (field : results -> list (pykey * Z))
    (key_of : row -> pykey) (k : pykey) (ps : list results)
    (slices : list (list row)) (acc : list (pykey * Z)) :
  Forall2
    (fun p s =>
       NoDup (field p).*1
       /\ forall k, dict_get k (field p)
                    = count_entry (count_where (fun r => key_of r = k) s))
    ps slices ->
  dict_get k (foldl (fun d p => add_counts (field p) d) acc ps)
  = if decide (count_where (fun r => key_of r = k) (concat slices) = 0)
    then dict_get k acc
    else Some (default 0 (dict_get k acc)
               + count_where (fun r => key_of r = k) (concat slices)).
Proof.
  intros Hall. revert acc.
  induction Hall as [|p s ps slices [Hnd Hget] _ IH]; intros acc; [done|].
  cbn [foldl concat]. rewrite IH, dict_get_add_counts, count_where_app.
  pose proof (count_where_nonneg (fun r => key_of r = k) s) as Hs.
  pose proof (count_where_nonneg (fun r => key_of r = k) (concat slices))
    as Hrest.
  specialize (Hget k).
  rewrite count_in_get by done. rewrite Hget.
  destruct (decide (k ∈ _)) as [Hin|Hnin].
  - apply dict_get_is_Some in Hin. rewrite Hget in Hin.
    unfold count_entry in *.
    destruct (decide (count_where _ s = 0)) as [|Hne];
      [by destruct Hin|].
    rewrite (decide_False (P := _ + _ = 0)) by lia.
    destruct (decide (count_where _ (concat slices) = 0)) as [->|_];
      cbn [default from_option]; unfold id; f_equal; lia.
  - assert (count_where (fun r => key_of r = k) s = 0) as ->.
    { destruct (decide (count_where (fun r => key_of r = k) s = 0));
        [done|].
      destruct Hnin. apply dict_get_is_Some. rewrite Hget.
      unfold count_entry. by rewrite decide_False. }
    by rewrite Z.add_0_l.
Qed.

Lemma average_returns x n :
  (0 < n -> exists d, float_of_int n = Return d) ->
  exists a, average x n = Return a.
Proof.
  intros Hd. unfold average, truediv.
  destruct (decide (0 < n)) as [Hn|]; [|by eexists].
  rewrite decide_False by lia. destruct (Hd Hn) as [d ->]. by eexists.
Qed.

Lemma counts_of_sums ps slices :
  Forall2 counts_of ps slices ->
  sumZ total ps = Z.of_nat (length (concat slices))
  /\ sumZ high_energy_events ps = count_where high_energy (concat slices)
  /\ forall x,
       foldl (fun x p => (x + energy_sum p)%float) x ps
       = foldl (fun x s => (x + sum_energy 0 s)%float) x slices.
Proof.
  induction 1 as [|p s ps slices (Ht & Hh & He & _) _ (IHt & IHh & IHe)];
    [done|].
  rewrite !sumZ_cons, IHt, IHh, Ht, Hh. cbn [concat foldl].
  rewrite length_app, count_where_app. split_and!; [lia|done|].
  intros x. by rewrite He, IHe.
Qed.

(** [merge_results] on partial results that hold the counts of slices:
    the counts of the slices put end to end. *)
Lemma merge_counts_of ps slices :
  Forall2 counts_of ps slices ->
  (0 < Z.of_nat (length (concat slices)) ->
   exists d, float_of_int (Z.of_nat (length (concat slices))) = Return d) ->
  exists r,
    merge_results ps = Return r
    /\ total r = Z.of_nat (length (concat slices))
    /\ (forall k, dict_get k (status_counts r)
                  = count_entry
                      (count_where (fun x => status x = k) (concat slices)))
    /\ (forall k, dict_get k (sensor_counts r)
                  = count_entry
                      (count_where (fun x => sensor_id x = k)
                         (concat slices)))
    /\ high_energy_events r = count_where high_energy (concat slices)
    /\ energy_sum r
       = foldl (fun x s => (x + sum_energy 0 s)%float) 0%float slices
    /\ average (energy_sum r) (total r) = Return (avg_energy r)
    /\ chunks_processed r = Some (Z.of_nat (length ps)).
Proof.
  intros Hall Hd.
  destruct (counts_of_sums _ _ Hall) as (Ht & Hh & He).
  destruct (merge_results_returns_or_overflows ps) as [[r Hr]|Hraise].
  - exists r. split; [done|].
    apply merge_results_fields in Hr
      as (Hrt & Hrh & Hrc & Hre & Hrs & Hrn & Havg).
    split_and!; try congruence.
    + intros k. rewrite Hrs.
      rewrite (dict_get_merged_slices status_counts status k ps slices).
      * unfold count_entry. destruct (decide _); [done|].
        cbn [dict_get default from_option]. unfold id.
        by rewrite Z.add_0_l.
      * eapply Forall2_impl; [exact Hall|].
        by intros p s (_ & _ & _ & ? & ? & _).
    + intros k. rewrite Hrn.
      rewrite (dict_get_merged_slices sensor_counts sensor_id k ps slices).
      * unfold count_entry. destruct (decide _); [done|].
        cbn [dict_get default from_option]. unfold id.
        by rewrite Z.add_0_l.
      * eapply Forall2_impl; [exact Hall|].
        by intros p s (_ & _ & _ & _ & _ & ? & ?).
  - apply merge_results_raise with (x := 0%float) in Hraise.
    rewrite Ht in Hraise.
    destruct (average_returns 0%float _ Hd) as [a Ha]. congruence.
Qed.

Lemma tallied_counts_of slice avg : counts_of (tallied slice avg) slice.
Proof.
  unfold counts_of. cbn [tallied total high_energy_events energy_sum
                         status_counts sensor_counts].
  split_and!; try done.
  - apply tally_NoDup, NoDup_nil_2.
  - intros k. apply tallied_get.
  - apply tally_NoDup, NoDup_nil_2.
  - intros k. apply tallied_get.
Qed.

Lemma chunk_results_tally rows (c : chunk) :
  Forall numeric (rows_of_chunk rows c) ->
  (0 < Z.of_nat (length (rows_of_chunk rows c)) ->
   exists d, float_of_int (Z.of_nat (length (rows_of_chunk rows c)))
             = Return d) ->
  chunk_results rows c = Return (chunk_tally rows c).
Proof.
  intros Hnum Hd. rewrite (chunk_results_numeric _ _ Hnum). unfold chunk_tally.
  by destruct (average_returns (sum_energy 0 (rows_of_chunk rows c)) _ Hd)
    as [a ->].
Qed.

Lemma Forall2_imap_fmap {A B C} (P : B -> C -> Prop) (h : nat -> A -> B)
    (g : A -> C) (l : list A) :
  (forall i a, P (h i a) (g a)) -> Forall2 P (imap h l) (g <$> l).
Proof.
  intros HP. revert h HP. induction l as [|a l IH]; intros h HP;
    [constructor|].
  rewrite imap_cons, fmap_cons. constructor; [apply HP|].
  apply (IH (h ∘ S)). intros i a'. apply HP.
Qed.

Lemma length_rows_of_chunk_le rows total_rows num_workers chunks c :
  1 <= num_workers ->
  split_into_chunks total_rows num_workers = Return chunks ->
  c ∈ chunks ->
  (length (rows_of_chunk rows c)
   <= length (take (Z.to_nat total_rows) rows))%nat.
Proof.
  intros Hn Hsplit Hc.
  rewrite <- (planned_rows rows _ _ _ Hn Hsplit).
  apply list_elem_of_split in Hc as (l1 & l2 & ->).
  rewrite fmap_app, fmap_cons, concat_app. cbn [concat].
  rewrite !length_app. lia.
Qed.

(** The pool on a plan whose rows are numeric: one tally per chunk. *)
Lemma run_pool_tallies files input_file f total_rows num_workers chunks :
  files !! input_file = Some f ->
  1 <= num_workers ->
  split_into_chunks total_rows num_workers = Return chunks ->
  Forall numeric (take (Z.to_nat total_rows) (data_rows f)) ->
  (forall n,
     0 < n <= Z.of_nat (length (take (Z.to_nat total_rows) (data_rows f))) ->
     exists d, float_of_int n = Return d) ->
  run_pool files num_workers
    (imap (fun i c => (input_file, c.1, c.2, Z.of_nat i)) chunks)
  = Return
      (imap (fun i c => with_chunk_id (chunk_tally (data_rows f) c)
                          (Z.of_nat i)) chunks).
Proof.
  intros Hf Hn Hsplit Hnum Hd. unfold run_pool. rewrite decide_False by lia.
  apply pool_map_imap. intros i c Hc%list_elem_of_lookup_2.
  rewrite (process_chunk_worker_chunk_results files input_file f c) by done.
  rewrite chunk_results_tally; [done| |].
  - by eapply planned_rows_numeric.
  - intros Hpos. apply Hd. split; [done|].
    pose proof (length_rows_of_chunk_le (data_rows f) _ _ _ _ Hn Hsplit Hc).
    lia.
Qed.

Lemma split_into_chunks_length total_rows num_workers chunks :
  split_into_chunks total_rows num_workers = Return chunks ->
  length chunks = Z.to_nat num_workers.
Proof.
  unfold split_into_chunks. destruct (decide (num_workers = 0)); [done|].
  intros [= <-]. rewrite foldl_snoc_fmap. cbn [app].
  by rewrite length_fmap, length_seqZ.
Qed.

(** The pool followed by the merge, on a plan whose rows are numeric. *)
Lemma pool_then_merge files input_file f num_workers chunks :
  let counted := take (Z.to_nat (count_data_rows f)) (data_rows f) in
  files !! input_file = Some f ->
  1 <= num_workers ->
  split_into_chunks (count_data_rows f) num_workers = Return chunks ->
  Forall numeric counted ->
  (forall n, 0 < n <= Z.of_nat (length counted) ->
     exists d, float_of_int n = Return d) ->
  exists r,
    (partial_results ←
       run_pool files num_workers
         (imap (fun i c => (input_file, c.1, c.2, Z.of_nat i)) chunks);
     merge_results partial_results) = Return r
    /\ total r = Z.of_nat (length counted)
    /\ (forall k, dict_get k (status_counts r)
                  = count_entry (count_where (fun x => status x = k) counted))
    /\ (forall k, dict_get k (sensor_counts r)
                  = count_entry
                      (count_where (fun x => sensor_id x = k) counted))
    /\ high_energy_events r = count_where high_energy counted
    /\ energy_sum r
       = foldl (fun x s => (x + sum_energy 0 s)%float) 0%float
           (rows_of_chunk (data_rows f) <$> chunks)
    /\ average (energy_sum r) (total r) = Return (avg_energy r)
    /\ chunks_processed r = Some num_workers.
Proof.
  intros counted Hf Hn Hsplit Hnum Hd.
  rewrite (run_pool_tallies _ _ f _ _ _ Hf Hn Hsplit Hnum Hd).
  pose proof (planned_rows (data_rows f) _ _ _ Hn Hsplit) as Hrows.
  fold counted in Hrows.
  destruct (merge_counts_of
              (imap (fun i c => with_chunk_id (chunk_tally (data_rows f) c)
                                  (Z.of_nat i)) chunks)
              (rows_of_chunk (data_rows f) <$> chunks))
    as (r & Hr & Hfields).
  - apply Forall2_imap_fmap. intros i c. apply tallied_counts_of.
  - rewrite Hrows. intros Hpos. apply Hd. lia.
  - exists r. split; [exact Hr|]. rewrite Hrows in Hfields.
    rewrite length_imap, (split_into_chunks_length _ _ _ Hsplit) in Hfields.
    by rewrite Z2Nat.id in Hfields by lia.
Qed.

(** X4. An in-process run over an existing file, with at least one
    worker, counts exactly the first [count_data_rows] data rows of the
    file, provided their energies are numeric: the total, the count of
    every status and of every sensor (no entry for a value that does not
    occur), and the number of rows with energy above 100 are those of
    these rows taken as one list, however they were split into chunks.
    The energy sum is the sum of the per-chunk sums in chunk order, the
    average is that sum over the total, and the result says
    [num_workers] chunks were processed by [multiprocessing]. *)
Theorem in_process_run_counts_the_counted_rows
    (elapsed : Z -> float) (input_file : string) (num_workers : Z)
    (progress_callback : bool) (st : engine_state) (f : csv_file) :
  let counted := take (Z.to_nat (count_data_rows f)) (data_rows f) in
  files (fs st) !! input_file = Some f ->
  1 <= num_workers ->
  Forall numeric counted ->
  (forall n, 0 < n <= Z.of_nat (length counted) ->
     exists d, float_of_int n = Return d) ->
  exists r chunks,
    (process_events elapsed input_file num_workers "multiprocessing"
       progress_callback st).1 = Return r
    /\ split_into_chunks (count_data_rows f) num_workers = Return chunks
    /\ total r = Z.of_nat (length counted)
    /\ (forall k, dict_get k (status_counts r)
                  = count_entry (count_where (fun x => status x = k) counted))
    /\ (forall k, dict_get k (sensor_counts r)
                  = count_entry
                      (count_where (fun x => sensor_id x = k) counted))
    /\ high_energy_events r = count_where high_energy counted
    /\ energy_sum r
       = foldl (fun x s => (x + sum_energy 0 s)%float) 0%float
           (rows_of_chunk (data_rows f) <$> chunks)
    /\ average (energy_sum r) (total r) = Return (avg_energy r)
    /\ chunks_processed r = Some num_workers
    /\ method r = Some "multiprocessing"
    /\ Compute.num_workers r = Some num_workers.
Proof.
  intros counted Hf Hn Hnum Hd.
  destruct (split_into_chunks (count_data_rows f) num_workers)
    as [chunks|e] eqn:Hsplit;
    [|by rewrite split_into_chunks_fmap in Hsplit by lia].
  destruct (pool_then_merge (files (fs st)) input_file f num_workers chunks
              Hf Hn Hsplit Hnum Hd) as (r & Hr & Hfields).
  exists (with_method r "multiprocessing" num_workers), chunks.
  split.
  - rewrite (process_events_dispatch _ _ _ _ _ _ f chunks Hf Hsplit).
    rewrite decide_True by done.
    rewrite bind_report_fst, _process_multiprocessing_fst, report_fs.
    by rewrite Hr.
  - split; [done|]. cbn [with_method total status_counts sensor_counts
                         high_energy_events energy_sum avg_energy
                         chunks_processed method Compute.num_workers].
    destruct Hfields as (? & ? & ? & ? & ? & ? & ?). by split_and!.
Qed.

Lemma in_process_run_counts_the_counted_rows_witness :
  exists r,
    (process_events Samples.no_time "events.csv" 2 "multiprocessing" true
       (Samples.start_state
          (Samples.world_of "events.csv"
             [Samples.good_row "ok" "s1" 1;
              Samples.good_row "error" "s2" 150;
              Samples.good_row "ok" "s2" 7]))).1 = Return r
    /\ total r = 3
    /\ dict_get (Some "ok") (status_counts r) = Some 2
    /\ dict_get (Some "s1") (sensor_counts r) = Some 1
    /\ dict_get (Some "warning") (status_counts r) = None
    /\ high_energy_events r = 1.
Proof.
  destruct (in_process_run_counts_the_counted_rows Samples.no_time
              "events.csv" 2 true
              (Samples.start_state
                 (Samples.world_of "events.csv"
                    [Samples.good_row "ok" "s1" 1;
                     Samples.good_row "error" "s2" 150;
                     Samples.good_row "ok" "s2" 7]))
              (Samples.csv_of
                 [Samples.good_row "ok" "s1" 1;
                  Samples.good_row "error" "s2" 150;
                  Samples.good_row "ok" "s2" 7]))
    as (r & chunks & Hrun & _ & Htotal & Hstatus & Hsensor & Hhigh & _).
  - reflexivity.
  - lia.
  - decide_by_computation.
  - intros n Hn. change (0 < n <= 3) in Hn.
    assert (n = 1 \/ n = 2 \/ n = 3) as [-> | [-> | ->]] by lia;
      eexists; vm_compute; reflexivity.
  - exists r. split_and!.
    + exact Hrun.
    + exact Htotal.
    + rewrite Hstatus. reflexivity.
    + rewrite Hsensor. reflexivity.
    + rewrite Hstatus. reflexivity.
    + rewrite Hhigh. reflexivity.
Defined.

(** *** The worker processes on a plan *)

Lemma tally_text_keyed (key_of : row -> pykey) rows counts :
  Forall (fun r => is_Some (key_of r)) rows ->
  text_keyed counts ->
  text_keyed (foldl (fun d r => incr (key_of r) 1 d) counts rows).
Proof.
  intros Hrows. revert counts.
  induction Hrows as [|r rows Hr _ IH]; intros counts Hcounts; [done|].
  cbn [foldl]. by apply IH, incr_text_keyed.
Qed.

Lemma well_formed_numeric rows :
  Forall well_formed rows -> Forall numeric rows.
Proof.
  intros Hwf. eapply Forall_impl; [exact Hwf|]. by intros r (_ & _ & ?).
Qed.

(** An artifact written for well-formed rows reads back to the counts of
    these rows. *)
Lemma load_dump_counts_of slice avg worker_id t :
  Forall well_formed slice ->
  counts_of (Json.load (Json.dump (tallied slice avg) worker_id t)) slice.
Proof.
  intros Hwf.
  assert (text_keyed (status_counts (tallied slice avg))) as Hs.
  { apply tally_text_keyed; [|by split; [apply NoDup_nil_2|]].
    eapply Forall_impl; [exact Hwf|]. by intros r (? & _). }
  assert (text_keyed (sensor_counts (tallied slice avg))) as Hn.
  { apply tally_text_keyed; [|by split; [apply NoDup_nil_2|]].
    eapply Forall_impl; [exact Hwf|]. by intros r (_ & ? & _). }
  pose proof (tallied_counts_of slice avg) as Hcounts.
  unfold counts_of in *.
  cbn [Json.load Json.dump Json.j_total Json.j_status_counts
       Json.j_sensor_counts Json.j_energy_sum Json.j_high_energy_events
       total status_counts sensor_counts energy_sum high_energy_events].
  by rewrite !load_dump_counts.
Qed.

Section plan.
Variables (elapsed : Z -> float) (input_file : string) (f : csv_file).
Variable R : chunk -> results.

(** Every worker whose chunk gives a result writes its artifact, over
    whatever was there. *)
Lemma run_workers_artifacts chunks w :
  files w !! input_file = Some f ->
  (forall c, c ∈ chunks -> chunk_results (data_rows f) c = Return (R c)) ->
  let w' := run_workers elapsed input_file chunks w in
  found w' (length chunks)
  = imap (fun i c => Json.load (Json.dump (R c) (Z.of_nat i)
                                  (elapsed (Z.of_nat i)))) chunks
  /\ forall (i : nat) c,
       chunks !! i = Some c ->
       chunks_dir w' !! Z.of_nat i
       = Some (Json.dump (R c) (Z.of_nat i) (elapsed (Z.of_nat i))).
Proof.
  intros Hf. induction chunks as [|c chunks IH] using rev_ind; intros HR.
  - split; [done|]. by intros i c.
  - destruct IH as [IHfound IHdir].
    { intros c' Hc'. apply HR, elem_of_app. by left. }
    cbn zeta. rewrite run_workers_snoc, imap_app, length_app.
    cbn [length imap].
    rewrite Nat.add_1_r, Nat.add_0_r.
    unfold Worker.main.
    rewrite (worker_run_chunk_results _ input_file f c)
      by (by rewrite run_workers_files).
    rewrite HR by (apply elem_of_app; right; by left).
    cbn [fmap outcome_fmap]. split.
    + rewrite found_S, found_write_chunk_ge by lia. rewrite IHfound.
      cbn [write_chunk chunks_dir]. by rewrite lookup_insert_eq.
    + intros i c' Hi. cbn [write_chunk chunks_dir].
      destruct (decide (i = length chunks)) as [->|Hne].
      * rewrite list_lookup_middle in Hi by done. injection Hi as <-.
        by rewrite lookup_insert_eq.
      * rewrite lookup_insert_ne by lia. apply IHdir.
        rewrite lookup_app_l in Hi; [done|].
        apply lookup_lt_Some in Hi. rewrite length_app in Hi.
        cbn [length] in Hi. lia.
Qed.

End plan.

Lemma bind_report_fs (m : engine results) (progress_callback : bool) p st :
  fs ((results ← m; _ ← report progress_callback p; mret results) st).2
  = fs (m st).2.
Proof.
  unfold mbind, engine_bind, report, mret, engine_ret.
  destruct (m st) as [[r|e] st']; [|done]. by destruct progress_callback.
Qed.

(** The worker processes followed by the merge, on a plan whose rows are
    well formed. *)
Lemma worker_processes_then_merge elapsed w input_file f num_workers chunks :
  let counted := take (Z.to_nat (count_data_rows f)) (data_rows f) in
  let w' := run_workers elapsed input_file chunks w in
  files w !! input_file = Some f ->
  1 <= num_workers ->
  split_into_chunks (count_data_rows f) num_workers = Return chunks ->
  Forall well_formed counted ->
  (forall n, 0 < n <= Z.of_nat (length counted) ->
     exists d, float_of_int n = Return d) ->
  (exists r,
     merge_results (found w' (length chunks)) = Return r
     /\ total r = Z.of_nat (length counted)
     /\ (forall k, dict_get k (status_counts r)
                   = count_entry
                       (count_where (fun x => status x = k) counted))
     /\ (forall k, dict_get k (sensor_counts r)
                   = count_entry
                       (count_where (fun x => sensor_id x = k) counted))
     /\ high_energy_events r = count_where high_energy counted
     /\ energy_sum r
        = foldl (fun x s => (x + sum_energy 0 s)%float) 0%float
            (rows_of_chunk (data_rows f) <$> chunks)
     /\ average (energy_sum r) (total r) = Return (avg_energy r)
     /\ chunks_processed r = Some num_workers)
  /\ forall (i : nat) c,
       chunks !! i = Some c ->
       chunks_dir w' !! Z.of_nat i
       = Some (Json.dump (chunk_tally (data_rows f) c) (Z.of_nat i)
                 (elapsed (Z.of_nat i))).
Proof.
  intros counted w' Hf Hn Hsplit Hwf Hd.
  pose proof (well_formed_numeric _ Hwf) as Hnum.
  pose proof (planned_rows (data_rows f) _ _ _ Hn Hsplit) as Hrows.
  fold counted in Hrows.
  destruct (run_workers_artifacts elapsed input_file f
              (chunk_tally (data_rows f)) chunks w Hf) as [Hfound Hdir].
  { intros c Hc. apply chunk_results_tally.
    - by eapply planned_rows_numeric.
    - intros Hpos. apply Hd. split; [done|].
      pose proof (length_rows_of_chunk_le (data_rows f) _ _ _ _ Hn Hsplit Hc).
      fold counted in H. lia. }
  split; [|exact Hdir]. fold w' in Hfound. rewrite Hfound.
  destruct (merge_counts_of
              (imap (fun i c =>
                       Json.load (Json.dump (chunk_tally (data_rows f) c)
                                    (Z.of_nat i) (elapsed (Z.of_nat i))))
                 chunks)
              (rows_of_chunk (data_rows f) <$> chunks))
    as (r & Hr & Hfields).
  - apply Forall2_fmap_r, Forall2_same_length_lookup.
    split; [by rewrite length_imap|].
    intros i p c Hp Hc. rewrite list_lookup_imap, Hc in Hp.
    injection Hp as <-. apply load_dump_counts_of.
    rewrite <- Hrows in Hwf. apply Forall_concat in Hwf.
    rewrite Forall_fmap, Forall_forall in Hwf.
    by eapply Hwf, list_elem_of_lookup_2.
  - rewrite Hrows. intros Hpos. apply Hd. lia.
  - exists r. split; [exact Hr|]. rewrite Hrows in Hfields.
    rewrite length_imap, (split_into_chunks_length _ _ _ Hsplit) in Hfields.
    by rewrite Z2Nat.id in Hfields by lia.
Qed.

(** X5. A run with worker processes over an existing file, with at
    least one worker, counts exactly the first [count_data_rows] data
    rows of the file, provided each has its status and sensor cells and
    a numeric energy: total, per-status and per-sensor counts and the
    number of high-energy rows are those of these rows taken as one
    list, with [num_workers] chunks processed by [subprocess].  The run
    leaves [chunk_<i>.json] holding the counts of chunk [i] for every
    planned chunk, whatever was in the chunk directory before. *)
Theorem worker_process_run_counts_the_counted_rows
    (elapsed : Z -> float) (input_file : string) (num_workers : Z)
    (progress_callback : bool) (st : engine_state) (f : csv_file) :
  let counted := take (Z.to_nat (count_data_rows f)) (data_rows f) in
  let run :=
    process_events elapsed input_file num_workers "subprocess"
      progress_callback st in
  files (fs st) !! input_file = Some f ->
  1 <= num_workers ->
  Forall well_formed counted ->
  (forall n, 0 < n <= Z.of_nat (length counted) ->
     exists d, float_of_int n = Return d) ->
  exists r chunks,
    run.1 = Return r
    /\ split_into_chunks (count_data_rows f) num_workers = Return chunks
    /\ total r = Z.of_nat (length counted)
    /\ (forall k, dict_get k (status_counts r)
                  = count_entry (count_where (fun x => status x = k) counted))
    /\ (forall k, dict_get k (sensor_counts r)
                  = count_entry
                      (count_where (fun x => sensor_id x = k) counted))
    /\ high_energy_events r = count_where high_energy counted
    /\ energy_sum r
       = foldl (fun x s => (x + sum_energy 0 s)%float) 0%float
           (rows_of_chunk (data_rows f) <$> chunks)
    /\ average (energy_sum r) (total r) = Return (avg_energy r)
    /\ chunks_processed r = Some num_workers
    /\ method r = Some "subprocess"
    /\ Compute.num_workers r = Some num_workers
    /\ forall (i : nat) c,
         chunks !! i = Some c ->
         exists j,
           chunks_dir (fs run.2) !! Z.of_nat i = Some j
           /\ Json.j_worker_id j = Z.of_nat i
           /\ Json.j_total j = Z.of_nat (length (rows_of_chunk (data_rows f) c))
           /\ Json.j_processing_time j = elapsed (Z.of_nat i).
Proof.
  intros counted run Hf Hn Hwf Hd. subst run.
  destruct (split_into_chunks (count_data_rows f) num_workers)
    as [chunks|e] eqn:Hsplit;
    [|by rewrite split_into_chunks_fmap in Hsplit by lia].
  rewrite (process_events_dispatch _ _ _ _ _ _ f chunks Hf Hsplit).
  rewrite decide_False by done. rewrite decide_True by done.
  rewrite bind_report_fst, bind_report_fs, _process_subprocess_run.
  cbn [fst snd fs]. rewrite report_fs.
  destruct (worker_processes_then_merge elapsed (fs st) input_file f
              num_workers chunks Hf Hn Hsplit Hwf Hd)
    as [(r & Hr & Hfields) Hdir].
  exists (with_method r "subprocess" num_workers), chunks.
  split; [by rewrite Hr|]. split; [done|].
  cbn [with_method total status_counts sensor_counts
       high_energy_events energy_sum avg_energy
       chunks_processed method Compute.num_workers].
  destruct Hfields as (? & ? & ? & ? & ? & ? & ?). split_and!; try done.
  intros i c Hc. eexists. split; [by apply Hdir|]. done.
Qed.

Lemma worker_process_run_counts_the_counted_rows_witness :
  exists r,
    (process_events Samples.no_time "events.csv" 2 "subprocess" true
       (Samples.start_state
          (Samples.world_of "events.csv"
             [Samples.good_row "ok" "s1" 1;
              Samples.good_row "error" "s2" 150;
              Samples.good_row "ok" "s2" 7]))).1 = Return r
    /\ total r = 3
    /\ dict_get (Some "ok") (status_counts r) = Some 2
    /\ dict_get (Some "s1") (sensor_counts r) = Some 1
    /\ dict_get (Some "warning") (status_counts r) = None
    /\ high_energy_events r = 1.
Proof.
  destruct (worker_process_run_counts_the_counted_rows Samples.no_time
              "events.csv" 2 true
              (Samples.start_state
                 (Samples.world_of "events.csv"
                    [Samples.good_row "ok" "s1" 1;
                     Samples.good_row "error" "s2" 150;
                     Samples.good_row "ok" "s2" 7]))
              (Samples.csv_of
                 [Samples.good_row "ok" "s1" 1;
                  Samples.good_row "error" "s2" 150;
                  Samples.good_row "ok" "s2" 7]))
    as (r & chunks & Hrun & _ & Htotal & Hstatus & Hsensor & Hhigh & _).
  - reflexivity.
  - lia.
  - repeat constructor; cbn; eauto.
  - intros n Hn. change (0 < n <= 3) in Hn.
    assert (n = 1 \/ n = 2 \/ n = 3) as [-> | [-> | ->]] by lia;
      eexists; vm_compute; reflexivity.
  - exists r. split_and!.
    + exact Hrun.
    + exact Htotal.
    + rewrite Hstatus. reflexivity.
    + rewrite Hsensor. reflexivity.
    + rewrite Hstatus. reflexivity.
    + rewrite Hhigh. reflexivity.
Defined.

(** *** A row that cannot be processed *)

Lemma concat_fmap_hits {A B} (g : A -> list B) (l : list A) pre x post :
  concat (g <$> l) = pre ++ x :: post ->
  exists l1 c l2 a b,
    l = l1 ++ c :: l2 /\ g c = a ++ x :: b /\ pre = concat (g <$> l1) ++ a.
Proof.
  revert pre. induction l as [|c l IH]; intros pre; cbn [fmap list_fmap concat].
  - by destruct pre.
  - intros [(k & Hc & Hk)|(k & -> & Hk)]%app_eq_inv.
    + destruct k as [|y k].
      * cbn [app] in Hk. symmetry in Hk.
        destruct (IH [] Hk) as (l1 & c' & l2 & a & b & -> & Hc' & Hpre).
        exists (c :: l1), c', l2, a, b. split_and!; [done..|].
        rewrite app_nil_r in Hc. cbn [fmap list_fmap concat].
        by rewrite <- app_assoc, <- Hpre, app_nil_r.
      * injection Hk as <- Hpost.
        exists [], c, l, pre, k. by split_and!.
    + destruct (IH k Hk) as (l1 & c' & l2 & a & b & -> & Hc' & ->).
      exists (c :: l1), c', l2, a, b. split_and!; [done..|].
      cbn [fmap list_fmap concat]. by rewrite <- app_assoc.
Qed.

Lemma pool_map_app_raise {A B} (f : A -> outcome B) l1 a l2 bs e :
  pool_map f l1 = Return bs -> f a = Raise e ->
  pool_map f (l1 ++ a :: l2) = Raise e.
Proof.
  revert bs. induction l1 as [|a1 l1 IH]; intros bs; cbn [app pool_map].
  - intros _ ->. done.
  - destruct (f a1) as [b|]; [|done]. cbn.
    destruct (pool_map f l1) as [bs'|] eqn:Hl1; [|done].
    intros _ Ha. by rewrite (IH bs' eq_refl Ha).
Qed.

(** The pool on a plan whose first row that cannot be processed is
    [r]. *)
Lemma run_pool_raises files input_file f num_workers chunks pre r post e :
  let counted := take (Z.to_nat (count_data_rows f)) (data_rows f) in
  files !! input_file = Some f ->
  1 <= num_workers ->
  split_into_chunks (count_data_rows f) num_workers = Return chunks ->
  counted = pre ++ r :: post ->
  Forall numeric pre ->
  float_of_cell (energy r) = Raise e ->
  (forall n, 0 < n <= Z.of_nat (length pre) ->
     exists d, float_of_int n = Return d) ->
  run_pool files num_workers
    (imap (fun i c => (input_file, c.1, c.2, Z.of_nat i)) chunks)
  = Raise e.
Proof.
  intros counted Hf Hn Hsplit Hcounted Hpre Hr Hd.
  pose proof (planned_rows (data_rows f) _ _ _ Hn Hsplit) as Hrows.
  fold counted in Hrows. rewrite Hcounted in Hrows.
  apply concat_fmap_hits in Hrows
    as (l1 & c & l2 & a & b & -> & Hc & ->).
  apply Forall_app in Hpre as [Hl1 Ha]. apply Forall_concat in Hl1.
  rewrite Forall_fmap, Forall_forall in Hl1.
  unfold run_pool. rewrite decide_False by lia.
  rewrite imap_app, imap_cons.
  eapply pool_map_app_raise.
  - apply (pool_map_imap _ _
             (fun i c => with_chunk_id (chunk_tally (data_rows f) c)
                           (Z.of_nat i))).
    intros i c' Hc'%list_elem_of_lookup_2.
    rewrite (process_chunk_worker_chunk_results files input_file f c')
      by done.
    rewrite chunk_results_tally; [done|by apply Hl1|].
    intros Hpos. apply Hd. split; [done|].
    apply list_elem_of_split in Hc' as (k1 & k2 & ->).
    rewrite fmap_app, fmap_cons, concat_app. cbn [concat].
    rewrite !length_app. lia.
  - rewrite (process_chunk_worker_chunk_results files input_file f c)
      by done.
    by rewrite (chunk_results_raises _ _ a r b e).
Qed.

Lemma pool_map_some_raise {A B} (f : A -> outcome B) l1 a l2 e :
  f a = Raise e -> exists e', pool_map f (l1 ++ a :: l2) = Raise e'.
Proof.
  intros Ha. induction l1 as [|a1 l1 [e' IH]]; cbn [app pool_map].
  - rewrite Ha. by eexists.
  - destruct (f a1) as [b|e1]; [|by eexists]. rewrite IH. by eexists.
Qed.

(** The pool on a plan that counts a row which cannot be processed
    after numeric rows: the worker of that row's chunk fails, so the
    pool does. *)
Lemma run_pool_fails files input_file f num_workers chunks pre r post e :
  let counted := take (Z.to_nat (count_data_rows f)) (data_rows f) in
  files !! input_file = Some f ->
  1 <= num_workers ->
  split_into_chunks (count_data_rows f) num_workers = Return chunks ->
  counted = pre ++ r :: post ->
  Forall numeric pre ->
  float_of_cell (energy r) = Raise e ->
  exists e',
    run_pool files num_workers
      (imap (fun i c => (input_file, c.1, c.2, Z.of_nat i)) chunks)
    = Raise e'.
Proof.
  intros counted Hf Hn Hsplit Hcounted Hpre Hr.
  pose proof (planned_rows (data_rows f) _ _ _ Hn Hsplit) as Hrows.
  fold counted in Hrows. rewrite Hcounted in Hrows.
  apply concat_fmap_hits in Hrows
    as (l1 & c & l2 & a & b & -> & Hc & ->).
  apply Forall_app in Hpre as [_ Ha].
  unfold run_pool. rewrite decide_False by lia.
  rewrite imap_app, imap_cons.
  apply (pool_map_some_raise _ _ _ _ e).
  rewrite (process_chunk_worker_chunk_results files input_file f c)
    by done.
  by rewrite (chunk_results_raises _ _ a r b e).
Qed.

(** X6. An in-process run fails as a whole, with no partial result,
    when one of the counted rows cannot be processed: if the counted
    rows hold a row [r] whose energy [float()] rejects after rows that
    are all numeric, the run raises.  When [r] is the only such row
    (the rows after it are numeric too, and every row count converts to
    a double), its worker is the only one that fails and the run raises
    that row's exception. *)
Theorem in_process_run_fails_on_bad_row
    (elapsed : Z -> float) (input_file : string) (num_workers : Z)
    (progress_callback : bool) (st : engine_state) (f : csv_file)
    (pre post : list row) (r : row) (e : pyexc) :
  let run :=
    process_events elapsed input_file num_workers "multiprocessing"
      progress_callback st in
  files (fs st) !! input_file = Some f ->
  1 <= num_workers ->
  take (Z.to_nat (count_data_rows f)) (data_rows f) = pre ++ r :: post ->
  Forall numeric pre ->
  float_of_cell (energy r) = Raise e ->
  (exists e', run.1 = Raise e')
  /\ (Forall numeric post ->
      (forall n, 0 < n <= Z.of_nat (length (pre ++ r :: post)) ->
         exists d, float_of_int n = Return d) ->
      run.1 = Raise e).
Proof.
  intros run Hf Hn Hcounted Hpre Hr. subst run.
  destruct (split_into_chunks (count_data_rows f) num_workers)
    as [chunks|e'] eqn:Hsplit;
    [|by rewrite split_into_chunks_fmap in Hsplit by lia].
  rewrite (process_events_dispatch _ _ _ _ _ _ f chunks Hf Hsplit).
  rewrite decide_True by done.
  rewrite bind_report_fst, _process_multiprocessing_fst, report_fs.
  split.
  - destruct (run_pool_fails _ _ f _ _ pre r post e Hf Hn Hsplit Hcounted
                Hpre Hr) as [e' ->].
    by exists e'.
  - intros _ Hd.
    rewrite (run_pool_raises _ _ f _ _ pre r post e); try done.
    intros n Hlen. apply Hd. rewrite length_app. lia.
Qed.

Lemma in_process_run_fails_on_bad_row_witness :
  (process_events Samples.no_time "events.csv" 2 "multiprocessing" true
     (Samples.start_state
        (Samples.world_of "events.csv"
           [Samples.good_row "ok" "s1" 1;
            Samples.good_row "error" "s2" 150;
            Samples.bad_row "ok" "s2";
            Samples.good_row "ok" "s3" 7]))).1
  = Raise (ValueError "could not convert string to float").
Proof.
  refine (proj2
    (in_process_run_fails_on_bad_row Samples.no_time "events.csv" 2 true
       (Samples.start_state
          (Samples.world_of "events.csv"
             [Samples.good_row "ok" "s1" 1;
              Samples.good_row "error" "s2" 150;
              Samples.bad_row "ok" "s2";
              Samples.good_row "ok" "s3" 7]))
       (Samples.csv_of
          [Samples.good_row "ok" "s1" 1;
           Samples.good_row "error" "s2" 150;
           Samples.bad_row "ok" "s2";
           Samples.good_row "ok" "s3" 7])
       [Samples.good_row "ok" "s1" 1; Samples.good_row "error" "s2" 150]
       [Samples.good_row "ok" "s3" 7]
       (Samples.bad_row "ok" "s2")
       (ValueError "could not convert string to float")
       _ _ _ _ _) _ _).
  - reflexivity.
  - lia.
  - reflexivity.
  - decide_by_computation.
  - reflexivity.
  - decide_by_computation.
  - intros n Hn. change (0 < n <= 4) in Hn.
    assert (n = 1 \/ n = 2 \/ n = 3 \/ n = 4) as [-> | [-> | [-> | ->]]]
      by lia;
      eexists; vm_compute; reflexivity.
Defined.

(** *** Progress reports and the file system *)

Lemma process_events_missing elapsed input_file num_workers method
    (progress_callback : bool) st :
  files (fs st) !! input_file = None ->
  process_events elapsed input_file num_workers method progress_callback st
  = (Raise (FileNotFoundError ("Input file not found: " +:+ input_file)), st).
Proof.
  intros Hf. unfold process_events, mbind, engine_bind, get_fs.
  by rewrite Hf.
Qed.

Lemma process_events_unplanned elapsed input_file num_workers method
    (progress_callback : bool) st f e :
  files (fs st) !! input_file = Some f ->
  split_into_chunks (count_data_rows f) num_workers = Raise e ->
  process_events elapsed input_file num_workers method progress_callback st
  = (Raise e, st).
Proof.
  intros Hf Hsplit. unfold process_events, mbind, engine_bind, get_fs, lift.
  by rewrite Hf, Hsplit.
Qed.

(** The whole of [_process_multiprocessing]. *)
Lemma _process_multiprocessing_run input_file chunks num_workers
    (progress_callback : bool) st :
  let pool :=
    run_pool (files (fs st)) num_workers
      (imap (fun i c => (input_file, c.1, c.2, Z.of_nat i)) chunks) in
  _process_multiprocessing input_file chunks num_workers progress_callback st
  = ((fun r => with_method r "multiprocessing" num_workers)
       <$> (partial_results ← pool; merge_results partial_results),
     {| fs := fs st;
        reported :=
          reported st
          ++ (if progress_callback
              then match pool with
                   | Return _ => [dec_0_3; dec_0_8]
                   | Raise _ => [dec_0_3]
                   end
              else []) |}).
Proof.
  intros pool. subst pool. unfold _process_multiprocessing.
  unfold mbind at 1 2 3 4 5, engine_bind, get_fs, lift, report, mret,
    engine_ret.
  destruct st as [w reports].
  destruct progress_callback; cbn [fs reported];
    (destruct (run_pool _ _ _) as [ps|]; cbn;
     [destruct (merge_results ps)|]);
    cbn; rewrite <- ?app_assoc, ?app_nil_r; reflexivity.
Qed.

Lemma bind_report_run (m : engine results) (progress_callback : bool) p st :
  (results ← m; _ ← report progress_callback p; mret results) st
  = match (m st).1 with
    | Return r => (Return r, (report progress_callback p (m st).2).2)
    | Raise e => (Raise e, (m st).2)
    end.
Proof.
  unfold mbind, engine_bind, report, mret, engine_ret.
  by destruct (m st) as [[r|e] st'].
Qed.

(** What a call with a progress callback has reported when it ends.  A
    call that raises has reported a strict prefix of the reports of a
    call that returns; the prefix that ends with 0.7 is that of a call
    that fails while it reads the artifacts back. *)
Lemma process_events_reports elapsed input_file num_workers method st :
  let run :=
    process_events elapsed input_file num_workers method true st in
  exists new,
    reported run.2 = reported st ++ new
    /\ match run.1 with
       | Return _ =>
           (method = "multiprocessing"
            /\ new = [dec_0_1; dec_0_3; dec_0_8; 1%float])
           \/ (method = "subprocess"
               /\ new = [dec_0_1; dec_0_3; dec_0_7; dec_0_9; 1%float])
       | Raise _ =>
           new ∈ [[]; [dec_0_1]; [dec_0_1; dec_0_3];
                  [dec_0_1; dec_0_3; dec_0_7];
                  [dec_0_1; dec_0_3; dec_0_8];
                  [dec_0_1; dec_0_3; dec_0_7; dec_0_9]]
       end.
Proof.
  intros run. subst run.
  destruct (files (fs st) !! input_file) as [f|] eqn:Hf;
    [|rewrite process_events_missing by done;
      exists []; rewrite app_nil_r; split; [done|left]].
  destruct (split_into_chunks (count_data_rows f) num_workers)
    as [chunks|e] eqn:Hsplit;
    [|rewrite (process_events_unplanned _ _ _ _ _ _ f e) by done;
      exists []; rewrite app_nil_r; split; [done|left]].
  rewrite (process_events_dispatch _ _ _ _ _ _ f chunks Hf Hsplit).
  rewrite bind_report_run.
  destruct (decide (method = "multiprocessing")) as [->|Hmp];
    [|destruct (decide (method = "subprocess")) as [->|Hsp]].
  - rewrite _process_multiprocessing_run. cbn [fst snd report fs reported].
    destruct (run_pool _ _ _) as [ps|]; cbn;
      [destruct (merge_results ps); cbn|].
    + eexists. rewrite <- !app_assoc. split; [reflexivity|]. by left.
    + eexists. rewrite <- !app_assoc. split; [reflexivity|].
      do 4 right. left.
    + eexists. rewrite <- !app_assoc. split; [reflexivity|].
      do 2 right. left.
  - rewrite _process_subprocess_run. cbn [fst snd report fs reported].
    destruct (merge_results _); cbn.
    + eexists. rewrite <- !app_assoc. split; [reflexivity|]. by right.
    + eexists. rewrite <- !app_assoc. split; [reflexivity|].
      do 5 right. left.
  - cbn. exists [dec_0_1]. split; [reflexivity|]. right. left.
Qed.

Lemma process_events_silent elapsed input_file num_workers method st :
  reported
    (process_events elapsed input_file num_workers method false st).2
  = reported st.
Proof.
  destruct (files (fs st) !! input_file) as [f|] eqn:Hf;
    [|by rewrite process_events_missing].
  destruct (split_into_chunks (count_data_rows f) num_workers)
    as [chunks|e] eqn:Hsplit;
    [|by rewrite (process_events_unplanned _ _ _ _ _ _ f e)].
  rewrite (process_events_dispatch _ _ _ _ _ _ f chunks Hf Hsplit).
  rewrite bind_report_run.
  destruct (decide (method = "multiprocessing")) as [->|Hmp];
    [|destruct (decide (method = "subprocess")) as [->|Hsp]].
  - rewrite _process_multiprocessing_run. cbn [fst snd report fs reported].
    destruct (run_pool _ _ _) as [ps|]; cbn;
      [destruct (merge_results ps); cbn|]; by rewrite app_nil_r.
  - rewrite _process_subprocess_run. cbn [fst snd report fs reported].
    destruct (merge_results _); cbn; by rewrite app_nil_r.
  - done.
Qed.

Lemma early_reports_below_one :
  Forall (fun p => p <> 1%float)
    [dec_0_1; dec_0_3; dec_0_7; dec_0_8; dec_0_9].
Proof.
  repeat constructor; intros H; apply (f_equal Prim2SF) in H;
    vm_compute in H; discriminate.
Qed.

(** X7. The progress protocol of [process_events].  Without a callback
    nothing is reported.  With one, a call that returns has reported
    exactly 0.1, 0.3, 0.8, 1.0 (pool strategy) or 0.1, 0.3, 0.7, 0.9,
    1.0 (worker processes), in this order; a call that raises has
    reported a strict prefix of one of these (nothing; 0.1; 0.1, 0.3;
    0.1, 0.3, 0.7; 0.1, 0.3, 0.8; or 0.1, 0.3, 0.7, 0.9), so the value
    1.0 is reported if and only if the call returns. *)
Theorem process_events_progress_protocol
    (elapsed : Z -> float) (input_file : string) (num_workers : Z)
    (method : string) (progress_callback : bool) (st : engine_state) :
  let run :=
    process_events elapsed input_file num_workers method
      progress_callback st in
  exists new,
    reported run.2 = reported st ++ new
    /\ if progress_callback
       then
         match run.1 with
         | Return _ =>
             (method = "multiprocessing"
              /\ new = [dec_0_1; dec_0_3; dec_0_8; 1%float])
             \/ (method = "subprocess"
                 /\ new = [dec_0_1; dec_0_3; dec_0_7; dec_0_9; 1%float])
         | Raise _ =>
             new ∈ [[]; [dec_0_1]; [dec_0_1; dec_0_3];
                    [dec_0_1; dec_0_3; dec_0_7];
                    [dec_0_1; dec_0_3; dec_0_8];
                    [dec_0_1; dec_0_3; dec_0_7; dec_0_9]]
         end
         /\ (1%float ∈ new <-> exists r, run.1 = Return r)
       else new = [].
Proof.
  intros run. subst run. destruct progress_callback.
  - destruct (process_events_reports elapsed input_file num_workers method st)
      as (new & Hnew & Hcases).
    exists new. split; [exact Hnew|].
    split; [exact Hcases|].
    destruct (process_events _ _ _ _ _ _).1 as [r|e].
    + split; [by eexists|]. intros _.
      destruct Hcases as [[_ ->]|[_ ->]]; repeat constructor.
    + split; [|by intros [r [=]]]. intros Hin. exfalso.
      pose proof early_reports_below_one as Hlt.
      rewrite !Forall_cons in Hlt.
      destruct Hlt as (H1 & H3 & H7 & H8 & H9 & _).
      repeat (apply elem_of_cons in Hcases as [->|Hcases]);
        [..|by apply elem_of_nil in Hcases];
        repeat (apply elem_of_cons in Hin as [Hin|Hin]; [by subst|]);
        by apply elem_of_nil in Hin.
  - exists []. rewrite app_nil_r. split; [apply process_events_silent|done].
Qed.

Lemma worker_main_chunks_dir w input_file start_row num_rows worker_id
    output_file t (i : Z) :
  i <> output_file ->
  chunks_dir
    (Worker.main w input_file start_row num_rows worker_id output_file t)
  !! i
  = chunks_dir w !! i.
Proof.
  intros Hi. unfold Worker.main.
  destruct (Worker.run _ _ _ _ _ _); [|done].
  cbn [write_chunk chunks_dir]. by rewrite lookup_insert_ne.
Qed.

Lemma run_workers_chunks_dir elapsed input_file chunks w (i : Z) :
  ~ (0 <= i < Z.of_nat (length chunks)) ->
  chunks_dir (run_workers elapsed input_file chunks w) !! i
  = chunks_dir w !! i.
Proof.
  induction chunks as [|c chunks IH] using rev_ind; intros Hi; [done|].
  rewrite length_app in Hi. cbn [length] in Hi.
  rewrite run_workers_snoc, worker_main_chunks_dir by lia.
  apply IH. lia.
Qed.

(** The file system after a call, whatever its outcome. *)
Lemma process_events_fs elapsed input_file num_workers method
    (progress_callback : bool) st :
  let w' :=
    fs (process_events elapsed input_file num_workers method
          progress_callback st).2 in
  w' = fs st
  \/ method = "subprocess"
     /\ exists chunks,
          length chunks = Z.to_nat num_workers
          /\ w' = run_workers elapsed input_file chunks (fs st).
Proof.
  intros w'. subst w'.
  destruct (files (fs st) !! input_file) as [f|] eqn:Hf;
    [|left; by rewrite process_events_missing].
  destruct (split_into_chunks (count_data_rows f) num_workers)
    as [chunks|e] eqn:Hsplit;
    [|left; by rewrite (process_events_unplanned _ _ _ _ _ _ f e)].
  rewrite (process_events_dispatch _ _ _ _ _ _ f chunks Hf Hsplit).
  rewrite bind_report_fs.
  destruct (decide (method = "multiprocessing")) as [->|Hmp];
    [|destruct (decide (method = "subprocess")) as [->|Hsp]].
  - left. rewrite _process_multiprocessing_run. cbn [snd fs].
    apply report_fs.
  - right. split; [done|]. exists chunks.
    split; [by eapply split_into_chunks_length|].
    rewrite _process_subprocess_run. cbn [snd fs]. by rewrite report_fs.
  - left. cbn. apply report_fs.
Qed.

(** X8. What [process_events] may change on disk, whatever its
    arguments and its outcome: unless the method is [subprocess] it
    leaves the whole file system as it was; with [subprocess] it
    touches no artifact other than
    [chunk_0.json] .. [chunk_<num_workers-1>.json]. *)
Theorem process_events_touches_only_its_artifacts
    (elapsed : Z -> float) (input_file : string) (num_workers : Z)
    (method : string) (progress_callback : bool) (st : engine_state) :
  let w' :=
    fs (process_events elapsed input_file num_workers method
          progress_callback st).2 in
  (method <> "subprocess" -> w' = fs st)
  /\ (forall i : Z,
        ~ (0 <= i < num_workers) ->
        chunks_dir w' !! i = chunks_dir (fs st) !! i).
Proof.
  intros w'.
  destruct (process_events_fs elapsed input_file num_workers method
              progress_callback st)
    as [Hsame|(-> & chunks & Hlen & Hrun)]; fold w' in Hsame || fold w' in Hrun.
  - rewrite Hsame. by split_and!.
  - rewrite Hrun. split_and!.
    + done.
    + intros i Hi. apply run_workers_chunks_dir. lia.
Qed.

Lemma process_events_touches_only_its_artifacts_witness :
  let st :=
    {| fs :=
         {| files :=
              {[ "events.csv" :=
                   Samples.csv_of [Samples.good_row "ok" "s1" 1] ]};
            chunks_dir :=
              {[ 5 := Json.dump (Samples.one_row_result 2) 5 0 ]} |};
       reported := [] |} in
  chunks_dir
    (fs (process_events Samples.no_time "events.csv" 2 "subprocess" true
           st).2) !! 5
  = Some (Json.dump (Samples.one_row_result 2) 5 0).
Proof.
  intros st.
  destruct (process_events_touches_only_its_artifacts Samples.no_time
              "events.csv" 2 "subprocess" true st) as (_ & Hdir).
  rewrite Hdir by lia. reflexivity.
Defined.

(** *** More workers than rows *)

Lemma fmap_replicate_const {A B} (g : A -> B) (l : list A) (b : B) :
  Forall (fun a => g a = b) l -> g <$> l = replicate (length l) b.
Proof.
  induction 1 as [|a l Ha _ IH]; [done|].
  rewrite fmap_cons, Ha, IH. done.
Qed.

(** X9. With fewer rows than workers ([0 <= total_rows < num_workers])
    the planner gives every worker but the last the empty chunk
    [(0, 0)] and the last worker all the rows: the plan is
    [num_workers - 1] times [(0, 0)] followed by [(0, total_rows)]. *)
Theorem split_into_chunks_fewer_rows_than_workers
    (total_rows num_workers : Z) :
  0 <= total_rows < num_workers ->
  split_into_chunks total_rows num_workers
  = Return (replicate (Z.to_nat (num_workers - 1)) (0, 0)
            ++ [(0, total_rows)]).
Proof.
  intros Hrows. rewrite split_into_chunks_fmap by lia.
  rewrite Z.div_small by lia.
  replace num_workers with ((num_workers - 1) + 1) at 2 by lia.
  rewrite seqZ_app by lia. rewrite fmap_app. cbn [fmap list_fmap seqZ].
  f_equal. f_equal.
  - rewrite (fmap_replicate_const _ _ (0, 0)).
    + by rewrite length_seqZ.
    + apply Forall_forall. intros i Hi%elem_of_seqZ. unfold chunk_at.
      rewrite decide_False by lia. f_equal. lia.
  - rewrite Z.add_0_l. change (seqZ (num_workers - 1) 1)
      with [num_workers - 1]. cbn [fmap list_fmap]. unfold chunk_at.
    rewrite decide_True by done. do 2 f_equal; lia.
Qed.

Lemma split_into_chunks_fewer_rows_than_workers_witness :
  split_into_chunks 2 4 = Return [(0, 0); (0, 0); (0, 0); (0, 2)].
Proof.
  apply (split_into_chunks_fewer_rows_than_workers 2 4). lia.
Defined.

(** An in-process run over an existing file with at least one worker is
    the pool followed by the merge. *)
Lemma in_process_run elapsed input_file num_workers
    (progress_callback : bool) st f :
  files (fs st) !! input_file = Some f ->
  1 <= num_workers ->
  exists chunks,
    split_into_chunks (count_data_rows f) num_workers = Return chunks
    /\ (process_events elapsed input_file num_workers "multiprocessing"
          progress_callback st).1
       = (fun r => with_method r "multiprocessing" num_workers)
           <$> (partial_results ←
                  run_pool (files (fs st)) num_workers
                    (imap (fun i c => (input_file, c.1, c.2, Z.of_nat i))
                       chunks);
                merge_results partial_results).
Proof.
  intros Hf Hn.
  destruct (split_into_chunks (count_data_rows f) num_workers)
    as [chunks|e] eqn:Hsplit;
    [|by rewrite split_into_chunks_fmap in Hsplit by lia].
  exists chunks. split; [done|].
  rewrite (process_events_dispatch _ _ _ _ _ _ f chunks Hf Hsplit).
  rewrite decide_True by done.
  by rewrite bind_report_fst, _process_multiprocessing_fst, report_fs.
Qed.

(** *** A worker process that fails *)

Lemma run_workers_leave elapsed input_file f chunks w :
  files w !! input_file = Some f ->
  forall (i : nat) c,
    chunks !! i = Some c ->
    chunks_dir (run_workers elapsed input_file chunks w) !! Z.of_nat i
    = match chunk_results (data_rows f) c with
      | Return r => Some (Json.dump r (Z.of_nat i) (elapsed (Z.of_nat i)))
      | Raise _ => chunks_dir w !! Z.of_nat i
      end.
Proof.
  intros Hf. induction chunks as [|c' chunks IH] using rev_ind;
    intros i c Hi; [done|].
  rewrite run_workers_snoc. cbn zeta.
  destruct (decide (i = length chunks)) as [->|Hne].
  - rewrite list_lookup_middle in Hi by done. injection Hi as <-.
    unfold Worker.main.
    rewrite (worker_run_chunk_results _ input_file f c')
      by (by rewrite run_workers_files).
    destruct (chunk_results (data_rows f) c') as [r|e];
      cbn [fmap outcome_fmap].
    + cbn [write_chunk chunks_dir]. by rewrite lookup_insert_eq.
    + apply run_workers_chunks_dir. lia.
  - assert (i < length chunks)%nat as Hlt.
    { apply lookup_lt_Some in Hi. rewrite length_app in Hi.
      cbn [length] in Hi. lia. }
    rewrite worker_main_chunks_dir by lia.
    apply IH. by rewrite lookup_app_l in Hi.
Qed.

(** X21. The artifacts after a run with worker processes, whatever the
    rows hold: for every planned chunk [i], [chunk_<i>.json] is the
    freshly written result of worker [i] if that worker succeeded, and
    otherwise exactly what it was before the run, so an artifact left
    by an earlier run stays in place when its worker now fails. *)
Theorem failed_worker_leaves_old_artifact
    (elapsed : Z -> float) (input_file : string) (num_workers : Z)
    (progress_callback : bool) (st : engine_state) (f : csv_file)
    (chunks : list chunk) :
  files (fs st) !! input_file = Some f ->
  split_into_chunks (count_data_rows f) num_workers = Return chunks ->
  let run :=
    process_events elapsed input_file num_workers "subprocess"
      progress_callback st in
  forall (i : nat) c,
    chunks !! i = Some c ->
    chunks_dir (fs run.2) !! Z.of_nat i
    = match chunk_results (data_rows f) c with
      | Return r => Some (Json.dump r (Z.of_nat i) (elapsed (Z.of_nat i)))
      | Raise _ => chunks_dir (fs st) !! Z.of_nat i
      end.
Proof.
  intros Hf Hsplit run. subst run.
  rewrite (process_events_dispatch _ _ _ _ _ _ f chunks Hf Hsplit).
  rewrite decide_False by done. rewrite decide_True by done.
  rewrite bind_report_fs, _process_subprocess_run.
  cbn [fst snd fs]. rewrite report_fs.
  by apply run_workers_leave.
Qed.

Lemma failed_worker_leaves_old_artifact_witness :
  let stale := Json.dump (Samples.one_row_result 2) 1 0 in
  let st :=
    {| fs :=
         {| files :=
              {[ "events.csv" :=
                   Samples.csv_of [Samples.good_row "ok" "s1" 1;
                                   Samples.bad_row "ok" "s2"] ]};
            chunks_dir := {[ 1 := stale ]} |};
       reported := [] |} in
  chunks_dir
    (fs (process_events Samples.no_time "events.csv" 2 "subprocess" false
           st).2) !! 1
  = Some stale.
Proof.
  intros stale st.
  apply (failed_worker_leaves_old_artifact Samples.no_time "events.csv" 2
              false st
              (Samples.csv_of [Samples.good_row "ok" "s1" 1;
                               Samples.bad_row "ok" "s2"])
              [(0, 1); (1, 1)] eq_refl eq_refl 1%nat (1, 1) eq_refl).
Defined.

End PipelineFacts.

(** ** worker.py and compute.py: a partial result through JSON *)

Module JsonFacts.
Import Compute DictFacts.

Lemma dict_get_snoc {K V} `{EqDecision K} (k k' : K) (v : V) d :
  dict_get k (d ++ [(k', v)])
  = match dict_get k d with
    | Some v' => Some v'
    | None => if decide (k' = k) then Some v else None
    end.
Proof.
  induction d as [|[k0 v0] d IH]; [done|].
  cbn [app dict_get]. by destruct (decide (k0 = k)).
Qed.

Lemma load_dump_counts_snoc counts k v :
  Json.load_counts (Json.dump_counts (counts ++ [(k, v)]))
  = dict_set (Some (Json.json_key k)) v
      (Json.load_counts (Json.dump_counts counts)).
Proof.
  unfold Json.load_counts, Json.dump_counts.
  by rewrite fmap_app, foldl_app.
Qed.

Lemma load_counts_keys members :
  NoDup (Json.load_counts members).*1
  /\ Forall is_Some (Json.load_counts members).*1.
Proof.
  induction members as [|[name v] members IH] using rev_ind.
  - split; [apply NoDup_nil_2|done].
  - unfold Json.load_counts in *. rewrite foldl_app. cbn [foldl fst snd].
    destruct IH as [Hnd Hsome]. split.
    + by apply MergeFacts.dict_set_NoDup.
    + rewrite dict_set_keys. destruct (decide _); [done|].
      apply Forall_app. split; [done|]. by repeat constructor.
Qed.

(** A member name that only one key of the dict is written as reads
    back to the value of that key. *)
Lemma dict_get_load_dump (counts : list (pykey * Z)) (s : string)
    (k0 : pykey) :
  NoDup counts.*1 ->
  Json.json_key k0 = s ->
  (forall k, k ∈ counts.*1 -> Json.json_key k = s -> k = k0) ->
  dict_get (Some s) (Json.load_counts (Json.dump_counts counts))
  = dict_get k0 counts.
Proof.
  intros Hnd Hk0. induction counts as [|[k v] counts IH] using rev_ind;
    intros Honly; [done|].
  rewrite fmap_app, NoDup_app in Hnd. destruct Hnd as (Hnd & Hnin & _).
  rewrite load_dump_counts_snoc, dict_get_snoc.
  assert (dict_get (Some s) (Json.load_counts (Json.dump_counts counts))
          = dict_get k0 counts) as IH'.
  { apply IH; [done|]. intros k' Hk'. apply Honly.
    rewrite fmap_app, elem_of_app. by left. }
  destruct (decide (Json.json_key k = s)) as [Hks|Hks].
  - assert (k = k0) as ->.
    { apply Honly; [|done]. rewrite fmap_app, elem_of_app. right.
      cbn. by left. }
    rewrite Hks, dict_get_set_eq.
    assert (dict_get k0 counts = None) as ->.
    { apply dict_get_None. intros Hin. apply (Hnin k0 Hin). cbn. by left. }
    by rewrite decide_True.
  - rewrite dict_get_set_ne by congruence. rewrite IH'.
    destruct (dict_get k0 counts); [done|].
    rewrite decide_False; [done|]. by intros ->.
Qed.

(** X10. What a partial result looks like after [worker.py] has written
    it with [json.dump] and the engine has read it back with
    [json.load]: the total, the energy sum, the number of high-energy
    events and the average come back unchanged, with the worker id and
    the processing time added and no chunk id.  In both count mappings
    every text key other than ["null"] keeps its count, but the key
    [None] (a row without that cell) does not survive: it is never a key
    of what is read, and its count comes back under the text ["null"]
    (when the mapping had no such text key). *)
Theorem json_round_trip_of_a_partial_result
    (r : results) (worker_id : Z) (t : float)
    (field : results -> list (pykey * Z)) :
  let r' := Json.load (Json.dump r worker_id t) in
  field = status_counts \/ field = sensor_counts ->
  NoDup (field r).*1 ->
  total r' = total r
  /\ energy_sum r' = energy_sum r
  /\ high_energy_events r' = high_energy_events r
  /\ avg_energy r' = avg_energy r
  /\ Compute.worker_id r' = Some worker_id
  /\ processing_time r' = Some t
  /\ chunk_id r' = None
  /\ (forall s, s <> "null" ->
        dict_get (Some s) (field r') = dict_get (Some s) (field r))
  /\ dict_get None (field r') = None
  /\ (Some "null" ∉ (field r).*1 ->
      dict_get (Some "null") (field r') = dict_get None (field r))
  /\ (None ∉ (field r).*1 ->
      dict_get (Some "null") (field r') = dict_get (Some "null") (field r)).
Proof.
  intros r' Hfield Hnd. split_and!; try reflexivity.
  - intros s Hs.
    assert (dict_get (Some s)
              (Json.load_counts (Json.dump_counts (field r)))
            = dict_get (Some s) (field r)) as Hget.
    { apply dict_get_load_dump; [done..|].
      intros [s'|] _; cbn; congruence. }
    by destruct Hfield as [-> | ->].
  - assert (dict_get None (Json.load_counts (Json.dump_counts (field r)))
            = None) as Hget.
    { apply dict_get_None. intros Hin.
      destruct (load_counts_keys (Json.dump_counts (field r))) as [_ Hsome].
      rewrite Forall_forall in Hsome. by destruct (Hsome None Hin). }
    by destruct Hfield as [-> | ->].
  - intros Hnull.
    assert (dict_get (Some "null")
              (Json.load_counts (Json.dump_counts (field r)))
            = dict_get None (field r)) as Hget.
    { apply dict_get_load_dump; [done..|].
      intros [s'|] Hin; [|done]. cbn. intros ->. done. }
    by destruct Hfield as [-> | ->].
  - intros Hnone.
    assert (dict_get (Some "null")
              (Json.load_counts (Json.dump_counts (field r)))
            = dict_get (Some "null") (field r)) as Hget.
    { apply dict_get_load_dump; [done..|].
      intros [s'|] Hin; [|done]. cbn. by intros ->. }
    by destruct Hfield as [-> | ->].
Qed.

Lemma json_round_trip_of_a_partial_result_witness :
  let r :=
    {| total := 3;
       status_counts := [(Some "ok", 2); (None, 1)];
       sensor_counts := [(Some "s1", 3)];
       energy_sum := 3; high_energy_events := 0; avg_energy := PyFloat 1;
       chunk_id := Some 0; worker_id := None; processing_time := None;
       chunks_processed := None; total_processing_time := None;
       method := None; num_workers := None |} in
  dict_get (Some "null") (status_counts (Json.load (Json.dump r 0 0)))
  = Some 1
  /\ dict_get None (status_counts (Json.load (Json.dump r 0 0))) = None.
Proof.
  intros r.
  destruct (json_round_trip_of_a_partial_result r 0 0%float status_counts)
    as (_ & _ & _ & _ & _ & _ & _ & _ & Hnone & Hnull & _).
  - by left.
  - decide_by_computation.
  - split; [|exact Hnone]. rewrite Hnull; [reflexivity|].
    decide_by_computation.
Defined.

End JsonFacts.

(** ** job_manager.py: registries that the API builds *)

Module RegistryFacts.
Import JobManager JobManager.JobStatus DictFacts JobManagerFacts Requests.

Section dict.
Context {K V : Type} `{EqDecision K}.
Implicit Types (k : K) (v : V) (d : list (K * V)).

Lemma dict_set_NoDup_keys k v d : NoDup d.*1 -> NoDup (dict_set k v d).*1.
Proof.
  intros Hnd. rewrite dict_set_keys. destruct (decide _) as [|Hnin]; [done|].
  apply NoDup_app. split_and!; [done| |apply NoDup_singleton].
  intros k' Hin ->%list_elem_of_singleton. done.
Qed.

Lemma dict_set_Forall (P : K * V -> Prop) k v d :
  Forall P d -> P (k, v) -> Forall P (dict_set k v d).
Proof.
  intros Hd Hkv. induction Hd as [|[k' v'] d Hk' Hd IH]; cbn [dict_set].
  - by repeat constructor.
  - destruct (decide (k' = k)) as [->|]; by constructor.
Qed.

Lemma dict_get_Forall (P : K * V -> Prop) k v d :
  Forall P d -> dict_get k d = Some v -> P (k, v).
Proof.
  induction 1 as [|[k' v'] d Hk' _ IH]; cbn [dict_get]; [done|].
  destruct (decide (k' = k)) as [->|]; [by intros [= <-]|done].
Qed.

Lemma dict_set_keys_present k v v0 d :
  dict_get k d = Some v0 -> (dict_set k v d).*1 = d.*1.
Proof.
  intros Hget. rewrite dict_set_keys. destruct (decide _) as [|Hnin]; [done|].
  apply dict_get_None in Hnin. congruence.
Qed.

End dict.

(** *** The clamp of [update_progress] *)

Lemma clamp_cases (p : float) :
  let r := py_min (py_max p 0) 1 in
  (PrimFloat.ltb p 0 = true /\ r = 0%float)
  \/ (PrimFloat.ltb p 0 = false /\ PrimFloat.ltb 1 p = true /\ r = 1%float)
  \/ (PrimFloat.ltb p 0 = false /\ PrimFloat.ltb 1 p = false /\ r = p).
Proof.
  unfold py_min, py_max. destruct (PrimFloat.ltb p 0) eqn:Hneg.
  - left. split; [done|]. reflexivity.
  - right. destruct (PrimFloat.ltb 1 p) eqn:Hbig; [left|right]; done.
Qed.

Lemma clamp_range (p : float) :
  PrimFloat.ltb (py_min (py_max p 0) 1) 0 = false
  /\ PrimFloat.ltb 1 (py_min (py_max p 0) 1) = false.
Proof.
  destruct (clamp_cases p) as [(_ & ->)|[(_ & _ & ->)|(? & ? & ->)]];
    by split.
Qed.

(** *** What every request keeps *)

Lemma terminal_cases (s : string) :
  s ∈ [COMPLETED; FAILED; CANCELLED] ->
  s = COMPLETED \/ s = FAILED \/ s = CANCELLED.
Proof.
  intros Hs. repeat (apply elem_of_cons in Hs as [->|Hs]); auto.
  by apply elem_of_nil in Hs.
Qed.

Lemma registry_ok_set jobs job_id j :
  registry_ok jobs -> job_ok job_id j -> registry_ok (dict_set job_id j jobs).
Proof.
  intros [Hnd Hall] Hj. split.
  - by apply dict_set_NoDup_keys.
  - by apply dict_set_Forall.
Qed.

Lemma registry_ok_get jobs job_id j :
  registry_ok jobs -> dict_get job_id jobs = Some j -> job_ok job_id j.
Proof.
  intros [_ Hall] Hget.
  apply (dict_get_Forall (fun kj => job_ok kj.1 kj.2) _ _ _ Hall Hget).
Qed.

Lemma create_job_ok jobs job_id now input_file num_workers method :
  registry_ok jobs ->
  registry_ok (create_job jobs job_id now input_file num_workers method).1.
Proof.
  intros Hok. apply registry_ok_set; [done|].
  split_and!; [done| |reflexivity|reflexivity].
  intros Hs%terminal_cases. cbn in Hs. by destruct Hs as [|[|]].
Qed.

Lemma update_job_status_ok jobs job_id status now :
  registry_ok jobs -> registry_ok (update_job_status jobs job_id status now).
Proof.
  intros Hok. unfold update_job_status.
  destruct (dict_get job_id jobs) as [j|] eqn:Hget; [|done].
  destruct (registry_ok_get _ _ _ Hok Hget) as (Hid & _ & Hlo & Hhi).
  apply registry_ok_set; [done|].
  destruct (decide (status = RUNNING /\ _)) as [[-> _]|_];
    [|destruct (decide (status ∈ _)) as [Hterm|Hterm]].
  - split_and!; [done| |done|done].
    intros Hs%terminal_cases. cbn in Hs. by destruct Hs as [|[|]].
  - split_and!; [done| |done|done]. by eexists.
  - by split_and!.
Qed.

Lemma update_progress_ok jobs job_id progress :
  registry_ok jobs -> registry_ok (update_progress jobs job_id progress).
Proof.
  intros Hok. unfold update_progress.
  destruct (dict_get job_id jobs) as [j|] eqn:Hget; [|done].
  destruct (registry_ok_get _ _ _ Hok Hget) as (Hid & Hdone & _).
  apply registry_ok_set; [done|].
  destruct (clamp_range progress). by split_and!.
Qed.

Lemma complete_job_ok jobs job_id results now :
  registry_ok jobs -> registry_ok (complete_job jobs job_id results now).
Proof.
  intros Hok. unfold complete_job.
  destruct (dict_get job_id jobs) as [j|] eqn:Hget; [|done].
  destruct (registry_ok_get _ _ _ Hok Hget) as (Hid & _).
  apply registry_ok_set; [done|].
  split_and!; [done|by eexists|reflexivity|reflexivity].
Qed.

Lemma fail_job_ok jobs job_id error now :
  registry_ok jobs -> registry_ok (fail_job jobs job_id error now).
Proof.
  intros Hok. unfold fail_job.
  destruct (dict_get job_id jobs) as [j|] eqn:Hget; [|done].
  destruct (registry_ok_get _ _ _ Hok Hget) as (Hid & _ & Hlo & Hhi).
  apply registry_ok_set; [done|].
  split_and!; [done|by eexists|done|done].
Qed.

Lemma registry_ok_stamped jobs :
  registry_ok jobs ->
  forall kj, kj ∈ jobs -> status kj.2 ∈ [COMPLETED; FAILED] ->
    is_Some (completed_at kj.2).
Proof.
  intros [_ Hall] kj Hin Hst. rewrite Forall_forall in Hall.
  destruct (Hall kj Hin) as (_ & Hdone & _). apply Hdone.
  apply elem_of_cons in Hst as [->|Hst]; [by left|].
  apply elem_of_cons in Hst as [->|Hst]; [right; by left|].
  by apply elem_of_nil in Hst.
Qed.

(** The sweep on a registry whose finished jobs carry their completion
    time. *)
Lemma clear_completed_jobs_filter timestamp jobs now older_than_hours
    seconds :
  registry_ok jobs ->
  float_of_int (older_than_hours * 3600) = Return seconds ->
  let cutoff_time := (now - seconds)%float in
  clear_completed_jobs timestamp jobs now older_than_hours
  = Return
      (filter (fun kj => ~ removable timestamp cutoff_time kj.2) jobs,
       Z.of_nat
         (length
            (filter (fun kj => removable timestamp cutoff_time kj.2) jobs))).
Proof.
  intros Hok Hseconds.
  apply clear_completed_jobs_cutoff;
    [apply Hok|by apply registry_ok_stamped|done].
Qed.

(** An age too large for a double: the sweep raises before it looks at
    a job. *)
Lemma clear_completed_jobs_overflow timestamp jobs now older_than_hours e :
  float_of_int (older_than_hours * 3600) = Raise e ->
  clear_completed_jobs timestamp jobs now older_than_hours
  = Raise OverflowError.
Proof.
  intros Hseconds. unfold clear_completed_jobs. rewrite Hseconds.
  by apply float_of_int_raises_only_overflow in Hseconds as ->.
Qed.

Lemma registry_ok_filter (P : string * job -> Prop)
    `{!forall kj, Decision (P kj)} jobs :
  registry_ok jobs -> registry_ok (filter P jobs).
Proof.
  intros [Hnd Hall]. split.
  - eapply sublist_NoDup; [exact Hnd|].
    apply fmap_sublist, sublist_filter.
  - rewrite Forall_forall in *. intros kj [_ Hin]%list_elem_of_filter.
    by apply Hall.
Qed.

Lemma apply_request_ok jobs r :
  registry_ok jobs -> registry_ok (apply_request jobs r).
Proof.
  intros Hok. destruct r; cbn [apply_request].
  - by apply create_job_ok.
  - by apply update_job_status_ok.
  - by apply update_progress_ok.
  - by apply complete_job_ok.
  - by apply fail_job_ok.
  - destruct (float_of_int (older_than_hours * 3600)) as [seconds|e]
      eqn:Hseconds.
    + rewrite (clear_completed_jobs_filter _ _ _ _ seconds) by done.
      by apply registry_ok_filter.
    + by rewrite (clear_completed_jobs_overflow _ _ _ _ e).
Qed.

Lemma reachable_ok jobs : reachable jobs -> registry_ok jobs.
Proof.
  intros [requests ->].
  induction requests as [|r requests IH] using rev_ind.
  - split; [apply NoDup_nil_2|constructor].
  - rewrite foldl_app. by apply apply_request_ok.
Qed.

Lemma length_filter_partition {A} (P : A -> Prop)
    `{!forall x, Decision (P x)} (l : list A) :
  (length (filter (fun x => ~ P x) l) + length (filter P l) = length l)%nat.
Proof.
  induction l as [|x l IH]; [done|].
  rewrite (filter_cons P), (filter_cons (fun x => ~ P x)).
  destruct (decide (P x)) as [HP|HP].
  - rewrite decide_False by tauto. cbn [length]. lia.
  - rewrite decide_True by done. cbn [length]. lia.
Qed.

(** X11. Every registry that a fresh [JobManager] can get to through
    [create_job], [update_job_status], [update_progress],
    [complete_job], [fail_job] and [clear_completed_jobs], called in
    any order with any arguments, is consistent: each record is stored
    under its own id, a job whose status is completed, failed or
    cancelled carries a completion time, and no progress is below 0 or
    above 1.  On such a registry the retention sweep never fails on a
    job record (no [TypeError] from a missing completion time): it
    returns the registry without the removed jobs and their number,
    unless [older_than_hours * 3600] is too large for a double, in which
    case it raises [OverflowError] as on any registry. *)
Theorem reachable_registry_is_consistent (jobs : registry) :
  reachable jobs ->
  NoDup jobs.*1
  /\ (forall job_id j,
        get_job jobs job_id = Some j ->
        id j = job_id
        /\ (status j ∈ [COMPLETED; FAILED; CANCELLED] ->
            is_Some (completed_at j))
        /\ PrimFloat.ltb (progress j) 0 = false
        /\ PrimFloat.ltb 1 (progress j) = false)
  /\ (forall timestamp now older_than_hours,
        match float_of_int (older_than_hours * 3600) with
        | Return _ =>
            exists jobs' n,
              clear_completed_jobs timestamp jobs now older_than_hours
              = Return (jobs', n)
              /\ Z.of_nat (length jobs') + n = Z.of_nat (length jobs)
              /\ reachable jobs'
        | Raise _ =>
            clear_completed_jobs timestamp jobs now older_than_hours
            = Raise OverflowError
        end).
Proof.
  intros Hreach. pose proof (reachable_ok _ Hreach) as Hok. split_and!.
  - apply Hok.
  - intros job_id j Hget. by apply (registry_ok_get jobs).
  - intros timestamp now older_than_hours.
    destruct (float_of_int (older_than_hours * 3600)) as [seconds|e]
      eqn:Hseconds; [|by apply (clear_completed_jobs_overflow _ _ _ _ e)].
    pose proof (clear_completed_jobs_filter timestamp jobs now
                  older_than_hours seconds Hok Hseconds) as Hsweep.
    cbn zeta in Hsweep. do 2 eexists. split_and!.
    + exact Hsweep.
    + pose proof (length_filter_partition
                    (fun kj : string * job =>
                       removable timestamp (now - seconds) kj.2) jobs)
        as Hlen.
      rewrite <- Hlen. symmetry. apply Nat2Z.inj_add.
    + destruct Hreach as [requests ->].
      exists (requests
              ++ [ClearCompletedJobs timestamp now older_than_hours]).
      rewrite foldl_app. cbn [foldl apply_request].
      by rewrite Hsweep.
Qed.

Lemma filter_kept_again {A} (P : A -> Prop) `{!forall x, Decision (P x)}
    (l : list A) :
  filter P (filter (fun x => ~ P x) l) = []
  /\ filter (fun x => ~ P x) (filter (fun x => ~ P x) l)
     = filter (fun x => ~ P x) l.
Proof.
  induction l as [|x l [IH1 IH2]]; [done|].
  rewrite (filter_cons (fun x => ~ P x)).
  destruct (decide (~ P x)) as [HP|HP]; [|done].
  rewrite (filter_cons P), (filter_cons (fun x => ~ P x)).
  rewrite decide_False by done. rewrite decide_True by done.
  by rewrite IH1, IH2.
Qed.

Lemma reachable_registry_is_consistent_witness :
  let jobs :=
    foldl apply_request []
      [CreateJob "a" 0 "events.csv" 4 "multiprocessing";
       UpdateJobStatus "a" "completed" 5;
       UpdateProgress "a" 7] in
  exists jobs' n,
    clear_completed_jobs Samples.utc_timestamp jobs
      (Samples.utc_timestamp (2 * Samples.day)) 24
    = Return (jobs', n)
    /\ Z.of_nat (length jobs') + n = Z.of_nat (length jobs).
Proof.
  intros jobs.
  destruct (reachable_registry_is_consistent jobs) as (_ & _ & Hsweep).
  - by eexists.
  - specialize (Hsweep Samples.utc_timestamp
                  (Samples.utc_timestamp (2 * Samples.day)) 24).
    change (float_of_int (24 * 3600)) with (Return 86400%float) in Hsweep.
    destruct Hsweep as (jobs' & n & Hrun & Hlen & _).
    by exists jobs', n.
Defined.

(** X12. On a registry built through the API a second retention sweep
    at the same instant and with the same age finds nothing left to
    remove: it returns 0 and the registry it was given. *)
Theorem clear_completed_jobs_twice
    (timestamp : Z -> float) (jobs jobs' : registry) (now : float)
    (older_than_hours n : Z) :
  reachable jobs ->
  clear_completed_jobs timestamp jobs now older_than_hours
  = Return (jobs', n) ->
  clear_completed_jobs timestamp jobs' now older_than_hours
  = Return (jobs', 0).
Proof.
  intros Hok%reachable_ok.
  destruct (float_of_int (older_than_hours * 3600)) as [seconds|e]
    eqn:Hseconds;
    [|by rewrite (clear_completed_jobs_overflow _ _ _ _ e)].
  rewrite (clear_completed_jobs_filter _ _ _ _ seconds) by done.
  intros [= <- _].
  rewrite (clear_completed_jobs_filter _ _ _ _ seconds)
    by (by try apply registry_ok_filter).
  cbn zeta.
  destruct (filter_kept_again
              (fun kj : string * job =>
                 removable timestamp (now - seconds) kj.2)
              jobs) as [Hnone Hsame].
  f_equal. f_equal; [exact Hsame|].
  apply (f_equal (fun l => Z.of_nat (length l))) in Hnone. exact Hnone.
Qed.

Lemma clear_completed_jobs_twice_witness :
  let jobs :=
    foldl apply_request []
      [CreateJob "a" 0 "events.csv" 4 "multiprocessing";
       CreateJob "b" 1 "events.csv" 4 "subprocess";
       FailJob "a" "boom" 5] in
  clear_completed_jobs Samples.utc_timestamp
    (foldl apply_request [] [CreateJob "b" 1 "events.csv" 4 "subprocess"])
    (Samples.utc_timestamp (2 * Samples.day)) 24
  = Return
      (foldl apply_request [] [CreateJob "b" 1 "events.csv" 4 "subprocess"],
       0).
Proof.
  intros jobs.
  apply (clear_completed_jobs_twice Samples.utc_timestamp jobs _
           (Samples.utc_timestamp (2 * Samples.day)) 24 1).
  - by eexists.
  - reflexivity.
Defined.

(** *** One job at a time *)

(** X13. [update_progress] on an existing job stores the progress
    clamped to [[0, 1]] and changes nothing else in the record: a value
    below 0 is stored as 0, a value above 1 as 1, and any other value,
    a NaN included, is stored as given. *)
Theorem update_progress_clamps
    (jobs : registry) (job_id : string) (j : job) (p : float) :
  get_job jobs job_id = Some j ->
  exists r,
    get_job (update_progress jobs job_id p) job_id = Some (set_progress j r)
    /\ PrimFloat.ltb r 0 = false
    /\ PrimFloat.ltb 1 r = false
    /\ ((PrimFloat.ltb p 0 = true /\ r = 0%float)
        \/ (PrimFloat.ltb p 0 = false /\ PrimFloat.ltb 1 p = true
            /\ r = 1%float)
        \/ (PrimFloat.ltb p 0 = false /\ PrimFloat.ltb 1 p = false
            /\ r = p)).
Proof.
  unfold get_job, update_progress. intros ->.
  rewrite dict_get_set_eq. eexists. split; [reflexivity|].
  destruct (clamp_range p). split_and!; [done..|]. apply clamp_cases.
Qed.

Lemma update_progress_clamps_witness :
  let jobs := [("a", Samples.sample_job "a" RUNNING 0 None)] in
  progress <$> get_job (update_progress jobs "a" 7) "a" = Some 1%float
  /\ progress <$> get_job (update_progress jobs "a" (-3)) "a" = Some 0%float.
Proof.
  intros jobs. split.
  - destruct (update_progress_clamps jobs "a"
                (Samples.sample_job "a" RUNNING 0 None) 7 eq_refl)
      as (r & -> & _ & _ & [[Hneg _]|[(_ & _ & ->)|(_ & Hbig & _)]]).
    + vm_compute in Hneg. discriminate.
    + reflexivity.
    + vm_compute in Hbig. discriminate.
  - destruct (update_progress_clamps jobs "a"
                (Samples.sample_job "a" RUNNING 0 None) (-3) eq_refl)
      as (r & -> & _ & _ & [[_ ->]|[(Hneg & _)|(Hneg & _)]]).
    + reflexivity.
    + vm_compute in Hneg. discriminate.
    + vm_compute in Hneg. discriminate.
Defined.

(** X14. The four updating calls, [update_job_status],
    [update_progress], [complete_job] and [fail_job], touch one job
    only: the set of job ids and their order stay as they were, every
    other job keeps its record, and the job addressed keeps its id,
    input file, number of workers, method and creation time; its start
    time, once set, is never overwritten. *)
Theorem updates_touch_one_job
    (jobs : registry) (r : request) (job_id : string) :
  target r = Some job_id ->
  (apply_request jobs r).*1 = jobs.*1
  /\ (forall other, other <> job_id ->
        get_job (apply_request jobs r) other = get_job jobs other)
  /\ (forall j,
        get_job jobs job_id = Some j ->
        exists j',
          get_job (apply_request jobs r) job_id = Some j'
          /\ id j' = id j
          /\ input_file j' = input_file j
          /\ num_workers j' = num_workers j
          /\ method j' = method j
          /\ created_at j' = created_at j
          /\ (is_Some (started_at j) -> started_at j' = started_at j)).
Proof.
  intros Htarget. unfold get_job.
  destruct r; try discriminate; injection Htarget as ->;
    cbn [apply_request];
    unfold update_job_status, update_progress, complete_job, fail_job;
    (destruct (dict_get job_id jobs) as [j0|] eqn:Hget;
     [|split_and!; [done|done|by intros j]]);
    (split_and!;
     [by eapply dict_set_keys_present
     |intros other Hne; by apply dict_get_set_ne
     |intros j [= <-]; rewrite dict_get_set_eq;
      eexists; split; [reflexivity|]]).
  - destruct (decide (_ = RUNNING /\ _)) as [[_ Hnone]|_];
      [|destruct (decide (_ ∈ _))]; split_and!; try done.
    cbn in Hnone. rewrite Hnone. by intros [? [=]].
  - by split_and!.
  - by split_and!.
  - by split_and!.
Qed.

Lemma updates_touch_one_job_witness :
  let jobs :=
    foldl apply_request []
      [CreateJob "a" 0 "events.csv" 4 "multiprocessing";
       CreateJob "b" 1 "other.csv" 2 "subprocess";
       UpdateJobStatus "a" "running" 3] in
  get_job (apply_request jobs (UpdateJobStatus "a" "running" 9)) "b"
  = get_job jobs "b"
  /\ started_at
       <$> get_job (apply_request jobs (UpdateJobStatus "a" "running" 9)) "a"
     = Some (Some 3).
Proof.
  intros jobs.
  destruct (updates_touch_one_job jobs (UpdateJobStatus "a" "running" 9)
              "a" eq_refl) as (_ & Hother & Hsame).
  split; [by apply Hother|].
  destruct (Hsame _ eq_refl) as (j' & -> & _ & _ & _ & _ & _ & Hstart).
  cbn [fmap option_fmap option_map]. f_equal. apply Hstart. by eexists.
Defined.

(** *** Listing *)

Lemma insert_newest_first_same_instant (t : Z) j sorted :
  filter (fun j => created_at j = t) (insert_newest_first j sorted)
  = filter (fun j => created_at j = t) (j :: sorted).
Proof.
  induction sorted as [|j' sorted IH]; [done|].
  cbn [insert_newest_first]. destruct (decide _) as [Hlt|]; [|done].
  rewrite (filter_cons _ j'), IH, !(filter_cons _ j), (filter_cons _ j').
  destruct (decide (created_at j = t)) as [Hj|]; [|done].
  destruct (decide (created_at j' = t)); [lia|done].
Qed.

Lemma sort_newest_first_same_instant (t : Z) jobs :
  filter (fun j => created_at j = t) (sort_newest_first jobs)
  = filter (fun j => created_at j = t) jobs.
Proof.
  induction jobs as [|j jobs IH]; [done|].
  cbn [sort_newest_first foldr].
  rewrite insert_newest_first_same_instant, !(filter_cons _ j).
  fold (sort_newest_first jobs). by rewrite IH.
Qed.

(** X15. The listing is stable: the jobs created at one and the same
    instant appear in [list_jobs] in the order in which they were added
    to the registry, whatever the status filter. *)
Theorem list_jobs_keeps_registry_order_on_ties
    (jobs : registry) (status_filter : option string) (t : Z) :
  filter (fun j => created_at j = t) (list_jobs jobs status_filter None)
  = filter (fun j => created_at j = t) (matching jobs status_filter).
Proof.
  rewrite list_jobs_unlimited. apply sort_newest_first_same_instant.
Qed.

(** *** A new job *)

Lemma dict_get_elem_of {K V} `{EqDecision K} (k : K) (v : V) d :
  dict_get k d = Some v -> (k, v) ∈ d.
Proof.
  induction d as [|[k' v'] d IH]; cbn [dict_get]; [done|].
  destruct (decide (k' = k)) as [->|].
  - intros [= ->]. by left.
  - intros Hget. right. by apply IH.
Qed.

Lemma dict_set_fresh_snoc {K V} `{EqDecision K} (k : K) (v : V) d :
  dict_get k d = None -> dict_set k v d = d ++ [(k, v)].
Proof.
  induction d as [|[k' v'] d IH]; cbn [dict_get dict_set app]; [done|].
  destruct (decide (k' = k)); [done|]. intros Hget. by rewrite IH.
Qed.

(** X23. [create_job] stores a pending record with progress 0, the
    given arguments, the current time as creation time and no start
    time, completion time, results or error, under the id it returns,
    and leaves every other job as it was; a fresh id is appended at the
    end of the registry.  The new job shows at once in the full
    listing, in the listing of pending jobs and among the active
    jobs. *)
Theorem create_job_adds_a_pending_job
    (jobs : registry) (job_id : string) (now : Z) (input_file : string)
    (num_workers : Z) (method : string) :
  let created := create_job jobs job_id now input_file num_workers method in
  let record :=
    {| id := job_id; input_file := input_file; num_workers := num_workers;
       method := method; status := PENDING; progress := 0;
       created_at := now; started_at := None; completed_at := None;
       results := None; error := None |} in
  created.2 = job_id
  /\ get_job created.1 job_id = Some record
  /\ (forall other, other <> job_id ->
        get_job created.1 other = get_job jobs other)
  /\ (get_job jobs job_id = None -> created.1 = jobs ++ [(job_id, record)])
  /\ record ∈ list_jobs created.1 None None
  /\ record ∈ list_jobs created.1 (Some PENDING) None
  /\ record ∈ get_active_jobs created.1.
Proof.
  intros created record.
  assert (get_job created.1 job_id = Some record) as Hget
    by apply dict_get_set_eq.
  assert (record ∈ dict_values created.1) as Hin.
  { apply dict_get_elem_of in Hget. unfold dict_values.
    apply list_elem_of_fmap. by exists (job_id, record). }
  assert (record ∈ list_jobs created.1 (Some PENDING) None) as Hpending.
  { rewrite list_jobs_unlimited, sort_newest_first_perm. unfold matching.
    rewrite decide_False by done. by apply list_elem_of_filter. }
  split_and!.
  - done.
  - exact Hget.
  - intros other Hne. by apply dict_get_set_ne.
  - intros Hnone. by apply dict_set_fresh_snoc.
  - by rewrite list_jobs_unlimited, sort_newest_first_perm.
  - exact Hpending.
  - unfold get_active_jobs. apply elem_of_app. by right.
Qed.

End RegistryFacts.

(** ** main.py: the endpoints and the background task *)

Module EndpointFacts.
Import JobManager JobManager.JobStatus DictFacts JobManagerFacts Requests.
Import RegistryFacts Endpoints.

(** The job after the engine's progress reports have been applied. *)
Lemma progress_reports_applied jobs job_id j (ps : list float) :
  get_job jobs job_id = Some j ->
  let jobs' := foldl (fun jobs p => update_progress jobs job_id p) jobs ps in
  get_job jobs' job_id
  = Some (foldl (fun j p => set_progress j (py_min (py_max p 0) 1)) j ps)
  /\ jobs'.*1 = jobs.*1
  /\ (forall other, other <> job_id ->
        get_job jobs' other = get_job jobs other).
Proof.
  revert jobs j. induction ps as [|p ps IH]; intros jobs j Hget; [done|].
  cbn [foldl].
  assert (update_progress jobs job_id p
          = dict_set job_id (set_progress j (py_min (py_max p 0) 1)) jobs)
    as Hupd by (unfold update_progress, get_job in *; by rewrite Hget).
  destruct (IH (update_progress jobs job_id p)
              (set_progress j (py_min (py_max p 0) 1)))
    as (Hjob & Hkeys & Hothers).
  { rewrite Hupd. apply dict_get_set_eq. }
  split_and!.
  - exact Hjob.
  - rewrite Hkeys, Hupd. by eapply dict_set_keys_present.
  - intros other Hne. rewrite Hothers by done. rewrite Hupd.
    by apply dict_get_set_ne.
Qed.

Lemma progress_fold_fields j (ps : list float) :
  let j' := foldl (fun j p => set_progress j (py_min (py_max p 0) 1)) j ps in
  id j' = id j /\ input_file j' = input_file j
  /\ num_workers j' = num_workers j /\ method j' = method j
  /\ status j' = status j /\ created_at j' = created_at j
  /\ started_at j' = started_at j /\ completed_at j' = completed_at j
  /\ results j' = results j /\ error j' = error j
  /\ progress j'
     = default (progress j)
         (last ((fun p => py_min (py_max p 0) 1) <$> ps)).
Proof.
  revert j. induction ps as [|p ps IH]; intros j; [done|].
  cbn [foldl]. destruct (IH (set_progress j (py_min (py_max p 0) 1)))
    as (-> & -> & -> & -> & -> & -> & -> & -> & -> & -> & ->).
  split_and!; try done.
  rewrite fmap_cons. destruct ps as [|p' ps]; [reflexivity|].
  rewrite fmap_cons, last_cons_cons, last_cons. clear IH.
  destruct (last (_ <$> ps)); reflexivity.
Qed.

Lemma set_job_frame (jobs : registry) job_id (j j' : job) :
  get_job jobs job_id = Some j ->
  get_job (dict_set job_id j' jobs) job_id = Some j'
  /\ (dict_set job_id j' jobs).*1 = jobs.*1
  /\ (forall other, other <> job_id ->
        get_job (dict_set job_id j' jobs) other = get_job jobs other).
Proof.
  unfold get_job. intros Hget. split_and!.
  - apply dict_get_set_eq.
  - by eapply dict_set_keys_present.
  - intros other Hne. by apply dict_get_set_ne.
Qed.

(** The job after [update_job_status(job_id, 'running')]. *)
Lemma job_set_running jobs job_id j now :
  get_job jobs job_id = Some j ->
  let jobs' := update_job_status jobs job_id "running" now in
  exists j',
    get_job jobs' job_id = Some j'
    /\ status j' = "running"
    /\ started_at j' = Some (default now (started_at j))
    /\ id j' = id j /\ progress j' = progress j /\ results j' = results j
    /\ error j' = error j /\ created_at j' = created_at j
    /\ completed_at j' = completed_at j
    /\ jobs'.*1 = jobs.*1
    /\ (forall other, other <> job_id ->
          get_job jobs' other = get_job jobs other).
Proof.
  intros Hget jobs'. subst jobs'. unfold update_job_status.
  pose proof Hget as Hget'. unfold get_job in Hget'. rewrite Hget'.
  match goal with
  | |- context [dict_set job_id ?x jobs] =>
      destruct (set_job_frame jobs job_id j x Hget) as (Hjob & Hkeys & Hothers);
      exists x
  end.
  split; [exact Hjob|]. clear Hjob.
  destruct (decide ("running" = RUNNING /\ _)) as [[_ Hnone]|Hn].
  - cbn in Hnone. rewrite Hnone. by split_and!.
  - assert (is_Some (started_at j)) as [t Ht].
    { destruct (started_at j) eqn:Hs; [by eexists|].
      destruct Hn. by split. }
    rewrite decide_False by (by intros Hin%terminal_cases;
                              destruct Hin as [|[|]]).
    rewrite Ht. by split_and!.
Qed.

(** What [execute_job] does to the registry and the file system. *)
Lemma execute_job_run
    (str : pyexc -> string) (elapsed : Z -> float) (w : world)
    (jobs : registry) (job_id input_file : string) (num_workers : Z)
    (method : string) (now_start now_end : Z) (j : job) :
  get_job jobs job_id = Some j ->
  let run :=
    ComputeEngine.process_events elapsed input_file num_workers method true
      {| ComputeEngine.fs := w; ComputeEngine.reported := [] |} in
  let out :=
    execute_job str elapsed w jobs job_id input_file num_workers method
      now_start now_end in
  out.1 = ComputeEngine.fs run.2
  /\ out.2.*1 = jobs.*1
  /\ (forall other, other <> job_id ->
        get_job out.2 other = get_job jobs other)
  /\ exists j',
       get_job out.2 job_id = Some j'
       /\ completed_at j' = Some now_end
       /\ started_at j' = Some (default now_start (started_at j))
       /\ id j' = id j
       /\ created_at j' = created_at j
       /\ match run.1 with
          | Return r =>
              status j' = "completed" /\ results j' = Some r
              /\ progress j' = 1%float /\ error j' = error j
          | Raise e =>
              status j' = "failed" /\ error j' = Some (str e)
              /\ results j' = results j
              /\ progress j'
                 ∈ [progress j; dec_0_1; dec_0_3; dec_0_7; dec_0_8;
                    dec_0_9]
          end.
Proof.
  intros Hget run out. subst out. unfold execute_job. fold run.
  cbn [fst snd].
  destruct (job_set_running jobs job_id j now_start Hget)
    as (j1 & Hget1 & Hst1 & Hstart1 & Hid1 & Hp1 & Hr1 & He1 & Hc1 & Hd1
        & Hkeys1 & Hothers1).
  set (jobs1 := update_job_status jobs job_id "running" now_start) in *.
  destruct (progress_reports_applied jobs1 job_id j1
              (ComputeEngine.reported run.2) Hget1)
    as (Hget2 & Hkeys2 & Hothers2).
  set (jobs2 := foldl _ jobs1 _) in *.
  set (j2 := foldl _ j1 _) in *.
  destruct (progress_fold_fields j1 (ComputeEngine.reported run.2))
    as (Hid2 & _ & _ & _ & Hst2 & Hc2 & Hstart2 & _ & Hr2 & He2 & Hp2).
  fold j2 in Hid2, Hst2, Hc2, Hstart2, Hr2, He2, Hp2.
  destruct (PipelineFacts.process_events_reports elapsed input_file
              num_workers method
              {| ComputeEngine.fs := w; ComputeEngine.reported := [] |})
    as (new & Hnew & Hcases).
  fold run in Hnew, Hcases. cbn [ComputeEngine.reported app] in Hnew.
  split; [done|].
  destruct run.1 as [r|e]; unfold complete_job, fail_job;
    pose proof Hget2 as Hget2'; unfold get_job in Hget2'; rewrite Hget2';
    match goal with
    | |- context [dict_set job_id ?x jobs2] =>
        destruct (set_job_frame jobs2 job_id j2 x Hget2)
          as (Hjob & Hkeys & Hothers)
    end.
  - split_and!.
    + by rewrite Hkeys, Hkeys2.
    + intros other Hne. by rewrite Hothers, Hothers2, Hothers1.
    + eexists. split; [exact Hjob|]. cbn. split_and!; try done.
      * by rewrite Hstart2.
      * by rewrite Hid2.
      * by rewrite Hc2.
      * by rewrite He2.
  - split_and!.
    + by rewrite Hkeys, Hkeys2.
    + intros other Hne. by rewrite Hothers, Hothers2, Hothers1.
    + eexists. split; [exact Hjob|]. cbn. split_and!; try done.
      * by rewrite Hstart2.
      * by rewrite Hid2.
      * by rewrite Hc2.
      * by rewrite Hr2.
      * rewrite Hp2, Hp1, Hnew. clear -Hcases.
        repeat (apply elem_of_cons in Hcases as [->|Hcases]);
          [..|by apply elem_of_nil in Hcases];
          cbn [fmap list_fmap last default from_option];
          unfold id; rewrite !elem_of_cons; auto 10.
Qed.

(** X16. The background task always finishes the job it is given:
    whatever the status of an existing job was before, cancelled
    included, [execute_job] marks it running, runs the engine, and
    leaves it completed with the engine's results and progress 1.0, or
    failed with the text of the exception and the last progress
    reported before the failure (the progress it had, 0.1, 0.3, 0.7,
    0.8 or 0.9); the completion time is set either way,
    the start time only if the job had none, and no other job is
    touched. *)
Theorem execute_job_finishes_the_job
    (str : pyexc -> string) (elapsed : Z -> float) (w : world)
    (jobs : registry) (job_id input_file : string) (num_workers : Z)
    (method : string) (now_start now_end : Z) (j : job) :
  get_job jobs job_id = Some j ->
  let run :=
    ComputeEngine.process_events elapsed input_file num_workers method true
      {| ComputeEngine.fs := w; ComputeEngine.reported := [] |} in
  let out :=
    execute_job str elapsed w jobs job_id input_file num_workers method
      now_start now_end in
  out.1 = ComputeEngine.fs run.2
  /\ out.2.*1 = jobs.*1
  /\ (forall other, other <> job_id ->
        get_job out.2 other = get_job jobs other)
  /\ exists j',
       get_job out.2 job_id = Some j'
       /\ completed_at j' = Some now_end
       /\ started_at j' = Some (default now_start (started_at j))
       /\ id j' = id j
       /\ created_at j' = created_at j
       /\ match run.1 with
          | Return r =>
              status j' = "completed" /\ results j' = Some r
              /\ progress j' = 1%float /\ error j' = error j
          | Raise e =>
              status j' = "failed" /\ error j' = Some (str e)
              /\ results j' = results j
              /\ progress j'
                 ∈ [progress j; dec_0_1; dec_0_3; dec_0_7; dec_0_8;
                    dec_0_9]
          end.
Proof. apply execute_job_run. Qed.

Lemma execute_job_finishes_the_job_witness :
  let jobs := [("a", Samples.sample_job "a" CANCELLED 0 (Some 1))] in
  let w := Samples.world_of "data/raw/events.csv"
             [Samples.good_row "ok" "s1" 1] in
  status
    <$> get_job
          (execute_job (fun _ => "error") Samples.no_time w jobs "a"
             "data/raw/events.csv" 4 "multiprocessing" 2 3).2 "a"
  = Some "completed".
Proof.
  intros jobs w.
  destruct (execute_job_finishes_the_job (fun _ => "error") Samples.no_time
              w jobs "a" "data/raw/events.csv" 4 "multiprocessing" 2 3
              (Samples.sample_job "a" CANCELLED 0 (Some 1)) eq_refl)
    as (_ & _ & _ & j' & -> & _ & _ & _ & _ & Hcase).
  destruct (ComputeEngine.process_events _ _ _ _ _ _).1 eqn:Hrun.
  - destruct Hcase as (Hst & _). cbn [fmap option_fmap option_map].
    by rewrite Hst.
  - vm_compute in Hrun. discriminate.
Defined.

(** X17. From submission to result.  A job submitted for an existing
    file whose counted rows have numeric energies, with at least one
    worker and the pool strategy, and then run by the background task,
    ends completed: the result endpoint returns the counts of the
    counted rows (total, per-status and per-sensor counts, high-energy
    events) with no error, and the status endpoint shows progress 1.0,
    the submission time as creation time and the two clock readings of
    the task as start and completion times. *)
Theorem submitted_job_returns_the_counts
    (str : pyexc -> string) (elapsed : Z -> float) (w : world)
    (jobs : registry) (job_id input_file : string) (num_workers : Z)
    (now now_start now_end : Z) (f : Compute.csv_file) :
  let counted :=
    take (Z.to_nat (Compute.count_data_rows f)) (Compute.data_rows f) in
  let submitted :=
    (submit_job jobs job_id now input_file num_workers
       "multiprocessing").2 in
  let finished :=
    (execute_job str elapsed w submitted job_id input_file num_workers
       "multiprocessing" now_start now_end).2 in
  files w !! input_file = Some f ->
  1 <= num_workers ->
  Forall Rows.numeric counted ->
  (forall n, 0 < n <= Z.of_nat (length counted) ->
     exists d, float_of_int n = Return d) ->
  exists r,
    get_job_result finished job_id
    = Return {| res_job_id := job_id; res_status := "completed";
                res_results := Some r; res_error := None |}
    /\ get_job_status finished job_id
       = Return {| js_job_id := job_id; js_status := "completed";
                   js_progress := Some 1%float; js_created_at := now;
                   js_started_at := Some now_start;
                   js_completed_at := Some now_end; js_error := None |}
    /\ Compute.total r = Z.of_nat (length counted)
    /\ (forall k,
          dict_get k (Compute.status_counts r)
          = Rows.count_entry
              (Rows.count_where (fun x => Compute.status x = k) counted))
    /\ (forall k,
          dict_get k (Compute.sensor_counts r)
          = Rows.count_entry
              (Rows.count_where (fun x => Compute.sensor_id x = k) counted))
    /\ Compute.high_energy_events r
       = Rows.count_where Rows.high_energy counted.
Proof.
  intros counted submitted finished Hf Hn Hnum Hd.
  set (st := {| ComputeEngine.fs := w; ComputeEngine.reported := [] |}).
  destruct (PipelineFacts.in_process_run elapsed input_file num_workers true
              st f Hf Hn) as (chunks & Hsplit & Hrun).
  destruct (PipelineFacts.pool_then_merge (files w) input_file f num_workers
              chunks Hf Hn Hsplit Hnum Hd)
    as (r & Hr & Htotal & Hstatus & Hsensor & Hhigh & _).
  cbn [ComputeEngine.fs st] in Hrun. rewrite Hr in Hrun.
  cbn [fmap outcome_fmap] in Hrun.
  assert (get_job submitted job_id
          = Some {| id := job_id; input_file := input_file;
                    num_workers := num_workers; method := "multiprocessing";
                    status := PENDING; progress := 0;
                    created_at := now; started_at := None;
                    completed_at := None; results := None; error := None |})
    as Hget by apply dict_get_set_eq.
  destruct (execute_job_run str elapsed w submitted job_id input_file
              num_workers "multiprocessing" now_start now_end _ Hget)
    as (_ & _ & _ & j' & Hget' & Hdone & Hstart & Hid & Hcreated & Hcase).
  fold finished in Hget'. fold st in Hcase. rewrite Hrun in Hcase.
  destruct Hcase as (Hst & Hres & Hp & He).
  cbn in Hstart, Hid, Hcreated, He.
  exists (ComputeEngine.with_method r "multiprocessing" num_workers).
  unfold get_job_result, get_job_status. rewrite Hget'.
  rewrite decide_False by (rewrite Hst; intros Hnot; apply Hnot;
                           decide_by_computation).
  unfold status_response.
  rewrite Hdone, Hstart, Hid, Hcreated, Hst, Hres, Hp, He.
  by split_and!.
Qed.

Lemma submitted_job_returns_the_counts_witness :
  let w := Samples.world_of "events.csv"
             [Samples.good_row "ok" "s1" 1;
              Samples.good_row "error" "s2" 150] in
  let submitted :=
    (submit_job [] "a" 0 "events.csv" 2 "multiprocessing").2 in
  let finished :=
    (execute_job (fun _ => "error") Samples.no_time w submitted "a"
       "events.csv" 2 "multiprocessing" 1 2).2 in
  exists r,
    get_job_result finished "a"
    = Return {| res_job_id := "a"; res_status := "completed";
                res_results := Some r; res_error := None |}
    /\ Compute.total r = 2.
Proof.
  intros w submitted finished.
  destruct (submitted_job_returns_the_counts (fun _ => "error")
              Samples.no_time w [] "a" "events.csv" 2 0 1 2
              (Samples.csv_of [Samples.good_row "ok" "s1" 1;
                               Samples.good_row "error" "s2" 150]))
    as (r & Hresult & _ & Htotal & _).
  - reflexivity.
  - lia.
  - decide_by_computation.
  - intros n Hn. change (0 < n <= 2) in Hn.
    assert (n = 1 \/ n = 2) as [-> | ->] by lia;
      eexists; vm_compute; reflexivity.
  - exists r. split; [exact Hresult|exact Htotal].
Defined.

(** *** Reading a job back *)

(** X18. A job that was cancelled through the cancel endpoint has no
    result to fetch: the result endpoint refuses it with HTTP 400 and
    the message that the job is still cancelled, while the status
    endpoint shows it cancelled with the time of the cancellation as
    completion time.  The result endpoint answers only for completed
    and failed jobs, and with 404 for an unknown id. *)
Theorem cancelled_job_has_no_result
    (jobs : registry) (job_id : string) (now : Z) (j : job) :
  get_job jobs job_id = Some j ->
  status j ∈ [PENDING; RUNNING] ->
  let cancelled := (Main.cancel_job jobs job_id now).2 in
  get_job_result cancelled job_id
  = Raise (HTTPException 400 ("Job " +:+ job_id +:+ " is still cancelled"))
  /\ (exists response,
        get_job_status cancelled job_id = Return response
        /\ js_status response = "cancelled"
        /\ js_completed_at response = Some now
        /\ js_started_at response = started_at j
        /\ js_progress response = Some (progress j))
  /\ (forall other,
        get_job cancelled other = None ->
        get_job_result cancelled other
        = Raise (HTTPException 404 ("Job " +:+ other +:+ " not found"))).
Proof.
  intros Hget Hst cancelled. subst cancelled. unfold Main.cancel_job.
  rewrite Hget. rewrite decide_False by (by intros Hn).
  cbn [snd]. unfold update_job_status.
  pose proof Hget as Hget'. unfold get_job in Hget'. rewrite Hget'.
  rewrite decide_False by (by intros [[=] _]).
  rewrite decide_True by decide_by_computation.
  unfold get_job_result, get_job_status, get_job.
  rewrite dict_get_set_eq. split_and!.
  - by rewrite decide_True by decide_by_computation.
  - eexists. split; [reflexivity|]. by split_and!.
  - intros other Hnone. by rewrite Hnone.
Qed.

Lemma cancelled_job_has_no_result_witness :
  let jobs := [("a", Samples.sample_job "a" PENDING 0 None)] in
  get_job_result (Main.cancel_job jobs "a" 5).2 "a"
  = Raise (HTTPException 400 "Job a is still cancelled").
Proof.
  intros jobs.
  destruct (cancelled_job_has_no_result jobs "a" 5
              (Samples.sample_job "a" PENDING 0 None) eq_refl) as [Hres _].
  - decide_by_computation.
  - exact Hres.
Defined.

(** *** Statistics *)

Lemma dict_get_count_status (s : string) (l : list job)
    (acc : list (string * Z)) :
  dict_get s (foldl count_status acc l)
  = let n := Z.of_nat (length (filter (fun j => status j = s) l)) in
    if decide (n = 0) then dict_get s acc
    else Some (default 0 (dict_get s acc) + n).
Proof.
  revert acc. induction l as [|j l IH]; intros acc; [done|].
  cbn [foldl]. rewrite IH. cbn zeta. unfold count_status.
  rewrite (filter_cons (fun j => status j = s)).
  destruct (decide (status j = s)) as [->|Hne].
  - rewrite dict_get_set_eq. cbn [length].
    generalize (length (filter (fun j => status j = s) l)). intros n.
    rewrite (decide_False (P := Z.of_nat (S _) = 0)) by lia.
    destruct (decide (Z.of_nat n = 0)) as [Hz|_];
      cbn [default from_option]; unfold Datatypes.id; f_equal; lia.
  - by rewrite dict_get_set_ne.
Qed.

Lemma count_status_NoDup (l : list job) (acc : list (string * Z)) :
  NoDup acc.*1 -> NoDup (foldl count_status acc l).*1.
Proof.
  revert acc. induction l as [|j l IH]; intros acc Hnd; [done|].
  cbn [foldl]. apply IH. by apply dict_set_NoDup_keys.
Qed.

Lemma sort_newest_first_count (P : job -> Prop) `{!forall j, Decision (P j)}
    (l : list job) :
  length (filter P (sort_newest_first l)) = length (filter P l).
Proof.
  apply Permutation_length, filter_Permutation, sort_newest_first_perm.
Qed.

(** X19. The statistics endpoint counts the registry: [total_jobs] is
    the number of jobs, [by_status] holds for every status the number
    of jobs that have it (and no entry for a status that no job has),
    each status once, and [active_jobs] is the number of running jobs
    plus the number of pending jobs. *)
Theorem get_stats_counts_the_registry (jobs : registry) :
  let having (s : string) :=
    Z.of_nat (length (filter (fun j => status j = s) (dict_values jobs))) in
  total_jobs (get_stats jobs) = Z.of_nat (length jobs)
  /\ (forall s,
        dict_get s (by_status (get_stats jobs))
        = Rows.count_entry (having s))
  /\ NoDup (by_status (get_stats jobs)).*1
  /\ active_jobs (get_stats jobs) = having RUNNING + having PENDING.
Proof.
  intros having. unfold get_stats.
  cbn [total_jobs by_status active_jobs].
  rewrite list_jobs_unlimited. cbn [matching].
  split_and!.
  - rewrite sort_newest_first_perm. unfold dict_values.
    by rewrite length_fmap.
  - intros s. rewrite dict_get_count_status. cbn zeta.
    rewrite sort_newest_first_count. unfold Rows.count_entry. fold (having s).
    destruct (decide (having s = 0)); [done|].
    cbn [dict_get default from_option]. unfold Datatypes.id.
    by rewrite Z.add_0_l.
  - apply count_status_NoDup, NoDup_nil_2.
  - unfold get_active_jobs. rewrite !list_jobs_unlimited. unfold matching.
    rewrite !decide_False by done.
    rewrite length_app, !sort_newest_first_perm. unfold having. lia.
Qed.

(** *** The listing endpoint *)

Lemma list_jobs_subseteq jobs status_filter limit :
  JobManager.list_jobs jobs status_filter limit ⊆ dict_values jobs.
Proof.
  intros j Hj.
  assert (j ∈ sort_newest_first (matching jobs status_filter)) as Hsorted.
  { rewrite <- list_jobs_unlimited. revert Hj. unfold JobManager.list_jobs.
    destruct limit as [n|]; [|done].
    destruct (decide (n = 0)); [done|]. unfold slice_to.
    destruct (decide (0 <= n)); apply subseteq_take. }
  rewrite sort_newest_first_perm in Hsorted. revert Hsorted.
  unfold matching. destruct status_filter as [s|]; [|done].
  destruct (decide (s = "")); [done|].
  by intros [_ ?]%list_elem_of_filter.
Qed.

Lemma dict_get_of_elem {K V} `{EqDecision K} (k : K) (v : V) d :
  NoDup d.*1 -> (k, v) ∈ d -> dict_get k d = Some v.
Proof.
  induction d as [|[k' v'] d IH]; [by intros _ ?%elem_of_nil|].
  rewrite fmap_cons, NoDup_cons. intros [Hnin Hnd].
  intros [[= -> ->]|Hin]%elem_of_cons; cbn [dict_get].
  - by rewrite decide_True.
  - rewrite decide_False; [by apply IH|].
    intros ->. apply Hnin. apply list_elem_of_fmap. by exists (k, v).
Qed.

(** X24. On a registry built through the API the listing endpoint and
    the status endpoint agree: every entry that [GET /jobs] returns,
    for any status filter and any limit, is exactly what
    [GET /jobs/{job_id}/status] returns for the job id the entry
    carries. *)
Theorem listed_job_is_what_status_returns
    (jobs : registry) (status_filter : option string) (limit : option Z)
    (response : JobStatusResponse) :
  reachable jobs ->
  response ∈ Endpoints.list_jobs jobs status_filter limit ->
  get_job_status jobs (js_job_id response) = Return response.
Proof.
  intros Hok%reachable_ok. unfold Endpoints.list_jobs.
  intros (j & -> & Hj%list_jobs_subseteq)%list_elem_of_fmap.
  unfold dict_values in Hj.
  apply list_elem_of_fmap in Hj as ([k j'] & -> & Hin).
  destruct Hok as [Hnd Hall]. rewrite Forall_forall in Hall.
  destruct (Hall _ Hin) as (Hid & _). cbn [fst snd] in *.
  unfold get_job_status, get_job. cbn [status_response js_job_id].
  rewrite Hid. by rewrite (dict_get_of_elem k j' jobs Hnd Hin).
Qed.

Lemma listed_job_is_what_status_returns_witness :
  let jobs :=
    foldl apply_request []
      [CreateJob "a" 0 "events.csv" 4 "multiprocessing";
       CreateJob "b" 1 "events.csv" 2 "subprocess";
       UpdateJobStatus "a" "running" 3] in
  get_job_status jobs "b"
  = Return {| js_job_id := "b"; js_status := "pending";
              js_progress := Some 0%float; js_created_at := 1;
              js_started_at := None; js_completed_at := None;
              js_error := None |}.
Proof.
  intros jobs.
  apply (listed_job_is_what_status_returns jobs (Some "pending") (Some 100)
           {| js_job_id := "b"; js_status := "pending";
              js_progress := Some 0%float; js_created_at := 1;
              js_started_at := None; js_completed_at := None;
              js_error := None |}).
  - by eexists.
  - left.
Defined.

End EndpointFacts.

(** ** The stand-alone scripts *)

Module ScriptFacts.
Import Compute Rows RowsFacts StrategyFacts.

Lemma old_process_rows_from start count rows i total :
  OldProcessChunk.process_rows start count i rows total
  = total
    + Z.of_nat
        (length
           (take (Z.to_nat (start + count - Z.max i start))
              (drop (Z.to_nat (start - i)) rows))).
Proof.
  revert i total. induction rows as [|r rows IH]; intros i total.
  - rewrite drop_nil, take_nil. cbn. lia.
  - cbn [OldProcessChunk.process_rows].
    destruct (decide (i < start)) as [Hlt|Hge].
    + rewrite IH.
      replace (Z.to_nat (start - i))
        with (S (Z.to_nat (start - (i + 1)))) by lia.
      cbn [drop]. do 5 f_equal. lia.
    + replace (Z.to_nat (start - i)) with 0%nat by lia. cbn [drop].
      replace (Z.max i start) with i by lia.
      destruct (decide (start + count <= i)) as [Hend|Hin].
      * replace (Z.to_nat (start + count - i)) with 0%nat by lia.
        cbn. lia.
      * replace (Z.to_nat (start + count - i))
          with (S (Z.to_nat (start + count - (i + 1)))) by lia.
        cbn [take length]. rewrite IH. unfold OldProcessChunk.process_event.
        replace (Z.to_nat (start - (i + 1))) with 0%nat by lia.
        rewrite drop_0.
        replace (Z.max (i + 1) start) with (i + 1) by lia. lia.
Qed.

Lemma consume_total rows processor processor' :
  consume rows processor = Return processor' ->
  EventProcessor.total processor'
  = EventProcessor.total processor + Z.of_nat (length rows).
Proof.
  revert processor. induction rows as [|r rows IH]; intros processor.
  - intros [= <-]. cbn. lia.
  - cbn [consume]. unfold process_event at 1.
    destruct (float_of_cell (energy r)) as [x|]; [|done]. cbn.
    intros Hrest%IH. rewrite Hrest. cbn. lia.
Qed.

(** X20. The loop of the early single-chunk script
    [old/process_chunk.py], run over the rows that the reader hands to
    it, counts the rows whose index lies in [[start, start + count)]:
    for a range inside the rows that is [count], otherwise what is left
    of them after [start].  The loop never looks into a row, and
    whenever the loop of the current worker gets through the same rows
    and range, the total of its processor is this number. *)
Theorem old_process_chunk_counts_its_range
    (rows : list row) (start count : Z) :
  let n := Z.of_nat (length (rows_of_chunk rows (start, count))) in
  OldProcessChunk.process_rows start count 0 rows 0 = n
  /\ (0 <= start -> 0 <= count ->
      n = Z.max 0 (Z.min count (Z.of_nat (length rows) - start)))
  /\ (forall processor,
        process_rows start count 0 rows EventProcessor.__init__
        = Return processor ->
        EventProcessor.total processor = n).
Proof.
  intros n. subst n. split_and!.
  - rewrite old_process_rows_from.
    unfold rows_of_chunk. cbn [fst snd]. by rewrite Z.sub_0_r, Z.add_0_l.
  - intros Hstart Hcount. rewrite rows_of_chunk_nonneg by done.
    rewrite length_take, length_drop. lia.
  - intros processor. rewrite process_rows_consume.
    intros Hp%consume_total. rewrite Hp. cbn. lia.
Qed.

Lemma launcher_printed (dir : gmap Z Json.chunk_json) (l : list Z)
    (acc : SubprocessParallel.merged) :
  SubprocessParallel.printed (foldl (SubprocessParallel.merge_step dir) acc l)
  = SubprocessParallel.printed acc
    ++ ((fun i =>
           "Warning: " +:+ SubprocessParallel.result_file i +:+ " not found")
          <$> filter (fun i => dir !! i = None) l).
Proof.
  revert acc. induction l as [|i l IH]; intros acc.
  - by rewrite app_nil_r.
  - cbn [foldl]. rewrite IH, (filter_cons (fun i => dir !! i = None)).
    unfold SubprocessParallel.merge_step.
    destruct (dir !! i) as [j|] eqn:Hi.
    + by rewrite decide_False.
    + rewrite decide_True by done.
      cbn [SubprocessParallel.printed]. by rewrite <- app_assoc.
Qed.

(** X22. The stand-alone launcher's merge prints one warning for each
    missing artifact among [chunk_0.json] .. [chunk_<n-1>.json], in
    index order and naming the file, and nothing else. *)
Theorem launcher_warns_for_each_missing_artifact
    (dir : gmap Z Json.chunk_json) (num_workers : Z) :
  (SubprocessParallel.merge_results dir num_workers).2
  = (fun i =>
       "Warning: " +:+ SubprocessParallel.result_file i +:+ " not found")
      <$> filter (fun i => dir !! i = None) (seqZ 0 num_workers).
Proof.
  unfold SubprocessParallel.merge_results. cbn [snd].
  by rewrite launcher_printed.
Qed.

End ScriptFacts.
